(** * food_recognizer: the recipe route and its response recovery pipeline

    A shallow embedding of [src/app/api/generate-recipe/route.ts]
    ([parseRecipeFromResponse], [extractRecipeFromText],
    [validateAndFormatRecipe], [POST]) and of [getUnitSystemPrompt]
    ([src/utils/imageUtils.ts]), together with the parts of the JavaScript
    run time they call: strings as sequences of UTF-16 code units, the
    backtracking regular expressions of the source,
    [String.prototype.trim/split/replace/match/includes/toLowerCase], and
    [JSON.parse].

    Exceptions are explicit ([completion], [try_catch]); the calls the
    handler makes to the external service are recorded in the order they are
    made ([io]).  Logging ([console.log], [console.error]) has no effect on
    what is returned and is left out, and so is the construction of the
    OpenAI client when the module is loaded.

    The file has two parts: the definitions (modules [JS], [JSON], [Units],
    [Route], [Model]) and then the properties. *)

From Stdlib Require Import List NArith ZArith Bool Arith Lia String Ascii.
Import ListNotations.

Set Warnings "-register-all".

(* ================================================================== *)
(** ** JavaScript strings *)

Module JS.

(** A JavaScript string is a finite sequence of UTF-16 code units. *)
Definition jsstring := list N.

(** ASCII literals of the source, one code unit per character. *)
Definition lit (s : string) : jsstring :=
  map N_of_ascii (list_ascii_of_string s).

(** Literals of the source that contain double quotes are written with an
    apostrophe standing for each double quote (none of them contains an
    apostrophe of its own). *)
Definition dq (s : string) : jsstring :=
  map (fun c => if N.eqb c 39 then 34 else c)%N (lit s).

Fixpoint str_eqb (a b : jsstring) : bool :=
  match a, b with
  | [], [] => true
  | x :: a', y :: b' => N.eqb x y && str_eqb a' b'
  | _, _ => false
  end.

Open Scope N_scope.

(** LineTerminator of ECMA-262: LF, CR, LS, PS. *)
Definition isLineTerminator (c : N) : bool :=
  (c =? 10) || (c =? 13) || (c =? 8232) || (c =? 8233).

(** WhiteSpace or LineTerminator of ECMA-262: what [\s] matches and what
    [trim] strips. *)
Definition isSpace (c : N) : bool :=
  (c =? 9) || (c =? 11) || (c =? 12) || (c =? 32) || (c =? 160)
  || (c =? 5760) || ((8192 <=? c) && (c <=? 8202)) || (c =? 8239)
  || (c =? 8287) || (c =? 12288) || (c =? 65279) || isLineTerminator c.

Definition isDigit (c : N) : bool := (48 <=? c) && (c <=? 57).

(** [\w]: ASCII letters, digits and the underscore. *)
Definition isWord (c : N) : bool :=
  ((97 <=? c) && (c <=? 122)) || ((65 <=? c) && (c <=? 90))
  || isDigit c || (c =? 95).

Close Scope N_scope.

Fixpoint dropWhile (p : N -> bool) (s : jsstring) : jsstring :=
  match s with
  | [] => []
  | c :: s' => if p c then dropWhile p s' else s
  end.

Definition trimStart (s : jsstring) : jsstring := dropWhile isSpace s.
Definition trimEnd (s : jsstring) : jsstring := rev (dropWhile isSpace (rev s)).

(** [String.prototype.trim]. *)
Definition trim (s : jsstring) : jsstring := trimEnd (trimStart s).

(** [String.prototype.toLowerCase], on the code units whose lower case can be
    an ASCII letter: [A-Z], U+212A (KELVIN SIGN, to [k]) and U+0130 (to [i]
    followed by U+0307), and on Latin-1.  The other mappings of the Unicode
    tables send letters outside ASCII to letters outside ASCII; the source
    only searches the lowered text for ASCII words. *)
Definition lowerUnit (c : N) : jsstring :=
  if ((65 <=? c) && (c <=? 90))%N then [(c + 32)%N]
  else if (c =? 8490)%N then [107%N]
  else if (c =? 304)%N then [105%N; 775%N]
  else if ((192 <=? c) && (c <=? 222) && negb (c =? 215))%N then [(c + 32)%N]
  else [c].

Definition toLowerCase (s : jsstring) : jsstring := flat_map lowerUnit s.

(** [a.startsWith(b)] on the remaining input. *)
Fixpoint prefixb (p s : jsstring) : bool :=
  match p, s with
  | [], _ => true
  | a :: p', b :: s' => N.eqb a b && prefixb p' s'
  | _ :: _, [] => false
  end.

(** [String.prototype.includes]. *)
Fixpoint includes (s p : jsstring) : bool :=
  prefixb p s || match s with [] => false | _ :: s' => includes s' p end.

(** [s.split(sep)] for a separator of one code unit. *)
Fixpoint split_on (sep : N) (s : jsstring) : list jsstring :=
  match s with
  | [] => [[]]
  | c :: s' =>
      if N.eqb c sep then [] :: split_on sep s'
      else match split_on sep s' with
           | [] => [[c]]
           | piece :: pieces => (c :: piece) :: pieces
           end
  end.

(* ------------------------------------------------------------------ *)
(** *** Regular expressions

    The patterns of the source use literals, classes, sequence, alternation,
    greedy and lazy iteration, capture groups and the assertions [^] and [$]
    (never with the [m] flag).  The matcher is the backtracking matcher of
    ECMA-262 written with lists of successes: [run r x] lists, in the order in
    which backtracking tries them, the states in which [r] can end when it
    starts in state [x]; the first element is the match the engine returns. *)

Inductive regex : Type :=
| Empty
| Chr (p : N -> bool)
| Seq (r1 r2 : regex)
| Alt (r1 r2 : regex)
| Star (greedy : bool) (r : regex)
| Group (i : nat) (r : regex)
| Bol
| Eol.

(** A matcher state: the index reached, the input that remains, and the text
    captured by each group that took part (most recent first). *)
Record mstate : Type := MState {
  pos : nat;
  rest : jsstring;
  caps : list (nat * jsstring)
}.

Definition star_loop (step : mstate -> list mstate) (greedy : bool) :
  nat -> mstate -> list mstate :=
  fix loop (n : nat) (x : mstate) : list mstate :=
    match n with
    | O => [x]
    | S n' =>
        (* an iteration that matches the empty string is rejected *)
        let more :=
          flat_map (fun y => if Nat.eqb (pos y) (pos x) then [] else loop n' y)
                   (step x) in
        if greedy then more ++ [x] else x :: more
    end.

Fixpoint run (r : regex) (x : mstate) : list mstate :=
  match r with
  | Empty => [x]
  | Chr p =>
      match rest x with
      | c :: s' => if p c then [MState (S (pos x)) s' (caps x)] else []
      | [] => []
      end
  | Seq r1 r2 => flat_map (run r2) (run r1 x)
  | Alt r1 r2 => run r1 x ++ run r2 x
  | Star g r1 => star_loop (run r1) g (List.length (rest x)) x
  | Group i r1 =>
      map (fun y => MState (pos y) (rest y)
                      ((i, firstn (pos y - pos x) (rest x)) :: caps y))
          (run r1 x)
  | Bol => if Nat.eqb (pos x) 0 then [x] else []
  | Eol => match rest x with [] => [x] | _ :: _ => [] end
  end.

Definition Plus (g : bool) (r : regex) : regex := Seq r (Star g r).
Definition Opt (r : regex) : regex := Alt r Empty.

Fixpoint Cat (rs : list regex) : regex :=
  match rs with
  | [] => Empty
  | [r] => r
  | r :: rs' => Seq r (Cat rs')
  end.

Fixpoint Or (rs : list regex) : regex :=
  match rs with
  | [] => Chr (fun _ => false)
  | [r] => r
  | r :: rs' => Alt r (Or rs')
  end.

Definition chr (c : N) : regex := Chr (N.eqb c).

(** A letter under the [i] flag (no [u] flag): the code unit or its ASCII
    counterpart of the other case; no code unit outside ASCII canonicalizes
    to an ASCII letter. *)
Definition chrCI (c : N) : regex :=
  Chr (fun d => N.eqb d c
             || (isWord c && negb (isDigit c) && negb (N.eqb c 95)
                 && (N.eqb d (N.lxor c 32))))%N.

Definition Lit (s : string) : regex := Cat (map chr (lit s)).
Definition LitCI (s : string) : regex := Cat (map chrCI (lit s)).

Definition anyUnit : regex := Chr (fun _ => true).          (* [\s\S] *)
Definition dot : regex := Chr (fun c => negb (isLineTerminator c)).
Definition space : regex := Chr isSpace.                    (* \s *)
Definition digit : regex := Chr isDigit.                    (* \d *)
Definition word : regex := Chr isWord.                      (* \w *)

(** The result of [RegExp.prototype.exec] without the [g] and [y] flags:
    the leftmost start at which the pattern matches, and the first match
    there. *)
Record match_array : Type := MatchArray {
  index : nat;
  lastIndex : nat;
  groups : list (nat * jsstring)
}.

Fixpoint exec_from (r : regex) (p : nat) (s : jsstring) : option match_array :=
  match run r (MState p s []) with
  | y :: _ => Some (MatchArray p (pos y) (caps y))
  | [] =>
      match s with
      | [] => None
      | _ :: s' => exec_from r (S p) s'
      end
  end.

(** [s.match(r)]. *)
Definition String_match (s : jsstring) (r : regex) : option match_array :=
  exec_from r 0 s.

(** [m[i]] for [i >= 1]: [None] is [undefined]. *)
Fixpoint assoc (i : nat) (l : list (nat * jsstring)) : option jsstring :=
  match l with
  | [] => None
  | (j, t) :: l' => if Nat.eqb i j then Some t else assoc i l'
  end.

Definition group (m : match_array) (i : nat) : option jsstring :=
  assoc i (groups m).

(** [a || b] on values that are a string or [undefined]: the empty string
    and [undefined] are falsy. *)
Definition orElse (a : option jsstring) (b : jsstring) : jsstring :=
  match a with
  | Some (c :: t) => c :: t
  | _ => b
  end.

Definition isMatch (s : jsstring) (r : regex) : bool :=
  match String_match s r with Some _ => true | None => false end.

(** [s.replace(r, '')] without the [g] flag. *)
Definition replace_empty (s : jsstring) (r : regex) : jsstring :=
  match String_match s r with
  | Some m => firstn (index m) s ++ skipn (lastIndex m) s
  | None => s
  end.

(** [s.split(r)] for a pattern without groups (RegExp.prototype[@@split]):
    [q] is the index of [t] in the input, [skip] the number of code units of
    the current separator still to pass, [cur] the piece since the end of the
    last separator, reversed. *)
Fixpoint split_loop (r : regex) (t : jsstring) (q skip : nat) (cur : jsstring)
  : list jsstring :=
  match t with
  | [] => [rev cur]
  | c :: t' =>
      match skip with
      | S k => split_loop r t' (S q) k cur
      | O =>
          match run r (MState q t []) with
          | y :: _ =>
              match pos y - q, cur with
              | O, [] => split_loop r t' (S q) 0 [c]
              | O, _ :: _ => rev cur :: split_loop r t' (S q) 0 [c]
              | S k, _ => rev cur :: split_loop r t' (S q) k []
              end
          | [] => split_loop r t' (S q) 0 (c :: cur)
          end
      end
  end.

Definition split_re (s : jsstring) (r : regex) : list jsstring :=
  match s with
  | [] => match run r (MState 0 [] []) with [] => [[]] | _ :: _ => [] end
  | _ :: _ => split_loop r s 0 0 []
  end.

(** [run r] followed by a continuation: the states in which a pattern that
    goes on with [k] after [r] can end. *)
Definition runk (r : regex) (k : mstate -> list mstate) (x : mstate)
  : list mstate :=
  flat_map k (run r x).

(** The iteration of one class, computed along the input: the states after
    0, 1, ... code units of the longest run of the class, the longest first
    when greedy. *)
Fixpoint star_class (g : bool) (p : N -> bool) (n : nat) (s : jsstring)
  (cs : list (nat * jsstring)) : list mstate :=
  let x := MState n s cs in
  match s with
  | c :: s' =>
      if p c then
        if g then star_class g p (S n) s' cs ++ [x]
        else x :: star_class g p (S n) s' cs
      else [x]
  | [] => [x]
  end.

(** The first match of [r] at index [p] exactly, if there is one. *)
Definition match_at (r : regex) (p : nat) (s : jsstring) : option mstate :=
  hd_error (run r (MState p s [])).

End JS.

(* ================================================================== *)
(** ** Values, exceptions and [JSON.parse] *)

Module JSON.
Import JS.

(** The values the route handles: what [JSON.parse] can return, and
    [undefined].  A number carries the exact decimal value of its literal,
    [m * 10^e] with no trailing zero in [m]; rounding to binary64 and the sign
    of zero are not modelled.  An object lists its own properties in the order
    of their first definition in the text (JavaScript lists integer-like
    names first; the route reads properties by name only). *)
Inductive value : Type :=
| VUndefined
| VNull
| VBool (b : bool)
| VNum (m e : Z)
| VStr (s : jsstring)
| VArr (l : list value)
| VObj (o : list (jsstring * value)).

(** Exceptions of the run time that the route can meet. *)
Inductive exn : Type :=
| SyntaxError
| TypeError
| Error (msg : jsstring).

(** The completion of an evaluation that may throw. *)
Inductive completion (A : Type) : Type :=
| Normal (a : A)
| Throw (e : exn).
Arguments Normal {A} a.
Arguments Throw {A} e.

Definition bind {A B : Type} (c : completion A) (k : A -> completion B)
  : completion B :=
  match c with
  | Normal a => k a
  | Throw e => Throw e
  end.

(** [try { body } catch (e) { handler }]. *)
Definition try_catch {A : Type} (body : completion A)
  (handler : exn -> completion A) : completion A :=
  match body with
  | Normal a => Normal a
  | Throw e => handler e
  end.

(** [o[k] = v] on the own properties of an object under construction. *)
Fixpoint obj_set (o : list (jsstring * value)) (k : jsstring) (v : value)
  : list (jsstring * value) :=
  match o with
  | [] => [(k, v)]
  | (k', v') :: o' =>
      if str_eqb k k' then (k, v) :: o' else (k', v') :: obj_set o' k v
  end.

Fixpoint obj_get (o : list (jsstring * value)) (k : jsstring) : value :=
  match o with
  | [] => VUndefined
  | (k', v') :: o' => if str_eqb k k' then v' else obj_get o' k
  end.

Open Scope N_scope.

(** JSON white space: space, tab, line feed, carriage return. *)
Definition isJsonSpace (c : N) : bool :=
  (c =? 32) || (c =? 9) || (c =? 10) || (c =? 13).

Definition skip_ws (s : jsstring) : jsstring := dropWhile isJsonSpace s.

Definition hexval (c : N) : option N :=
  if isDigit c then Some (c - 48)
  else if (97 <=? c) && (c <=? 102) then Some (c - 87)
  else if (65 <=? c) && (c <=? 70) then Some (c - 55)
  else None.

Definition hex4 (a b c d : N) : option N :=
  match hexval a, hexval b, hexval c, hexval d with
  | Some x, Some y, Some z, Some w => Some (((x * 16 + y) * 16 + z) * 16 + w)
  | _, _, _, _ => None
  end.

Definition cons_unit (c : N) (r : option (jsstring * jsstring))
  : option (jsstring * jsstring) :=
  match r with
  | Some (str, t) => Some (c :: str, t)
  | None => None
  end.

(** The characters of a string literal after its opening quote, up to and
    including the closing one. *)
Fixpoint parse_string (s : jsstring) : option (jsstring * jsstring) :=
  match s with
  | [] => None
  | c :: t =>
      if c =? 34 then Some ([], t)
      else if c =? 92 then
        match t with
        | [] => None
        | e :: t1 =>
            if (e =? 34) || (e =? 92) || (e =? 47) then cons_unit e (parse_string t1)
            else if e =? 98 then cons_unit 8 (parse_string t1)
            else if e =? 102 then cons_unit 12 (parse_string t1)
            else if e =? 110 then cons_unit 10 (parse_string t1)
            else if e =? 114 then cons_unit 13 (parse_string t1)
            else if e =? 116 then cons_unit 9 (parse_string t1)
            else if e =? 117 then
              match t1 with
              | h1 :: h2 :: h3 :: h4 :: t2 =>
                  match hex4 h1 h2 h3 h4 with
                  | Some u => cons_unit u (parse_string t2)
                  | None => None
                  end
              | _ => None
              end
            else None
        end
      else if c <? 32 then None
      else cons_unit c (parse_string t)
  end.

Fixpoint span (p : N -> bool) (s : jsstring) : jsstring * jsstring :=
  match s with
  | [] => ([], [])
  | c :: t => if p c then let (a, b) := span p t in (c :: a, b) else ([], s)
  end.

Close Scope N_scope.

Fixpoint decimal (ds : jsstring) (acc : Z) : Z :=
  match ds with
  | [] => acc
  | d :: ds' => decimal ds' (10 * acc + (Z.of_N d - 48))%Z
  end.

(** The number with digits [ds] (most significant first) times ten to the
    [e], with the trailing zeros of [ds] moved into the exponent. *)
Definition mkNum (neg : bool) (ds : jsstring) (e : Z) : value :=
  let sig := rev (dropWhile (N.eqb 48) (rev ds)) in
  let m := decimal sig 0 in
  if (m =? 0)%Z then VNum 0 0
  else VNum (if neg then - m else m)
            (e + Z.of_nat (List.length ds - List.length sig))%Z.

(** A number literal: an optional minus sign, [0] or a digit from 1 to 9
    followed by digits, an optional fraction (a point and one digit or more)
    and an optional exponent ([e] or [E], an optional sign, one digit or
    more). *)
Definition parse_number (s : jsstring) : option (value * jsstring) :=
  let (neg, s1) :=
    match s with
    | c :: t => if N.eqb c 45 then (true, t) else (false, s)
    | [] => (false, s)
    end in
  let int :=
    match s1 with
    | c :: t =>
        if N.eqb c 48 then Some ([48%N], t)
        else if isDigit c then Some (span isDigit s1)
        else None
    | [] => None
    end in
  match int with
  | None => None
  | Some (ip, s2) =>
      let frac :=
        match s2 with
        | c :: t =>
            if N.eqb c 46 then
              match span isDigit t with
              | ([], _) => None
              | (fp, s3) => Some (fp, s3)
              end
            else Some ([], s2)
        | [] => Some ([], s2)
        end in
      match frac with
      | None => None
      | Some (fp, s3) =>
          let mant := (ip ++ fp)%list in
          let scale := (- Z.of_nat (List.length fp))%Z in
          match s3 with
          | c :: t =>
              if N.eqb c 101 || N.eqb c 69 then
                let (eneg, t1) :=
                  match t with
                  | d :: t' =>
                      if N.eqb d 45 then (true, t')
                      else if N.eqb d 43 then (false, t')
                      else (false, t)
                  | [] => (false, t)
                  end in
                match span isDigit t1 with
                | ([], _) => None
                | (ep, s4) =>
                    let ex := decimal ep 0 in
                    Some (mkNum neg mant
                            (scale + (if eneg then - ex else ex))%Z, s4)
                end
              else Some (mkNum neg mant scale, s3)
          | [] => Some (mkNum neg mant scale, s3)
          end
      end
  end.

(** Recursive descent over the JSON grammar; [n] bounds the number of nested
    and successive values still to read. *)
Fixpoint parse_value (n : nat) (s : jsstring) {struct n}
  : option (value * jsstring) :=
  match n with
  | O => None
  | S n' =>
      match skip_ws s with
      | [] => None
      | c :: t =>
          if N.eqb c 123 then
            match skip_ws t with
            | d :: t' =>
                if N.eqb d 125 then Some (VObj [], t')
                else parse_members n' (d :: t') []
            | [] => None
            end
          else if N.eqb c 91 then
            match skip_ws t with
            | d :: t' =>
                if N.eqb d 93 then Some (VArr [], t')
                else parse_elements n' (d :: t') []
            | [] => None
            end
          else if N.eqb c 34 then
            match parse_string t with
            | Some (str, t') => Some (VStr str, t')
            | None => None
            end
          else if prefixb (lit "true") (c :: t) then
            Some (VBool true, skipn 4 (c :: t))
          else if prefixb (lit "false") (c :: t) then
            Some (VBool false, skipn 5 (c :: t))
          else if prefixb (lit "null") (c :: t) then
            Some (VNull, skipn 4 (c :: t))
          else parse_number (c :: t)
      end
  end

with parse_elements (n : nat) (s : jsstring) (acc : list value) {struct n}
  : option (value * jsstring) :=
  match n with
  | O => None
  | S n' =>
      match parse_value n' s with
      | None => None
      | Some (v, t) =>
          match skip_ws t with
          | c :: t' =>
              if N.eqb c 44 then parse_elements n' t' (v :: acc)
              else if N.eqb c 93 then Some (VArr (rev (v :: acc)), t')
              else None
          | [] => None
          end
      end
  end

with parse_members (n : nat) (s : jsstring) (acc : list (jsstring * value))
  {struct n} : option (value * jsstring) :=
  match n with
  | O => None
  | S n' =>
      match skip_ws s with
      | c :: t =>
          if N.eqb c 34 then
            match parse_string t with
            | Some (k, t1) =>
                match skip_ws t1 with
                | d :: t2 =>
                    if N.eqb d 58 then
                      match parse_value n' t2 with
                      | Some (v, t3) =>
                          match skip_ws t3 with
                          | e :: t4 =>
                              if N.eqb e 44 then
                                parse_members n' t4 (obj_set acc k v)
                              else if N.eqb e 125 then
                                Some (VObj (obj_set acc k v), t4)
                              else None
                          | [] => None
                          end
                      | None => None
                      end
                    else None
                | [] => None
                end
            | None => None
            end
          else None
      | [] => None
      end
  end.

(** [JSON.parse(text)]: one value, surrounded by JSON white space only; a
    [SyntaxError] otherwise.  Reading a value takes at most two steps of the
    bound for each code unit read, so the bound below never cuts a parse
    short ([JSON_parse_bound_enough]). *)
Definition JSON_parse (text : jsstring) : completion value :=
  match parse_value (2 * List.length text + 2) text with
  | Some (v, t) =>
      match skip_ws t with
      | [] => Normal v
      | _ :: _ => Throw SyntaxError
      end
  | None => Throw SyntaxError
  end.

End JSON.

(* ================================================================== *)
(** ** The unit-system helper ([src/utils/imageUtils.ts]) *)

Module Units.
Import JS.

Inductive UnitSystem : Type := metric | imperial.

Definition newline : jsstring := [10%N].
Definition degree : jsstring := [176%N].

Definition getUnitSystemPrompt (unitSystem : UnitSystem) : jsstring :=
  match unitSystem with
  | metric =>
      (lit "Use METRIC units only:" ++ newline
       ++ lit "- Weights: grams (g), kilograms (kg)" ++ newline
       ++ lit "- Volumes: milliliters (ml), liters (L), tablespoons, teaspoons"
       ++ newline
       ++ lit "- Temperature: Celsius (" ++ degree ++ lit "C)" ++ newline
       ++ dq "- Example: '250g flour', '500ml milk', '2 tablespoons olive oil', '180"
       ++ degree ++ dq "C'")%list
  | imperial =>
      (lit "Use IMPERIAL (US) units only:" ++ newline
       ++ lit "- Weights: ounces (oz), pounds (lbs)" ++ newline
       ++ lit "- Volumes: cups, fluid ounces (fl oz), tablespoons (tbsp), teaspoons (tsp)"
       ++ newline
       ++ lit "- Temperature: Fahrenheit (" ++ degree ++ lit "F)" ++ newline
       ++ dq "- Example: '2 cups flour', '1 cup milk', '2 tablespoons olive oil', '350"
       ++ degree ++ dq "F'")%list
  end.

End Units.

(* ================================================================== *)
(** ** The recipe route ([src/app/api/generate-recipe/route.ts]) *)

Module Route.
Import JS JSON Units.

Notation "x <- c ;; k" := (bind c (fun x => k))
  (at level 61, c at next level, right associativity).

(** The object literal that [validateAndFormatRecipe] and
    [extractRecipeFromText] return: six properties; what each holds is
    decided at run time. *)
Record Recipe : Type := mkRecipe {
  title : value;
  description : value;
  ingredients : value;
  instructions : value;
  cookingTime : value;
  servings : value
}.

(** An object literal [{ quantity, unit, name }], in the order the source
    writes it. *)
Definition ingredient (quantity unit name : jsstring) : value :=
  VObj [(lit "quantity", VStr quantity); (lit "unit", VStr unit);
        (lit "name", VStr name)].

(** [v[k]] for a property name [k] that no prototype defines ([title],
    [description], [ingredients], [instructions], [cookingTime], [servings]):
    a [TypeError] on [null] and [undefined], the own property of an object,
    [undefined] on every other value. *)
Definition get (v : value) (k : string) : completion value :=
  match v with
  | VNull | VUndefined => Throw TypeError
  | VObj o => Normal (obj_get o (lit k))
  | _ => Normal VUndefined
  end.

Definition isString (v : value) : bool :=
  match v with VStr _ => true | _ => false end.
Definition isNumber (v : value) : bool :=
  match v with VNum _ _ => true | _ => false end.
Definition isArray (v : value) : bool :=
  match v with VArr _ => true | _ => false end.

Definition validateAndFormatRecipe (recipe : value) : completion Recipe :=
  let recipeObj := recipe in
  t <- get recipeObj "title" ;;
  d <- get recipeObj "description" ;;
  ing <- get recipeObj "ingredients" ;;
  ins <- get recipeObj "instructions" ;;
  ct <- get recipeObj "cookingTime" ;;
  sv <- get recipeObj "servings" ;;
  Normal {|
    title := if isString t then t else VStr (lit "Unknown Dish");
    description := if isString d then d else VStr [];
    ingredients := if isArray ing then ing else VArr [];
    instructions := if isArray ins then ins else VArr [];
    cookingTime := if isNumber ct then ct else VUndefined;
    servings := if isNumber sv then sv else VUndefined
  |}.

(* ------------------------------------------------------------------ *)
(** *** The patterns of the source *)

Definition backticks : regex := Lit "```".
Definition heading : regex :=
  Or [Seq (LitCI "Instruction") (Opt (chrCI 115));
      Seq (LitCI "Direction") (Opt (chrCI 115));
      Seq (LitCI "Step") (Opt (chrCI 115));
      LitCI "Method"].
Definition bulletClass : regex :=
  Chr (fun c => N.eqb c 45 || N.eqb c 8226 || N.eqb c 42).

(** "/```(?:json)?\s*(\{[\s\S]*\})\s*```/" *)
Definition fencedJson : regex :=
  Cat [backticks; Opt (Lit "json"); Star true space;
       Group 1 (Cat [chr 123; Star true anyUnit; chr 125]);
       Star true space; backticks].

(** "/(\{[\s\S]*\})/" *)
Definition bracedJson : regex :=
  Group 1 (Cat [chr 123; Star true anyUnit; chr 125]).

(** "/(?:Recipe|Title|Dish):\s*(.+)/i" *)
Definition labelledTitle : regex :=
  Cat [Or [LitCI "Recipe"; LitCI "Title"; LitCI "Dish"]; chr 58;
       Star true space; Group 1 (Plus true dot)].

(** "/^(.+?)(?:\n|$)/" *)
Definition firstLine : regex :=
  Cat [Bol; Group 1 (Plus false dot); Alt (chr 10) Eol].

(** "/Ingredients?:\s*([\s\S]*?)(?:\n\s*(?:Instructions?|Directions?|Steps?|Method):|$)/i" *)
Definition ingredientSectionRe : regex :=
  Cat [LitCI "Ingredient"; Opt (chrCI 115); chr 58; Star true space;
       Group 1 (Star false anyUnit);
       Alt (Cat [chr 10; Star true space; heading; chr 58]) Eol].

(** "/^[-•*]\s/", "/^\d+\.\s/", "/^[^:]+$/" *)
Definition bulleted : regex := Cat [Bol; bulletClass; space].
Definition numbered : regex := Cat [Bol; Plus true digit; chr 46; space].
Definition colonFree : regex :=
  Cat [Bol; Plus true (Chr (fun c => negb (N.eqb c 58))); Eol].

(** "/^[-•*]\s*|\d+\.\s*/" *)
Definition marker : regex :=
  Alt (Cat [Bol; bulletClass; Star true space])
      (Cat [Plus true digit; chr 46; Star true space]).

(** "/^(\d+(?:\/\d+)?)\s*(\w+)?\s*(.+)$/" *)
Definition quantified : regex :=
  Cat [Bol;
       Group 1 (Seq (Plus true digit) (Opt (Seq (chr 47) (Plus true digit))));
       Star true space; Opt (Group 2 (Plus true word)); Star true space;
       Group 3 (Plus true dot); Eol].

(** "/^(.+)$/" *)
Definition wholeLine : regex := Cat [Bol; Group 1 (Plus true dot); Eol].

(** The pattern of [instructionSection] (with the [i] flag): one of the
    headings "Instructions?", "Directions?", "Steps?", "Method", a colon,
    "\s*", and as group 1 the rest of the text, "[\s\S]" iterated greedily. *)
Definition instructionSectionRe : regex :=
  Cat [heading; chr 58; Star true space; Group 1 (Star true anyUnit)].

(** "/^\d+\.\s*/" *)
Definition stepNumber : regex :=
  Cat [Bol; Plus true digit; chr 46; Star true space].

(** "/[.!?]+/" *)
Definition sentenceEnd : regex :=
  Plus true (Chr (fun c => N.eqb c 46 || N.eqb c 33 || N.eqb c 63)).

(** "/\d+\s*(cup|tablespoon|teaspoon|pound|ounce|gram)/i" *)
Definition quantityUnit : regex :=
  Cat [Plus true digit; Star true space;
       Group 1 (Or [LitCI "cup"; LitCI "tablespoon"; LitCI "teaspoon";
                    LitCI "pound"; LitCI "ounce"; LitCI "gram"])].

(** "/(heat|cook|bake|mix|stir|add|combine)/i" *)
Definition cookingVerb : regex :=
  Group 1 (Or [LitCI "heat"; LitCI "cook"; LitCI "bake"; LitCI "mix";
               LitCI "stir"; LitCI "add"; LitCI "combine"]).

(* ------------------------------------------------------------------ *)
(** *** [extractRecipeFromText] *)

(** [a.match(r1) || a.match(r2)] *)
Definition match_or (a : jsstring) (r1 r2 : regex) : option match_array :=
  match String_match a r1 with
  | Some m => Some m
  | None => String_match a r2
  end.

(** [m[i]] used as a string: calling a method on [undefined] throws. *)
Definition group_text (m : match_array) (i : nat) : completion jsstring :=
  match group m i with
  | Some t => Normal t
  | None => Throw TypeError
  end.

Definition nonEmpty (s : jsstring) : bool :=
  match s with [] => false | _ :: _ => true end.

Definition placeholderIngredient : value :=
  ingredient (lit "1") [] (lit "Ingredients could not be extracted from the image").

Definition placeholderInstruction : value :=
  VStr (lit "Instructions could not be extracted. Please refer to the original AI response or try uploading a clearer image.").

(** The filter on the lines of the ingredient section. *)
Definition isIngredientLine (line : jsstring) : bool :=
  nonEmpty line
  && (isMatch line bulleted || isMatch line numbered || isMatch line colonFree).

(** The body of [ingredientLines.forEach] once [cleaned] is computed: what
    one line pushes. *)
Definition ingredientOfCleaned (cleaned : jsstring) : list value :=
  if nonEmpty cleaned then
    match match_or cleaned quantified wholeLine with
    | Some m =>
        [ingredient (orElse (group m 1) (lit "1"))
                    (orElse (group m 2) [])
                    (orElse (group m 3) (orElse (group m 1) cleaned))]
    | None => []
    end
  else [].

(** The body of [ingredientLines.forEach]. *)
Definition ingredientOfLine (line : jsstring) : list value :=
  let cleaned := trim (replace_empty line marker) in
  ingredientOfCleaned cleaned.

(** The body of [instructionLines.forEach]. *)
Definition instructionOfLine (line : jsstring) : list value :=
  let cleaned := trim (replace_empty line stepNumber) in
  if nonEmpty cleaned && (10 <? List.length cleaned) then [VStr cleaned]
  else [].

Definition sectionLines (section : jsstring) : list jsstring :=
  map trim (split_on 10 section).

(** The ingredient test of the sentence fall-back. *)
Definition looksLikeIngredient (sentence : jsstring) : bool :=
  includes (toLowerCase sentence) (lit "ingredient")
  || isMatch sentence quantityUnit.

Definition looksLikeInstruction (sentence : jsstring) : bool :=
  isMatch (toLowerCase sentence) cookingVerb.

(** The body of [sentences.forEach], on the two arrays it pushes to. *)
Definition classify (acc : list value * list value) (sentence : jsstring)
  : list value * list value :=
  let (ingredients, instructions) := acc in
  if looksLikeIngredient sentence then
    (ingredients ++ [ingredient (lit "1") [] sentence], instructions)%list
  else if looksLikeInstruction sentence then
    (ingredients, instructions ++ [VStr sentence])%list
  else (ingredients, instructions).

Definition sentencesOf (content : jsstring) : list jsstring :=
  filter (fun s => 20 <? List.length s)
         (map trim (split_re content sentenceEnd)).

Definition isNil {A : Type} (l : list A) : bool :=
  match l with [] => true | _ :: _ => false end.

(** The pass over the section matched by [ingredientSectionRe]: what it
    pushes to [ingredients]. *)
Definition ingredientsOfSection (content : jsstring)
  : completion (list value) :=
  match String_match content ingredientSectionRe with
  | Some ingredientSection =>
      section <- group_text ingredientSection 1 ;;
      let ingredientLines := filter isIngredientLine (sectionLines section) in
      Normal (flat_map ingredientOfLine ingredientLines)
  | None => Normal []
  end.

(** The pass over the section matched by [instructionSectionRe]: what it
    pushes to [instructions]. *)
Definition instructionsOfSection (content : jsstring)
  : completion (list value) :=
  match String_match content instructionSectionRe with
  | Some instructionSection =>
      section <- group_text instructionSection 1 ;;
      let instructionLines := filter nonEmpty (sectionLines section) in
      Normal (flat_map instructionOfLine instructionLines)
  | None => Normal []
  end.

(** The sentence fall-back, run when both arrays are still empty. *)
Definition sentenceFallback (content : jsstring)
  (lists : list value * list value) : list value * list value :=
  if isNil (fst lists) && isNil (snd lists) then
    fold_left classify (sentencesOf content) lists
  else lists.

Definition titleOf (content : jsstring) : jsstring :=
  let title0 := lit "Recipe from Image" in
  let titleMatch := match_or content labelledTitle firstLine in
  match titleMatch with
  | Some m =>
      match group m 1 with
      | Some (c :: t) => trim (c :: t)
      | _ => title0
      end
  | None => title0
  end.

Definition extractRecipeFromText (content : jsstring) : completion Recipe :=
  let description := @nil N in
  let title := titleOf content in
  ingredients1 <- ingredientsOfSection content ;;
  instructions1 <- instructionsOfSection content ;;
  let lists := sentenceFallback content (ingredients1, instructions1) in
  Normal {|
    title := VStr title;
    description :=
      VStr (orElse (Some description)
                   (lit "Recipe generated from image analysis"));
    ingredients :=
      VArr (if isNil (fst lists) then [placeholderIngredient]
            else fst lists);
    instructions :=
      VArr (if isNil (snd lists) then [placeholderInstruction]
            else snd lists);
    cookingTime := VUndefined;
    servings := VUndefined
  |}.

(* ------------------------------------------------------------------ *)
(** *** [parseRecipeFromResponse] *)

(** [content.match(fenced) || content.match(braced)], then
    [jsonMatch && jsonMatch[1]]: the captured text when it is not empty. *)
Definition jsonCandidate (content : jsstring) : option jsstring :=
  match match_or content fencedJson bracedJson with
  | Some jsonMatch =>
      match group jsonMatch 1 with
      | Some (c :: t) => Some (c :: t)
      | _ => None
      end
  | None => None
  end.

(** [JSON.parse(text)] followed by [validateAndFormatRecipe]. *)
Definition parseStructured (text : jsstring) : completion Recipe :=
  recipe <- JSON_parse text ;;
  validateAndFormatRecipe recipe.

Definition parseRecipeFromResponse (content : jsstring) : completion Recipe :=
  try_catch
    (parseStructured content)
    (fun jsonError =>
       try_catch
         (match jsonCandidate content with
          | Some text => parseStructured text
          | None => parseStructured (trim content)
          end)
         (fun extractError => extractRecipeFromText content)).

(* ------------------------------------------------------------------ *)
(** *** The handler [POST] *)

Definition RECIPE_PROMPT : jsstring := dq "
Analyze this food image and generate a complete recipe. 
IMPORTANT: Respond ONLY with a valid JSON object. Do not include any markdown formatting, explanations, or other text.

The JSON object must contain exactly these fields:
{
  'title': 'Name of the dish',
  'description': 'Brief description (1-2 sentences)',
  'ingredients': [
    {
      'name': 'ingredient name',
      'quantity': 'amount',
      'unit': 'measurement unit'
    }
  ],
  'instructions': ['step 1', 'step 2', 'step 3'],
  'cookingTime': 30,
  'servings': 4
}

Make reasonable assumptions about quantities and cooking methods based on what you can see in the image.
Response must be valid JSON only.
".

(** The request body, as [RecipeRequest] types it; a property that is absent
    reads as [undefined] ([None]). *)
Record RecipeRequest : Type := mkRequest {
  imageBase64 : option jsstring;
  unitSystem : option UnitSystem
}.

(** The argument of [openai.chat.completions.create]. *)
Record ChatRequest : Type := mkChat {
  model : jsstring;
  text : jsstring;
  image_url : jsstring;
  max_tokens : N;
  temperature : Z * Z      (* 0.3 as 3 * 10^(-1) *)
}.

Record RecipeResponse : Type := mkResponse {
  success : bool;
  recipe : option Recipe;
  error : option jsstring
}.

(** [NextResponse.json(body, { status })]; the status defaults to 200. *)
Record HttpResponse : Type := mkHttp {
  body : RecipeResponse;
  status : nat
}.

(** The external service: for a request, what evaluating
    [response.choices[0].message.content] gives, a string or [null] ([None]),
    or the exception of a failed call. *)
Definition service : Type := ChatRequest -> completion (option jsstring).

(** Computations of the handler: they may throw, and they leave the list of
    the calls made to the external service, in order. *)
Definition io (A : Type) : Type :=
  list ChatRequest -> completion A * list ChatRequest.

Definition ret {A : Type} (a : A) : io A := fun calls => (Normal a, calls).
Definition throw {A : Type} (e : exn) : io A := fun calls => (Throw e, calls).
Definition lift {A : Type} (c : completion A) : io A := fun calls => (c, calls).

Definition io_bind {A B : Type} (c : io A) (k : A -> io B) : io B :=
  fun calls =>
    match c calls with
    | (Normal a, calls') => k a calls'
    | (Throw e, calls') => (Throw e, calls')
    end.

Definition io_try {A : Type} (c : io A) (handler : exn -> io A) : io A :=
  fun calls =>
    match c calls with
    | (Normal a, calls') => (Normal a, calls')
    | (Throw e, calls') => handler e calls'
    end.

Definition create (openai : service) (req : ChatRequest)
  : io (option jsstring) :=
  fun calls => (openai req, (calls ++ [req])%list).

Notation "x <~ c ;; k" := (io_bind c (fun x => k))
  (at level 61, c at next level, right associativity).

Definition placeholderKey : jsstring := lit "your_openai_api_key_here".

(** [!process.env.OPENAI_API_KEY ||
     process.env.OPENAI_API_KEY.includes('your_openai_api_key_here')] *)
Definition keyNotConfigured (OPENAI_API_KEY : option jsstring) : bool :=
  match OPENAI_API_KEY with
  | None => true
  | Some [] => true
  | Some key => includes key placeholderKey
  end.

Definition sampleRecipe : Recipe := {|
  title := VStr (lit "Sample Recipe (API Key Required)");
  description := VStr (lit "This is a sample recipe. Please configure your OpenAI API key in .env.local to generate real recipes from images.");
  ingredients := VArr [
    VObj [(lit "name", VStr (lit "Sample ingredient 1"));
          (lit "quantity", VStr (lit "1")); (lit "unit", VStr (lit "cup"))];
    VObj [(lit "name", VStr (lit "Sample ingredient 2"));
          (lit "quantity", VStr (lit "2"));
          (lit "unit", VStr (lit "tablespoons"))];
    VObj [(lit "name", VStr (lit "Sample ingredient 3"));
          (lit "quantity", VStr (lit "1")); (lit "unit", VStr (lit "piece"))]];
  instructions := VArr [
    VStr (lit "Configure your OpenAI API key in the .env.local file");
    VStr (dq "Replace 'your_openai_api_key_here' with your actual API key");
    VStr (lit "Restart the development server");
    VStr (lit "Upload an image to generate a real recipe")];
  cookingTime := VNum 3 1;
  servings := VNum 4 0
|}.

Definition POST (OPENAI_API_KEY : option jsstring) (openai : service)
  (request_json : completion RecipeRequest) : io HttpResponse :=
  io_try
    (body <~ lift request_json ;;
     let imageBase64 := imageBase64 body in
     match imageBase64 with
     | None | Some [] =>
         ret (mkHttp (mkResponse false None (Some (lit "Image data required")))
                     400)
     | Some image =>
         if keyNotConfigured OPENAI_API_KEY then
           ret (mkHttp (mkResponse true (Some sampleRecipe) None) 200)
         else
           content <~ create openai
             {| model := lit "gpt-4o";
                text := RECIPE_PROMPT;
                image_url := (lit "data:image/jpeg;base64," ++ image)%list;
                max_tokens := 1500;
                temperature := (3, -1)%Z |} ;;
           match content with
           | None | Some [] =>
               throw (Error (lit "No content received from OpenAI"))
           | Some content =>
               recipe <~ lift (parseRecipeFromResponse content) ;;
               ret (mkHttp (mkResponse true (Some recipe) None) 200)
           end
     end)
    (fun error =>
       ret (mkHttp (mkResponse false None
                      (Some (lit "Failed to generate recipe. Please try again.")))
                   500)).

(** The module of the route.  Its top-level statement
    [const openai = new OpenAI({ apiKey: process.env.OPENAI_API_KEY })] runs
    when the module is loaded, before any request is handled; [OpenAI]
    stands for the constructor of the client library: the client it builds,
    or the exception it throws.  When it throws, the module does not load
    and [POST] never runs: the exception is outside the [try] of [POST], and
    the request gets no response from the handler. *)
Definition route (OpenAI : option jsstring -> completion service)
  (OPENAI_API_KEY : option jsstring)
  (request_json : completion RecipeRequest) : io HttpResponse :=
  openai <~ lift (OpenAI OPENAI_API_KEY) ;;
  POST OPENAI_API_KEY openai request_json.

End Route.

(* ================================================================== *)
(** ** The client side ([src/utils/imageUtils.ts], [src/utils/unitUtils.ts],
    [src/components/ImageUploadComponent.tsx], [src/app/page.tsx])

    What the browser provides (the [FileReader], the canvas, [fetch],
    [URL.createObjectURL]) is a parameter of the function that uses it. *)

Module Client.
Import JS JSON Units Route.

(** The two properties of a [File] that the code reads. *)
Record File : Type := mkFile {
  file_type : jsstring;
  file_size : N
}.

(** [{ valid: boolean; error?: string }] *)
Record Validation : Type := mkValidation {
  valid : bool;
  validation_error : option jsstring
}.

Definition validTypes : list jsstring :=
  [lit "image/jpeg"; lit "image/jpg"; lit "image/png"; lit "image/webp"].

Definition maxSize : N := 10 * 1024 * 1024.

(** [validTypes.includes(file.type)] *)
Definition Array_includes (l : list jsstring) (s : jsstring) : bool :=
  existsb (str_eqb s) l.

Definition validateImageFile (file : File) : Validation :=
  if negb (Array_includes validTypes (file_type file)) then
    {| valid := false;
       validation_error :=
         Some (lit "Please upload a valid image file (JPEG, PNG, or WebP)") |}
  else if (maxSize <? file_size file)%N then
    {| valid := false;
       validation_error := Some (lit "File size must be less than 10MB") |}
  else {| valid := true; validation_error := None |}.

(** [url.split(',')[1]]: [None] is [undefined]. *)
Definition afterFirstComma (url : jsstring) : option jsstring :=
  nth_error (split_on 44 url) 1.

(** [fileToBase64]: the promise resolves with the part of the data URL after
    its first comma; [readAsDataURL] is what the [FileReader] gives for the
    file, or its error. *)
Definition fileToBase64 (readAsDataURL : File -> completion jsstring)
  (file : File) : completion (option jsstring) :=
  base64 <- readAsDataURL file ;;
  Normal (afterFirstComma base64).

(** [compressImage], from the data URL on: [toDataURL] is what the canvas
    gives once the image is drawn (the loading, the resizing and the drawing
    are the browser's). *)
Definition compressImage (toDataURL : File -> jsstring) (file : File)
  : option jsstring :=
  let compressedBase64 := toDataURL file in
  afterFirstComma compressedBase64.

Definition metricCountries : list jsstring :=
  [lit "en-GB"; lit "en-AU"; lit "en-CA"; lit "fr"; lit "de"; lit "es";
   lit "it"; lit "pt"; lit "nl"; lit "se"; lit "no"; lit "dk"; lit "fi"].

(** [detectUserUnitSystem]: [window] is [None] where there is no window, and
    otherwise holds [navigator.language] ([None] when it is undefined). *)
Definition detectUserUnitSystem (window : option (option jsstring))
  : UnitSystem :=
  match window with
  | Some language =>
      let locale := orElse language (lit "en-US") in
      let isMetricCountry :=
        existsb (fun country =>
                   prefixb (toLowerCase country) (toLowerCase locale))
                metricCountries in
      if isMetricCountry then metric else imperial
  | None => imperial
  end.

(** The state of [ImageUploadComponent]. *)
Record UploadState : Type := mkUpload {
  preview : option jsstring;
  upload_error : option jsstring
}.

(** What [await p] gives: the value or the exception of a promise that
    settles, or nothing at all when the promise never settles; the function
    then stays at the [await]. *)
Inductive awaited (A : Type) : Type :=
| Settled (c : completion A)
| Pending.
Arguments Settled {A} c.
Arguments Pending {A}.

(** [onDrop]: the state it leaves and the calls it makes to [onImageUpload],
    in order.  [createObjectURL] and [compress] stand for
    [URL.createObjectURL] and for the promise of [compressImage]: the promise
    of [compressImage] resolves in [img.onload] only and has no [onerror],
    so for an image that does not load it never settles. *)
Definition onDrop (createObjectURL : File -> jsstring)
  (compress : File -> awaited jsstring) (acceptedFiles : list File)
  (st : UploadState) : UploadState * list jsstring :=
  match acceptedFiles with
  | [] => (st, [])
  | file :: _ =>
      let st1 := mkUpload (preview st) None in
      let validation := validateImageFile file in
      if negb (valid validation) then
        (mkUpload (preview st1)
           (Some (orElse (validation_error validation) (lit "Invalid file"))),
         [])
      else
        let previewUrl := createObjectURL file in
        let st2 := mkUpload (Some previewUrl) (upload_error st1) in
        match compress file with
        | Settled (Normal base64) => (st2, [base64])
        | Settled (Throw err) =>
            (mkUpload (preview st2)
               (Some (lit "Failed to process image. Please try again.")),
             [])
        | Pending => (st2, [])
        end
  end.

(** The state of the page. *)
Record PageState : Type := mkPage {
  page_recipe : option Recipe;
  isGenerating : bool;
  page_error : option jsstring
}.

(** [handleImageUpload]: the state of the page once the handler is done.
    [fetchRecipe] stands for the [fetch] of [/api/generate-recipe] followed by
    [response.json()]: the body received, or the exception of either. *)
Definition handleImageUpload
  (fetchRecipe : RecipeRequest -> completion RecipeResponse)
  (unitSystem : UnitSystem) (base64 : jsstring) (st : PageState) : PageState :=
  let st1 := mkPage None true None in
  let st2 :=
    match fetchRecipe (mkRequest (Some base64) (Some unitSystem)) with
    | Normal result =>
        match success result, recipe result with
        | true, Some r => mkPage (Some r) (isGenerating st1) (page_error st1)
        | _, _ =>
            mkPage (page_recipe st1) (isGenerating st1)
              (Some (orElse (error result) (lit "Failed to generate recipe")))
        end
    | Throw err =>
        mkPage (page_recipe st1) (isGenerating st1)
          (Some (lit "Network error. Please check your connection and try again."))
    end in
  mkPage (page_recipe st2) false (page_error st2).

(** The route behind [fetch]: the body of the answer of [POST] reaches the
    page as it is (the status is not read by the page).  When the module of
    the route does not load there is no answer of [POST] and no JSON body,
    and [response.json()] throws. *)
Definition viaRoute (OpenAI : option jsstring -> completion service)
  (OPENAI_API_KEY : option jsstring) (req : RecipeRequest)
  : completion RecipeResponse :=
  match fst (route OpenAI OPENAI_API_KEY (Normal req) []) with
  | Normal http => Normal (body http)
  | Throw e => Throw SyntaxError
  end.

End Client.

(* ================================================================== *)
(** ** The vocabulary of the properties

    The Data Model of the specification as predicates on results, the inputs
    of its scenarios, the families of texts the properties quantify over,
    and the notions the proofs about the matcher and the JSON reader use. *)

Module Model.
Import JS JSON Route.

(** An [Ingredient]: an object whose [name], [quantity] and [unit] are
    strings. *)
Definition isIngredient (v : value) : bool :=
  match v with
  | VObj o =>
      isString (obj_get o (lit "name"))
      && isString (obj_get o (lit "quantity"))
      && isString (obj_get o (lit "unit"))
  | _ => false
  end.

Definition isArrayOf (p : value -> bool) (v : value) : bool :=
  match v with
  | VArr l => forallb p l
  | _ => false
  end.

Definition numberOrUnset (v : value) : bool :=
  match v with
  | VNum _ _ | VUndefined => true
  | _ => false
  end.

(** A structurally valid [Recipe]: a string title, a string description,
    a sequence of [Ingredient], a sequence of strings, and numeric or unset
    [cookingTime] and [servings]. *)
Definition validRecipe (r : Recipe) : bool :=
  isString (title r) && isString (description r)
  && isArrayOf isIngredient (ingredients r)
  && isArrayOf isString (instructions r)
  && numberOrUnset (cookingTime r) && numberOrUnset (servings r).

(** The same with nothing asked of the elements of the two sequences. *)
Definition wellFormedRecipe (r : Recipe) : bool :=
  isString (title r) && isString (description r)
  && isArray (ingredients r) && isArray (instructions r)
  && numberOrUnset (cookingTime r) && numberOrUnset (servings r).

(** The groups that take part in every match of a pattern. *)
Fixpoint defines (i : nat) (r : regex) : bool :=
  match r with
  | Group j r1 => Nat.eqb i j || defines i r1
  | Seq r1 r2 => defines i r1 || defines i r2
  | Alt r1 r2 => defines i r1 && defines i r2
  | _ => false
  end.

Definition isThrow {A : Type} (c : completion A) : bool :=
  match c with Throw _ => true | Normal _ => false end.

(** The inputs of the concrete scenarios of the specification. *)
Definition omelette : jsstring :=
  dq "{'title':'Omelette','ingredients':[{'name':'egg','quantity':'2','unit':''}],'instructions':['Beat eggs','Cook in pan']}".

Definition soupJson : jsstring :=
  dq "{'title':'Soup','ingredients':[],'instructions':['Boil water']}".

Definition soupFenced : jsstring :=
  (lit "```json" ++ [10%N] ++ soupJson ++ [10%N] ++ lit "```")%list.

Definition pancakes : jsstring :=
  lit "Recipe: Pancakes

Ingredients:
- 2 cups flour
- 1 cup milk

Instructions:
1. Mix ingredients together
2. Cook on griddle until golden".

(** The second step of the chain taken alone: a candidate is found and it
    parses. *)
Definition extractionStep (content : jsstring) : completion Recipe :=
  match jsonCandidate content with
  | Some text => parseStructured text
  | None => Throw SyntaxError
  end.

(** The chain as the specification words it: when the direct parse and the
    extraction step both fail, the trimmed text is parsed, and free-text
    extraction comes last. *)
Definition retryAfterExtraction (content : jsstring) : completion Recipe :=
  try_catch (parseStructured content) (fun _ =>
  try_catch (extractionStep content) (fun _ =>
  try_catch (parseStructured (trim content)) (fun _ =>
  extractRecipeFromText content))).

(** The elements of an array; nothing for any other value. *)
Definition elements (v : value) : list value :=
  match v with VArr l => l | _ => [] end.

(** Nothing in the text parses as JSON: not the text, not the candidate the
    patterns find, not the trimmed text. *)
Definition noJson (content : jsstring) : Prop :=
  isThrow (JSON_parse content) = true
  /\ (forall text, jsonCandidate content = Some text ->
        isThrow (JSON_parse text) = true)
  /\ isThrow (JSON_parse (trim content)) = true.

(** [lines.join('\n')]. *)
Fixpoint joinLines (lines : list jsstring) : jsstring :=
  match lines with
  | [] => []
  | [l] => l
  | l :: ls => (l ++ 10%N :: joinLines ls)%list
  end.

(** A bulleted line, [- item], and a numbered line, [number. text]. *)
Definition bulletLine (item : jsstring) : jsstring := 45%N :: 32%N :: item.
Definition stepLine (step : jsstring * jsstring) : jsstring :=
  (fst step ++ 46%N :: 32%N :: snd step)%list.

(** A text on one line: not empty, no white space at either end, no line
    terminator. *)
Definition isText (s : jsstring) : bool :=
  nonEmpty s && negb (isSpace (hd 0%N s)) && negb (isSpace (hd 0%N (rev s)))
  && forallb (fun c => negb (isLineTerminator c)) s.

Definition isDigits (s : jsstring) : bool := nonEmpty s && forallb isDigit s.

(** The pattern matches at no index below [i]. *)
Definition firstMatchAt (r : regex) (s : jsstring) (i : nat) : bool :=
  forallb (fun j => match match_at r j (skipn j s) with
                    | None => true
                    | Some _ => false
                    end)
          (seq 0 i).

(** A text with a section headed [Ingredients:] made of bulleted lines and a
    section headed [Instructions:] made of numbered lines; [pre] comes before
    the first heading, [sp1], [sp2] and [sp3] are the white space after the
    first heading, before the second and after it. *)
Definition upToInstructions (pre sp1 : jsstring) (items : list jsstring)
  (sp2 : jsstring) : jsstring :=
  (pre ++ lit "Ingredients:" ++ sp1 ++ joinLines (map bulletLine items)
   ++ 10%N :: sp2)%list.

Definition sectioned (pre sp1 : jsstring) (items : list jsstring)
  (sp2 sp3 : jsstring) (steps : list (jsstring * jsstring)) : jsstring :=
  (upToInstructions pre sp1 items sp2
   ++ lit "Instructions:" ++ sp3 ++ joinLines (map stepLine steps))%list.

(** A numbered step: a number made of digits, and a text. *)
Definition stepOk (st : jsstring * jsstring) : bool :=
  isDigits (fst st) && isText (snd st).

(** The input stops the iteration of [p]: it is empty or starts outside
    the class. *)
Definition stops (p : N -> bool) (s : jsstring) : Prop :=
  match s with [] => True | c :: _ => p c = false end.

Definition anyp : N -> bool := fun _ => true.

(** [y] is reached from [x] by reading a prefix of the input of [x]. *)
Definition advances (x y : mstate) : Prop :=
  exists u, rest x = (u ++ rest y)%list /\ pos y = pos x + List.length u.

(** A parse that succeeds with some bound reads at least one code unit and
    succeeds with every bound from twice the number of code units read. *)
Definition enough {A : Type} (parse : nat -> jsstring -> option (A * jsstring))
  (s : jsstring) (r : A) (t : jsstring) : Prop :=
  List.length t < List.length s
  /\ exists k, k <= 2 * (List.length s - List.length t)
               /\ forall m, k <= m -> parse m s = Some (r, t).

(** The one request the handler sends for an image. *)
Definition chatRequestFor (image : jsstring) : ChatRequest :=
  {| model := lit "gpt-4o";
     text := RECIPE_PROMPT;
     image_url := (lit "data:image/jpeg;base64," ++ image)%list;
     max_tokens := 1500;
     temperature := (3, -1)%Z |}.

(** An external service that answers every request with no content. *)
Definition silentService : service := fun _ => Normal None.

(** A constructor of the client that throws when it is given no key and
    builds the client [openai] otherwise. *)
Definition clientOf (openai : service) (apiKey : option jsstring)
  : completion service :=
  match apiKey with
  | None =>
      Throw (Error (lit "The OPENAI_API_KEY environment variable is missing or empty"))
  | Some _ => Normal openai
  end.

(** The own properties of the object literal that [validateAndFormatRecipe]
    and [extractRecipeFromText] return, in the order of the source. *)
Definition properties (r : Recipe) : list (jsstring * value) :=
  [(lit "title", title r); (lit "description", description r);
   (lit "ingredients", ingredients r); (lit "instructions", instructions r);
   (lit "cookingTime", cookingTime r); (lit "servings", servings r)].

Definition recipeKeys : list jsstring :=
  [lit "title"; lit "description"; lit "ingredients"; lit "instructions";
   lit "cookingTime"; lit "servings"].

(** An object of the Recipe shape that carries a [unitSystem]. *)
Definition metricStew : jsstring :=
  dq "{'title':'Stew','ingredients':[],'instructions':['Simmer'],'unitSystem':'metric'}".

(** The steps of the chain of [parseRecipeFromResponse] after the first. *)
Definition secondStep (content : jsstring) : completion Recipe :=
  match jsonCandidate content with
  | Some text => parseStructured text
  | None => parseStructured (trim content)
  end.

(** [r] is the formatting of the value that [JSON.parse] reads in [text];
    its two arrays are those of the value, as parsed, when the value has
    them, and empty otherwise. *)
Definition formattedFrom (text : jsstring) (r : Recipe) : Prop :=
  exists v ing ins,
    JSON_parse text = Normal v
    /\ validateAndFormatRecipe v = Normal r
    /\ get v "ingredients" = Normal ing
    /\ get v "instructions" = Normal ins
    /\ ingredients r = (if isArray ing then ing else VArr [])
    /\ instructions r = (if isArray ins then ins else VArr []).

End Model.

(* ================================================================== *)
(** ** Further vocabulary

    Shapes of lines and texts read on the code units themselves, to which
    the patterns of the route are compared. *)

Module Notions.
Import JS JSON Units Route Client Model.

(** ASCII upper case: the letters [a-z] become [A-Z]. *)
Definition upperUnit (c : N) : N :=
  if ((97 <=? c) && (c <=? 122))%N then (c - 32)%N else c.

(** The Recipe made of defaults only. *)
Definition defaultRecipe : Recipe := {|
  title := VStr (lit "Unknown Dish");
  description := VStr [];
  ingredients := VArr [];
  instructions := VArr [];
  cookingTime := VUndefined;
  servings := VUndefined
|}.

(** A JSON value other than an object and [null]. *)
Definition isScalarOrArray (v : value) : bool :=
  match v with
  | VBool _ | VNum _ _ | VStr _ | VArr _ => true
  | _ => false
  end.

(** A quantity as [quantified] reads it: digits, or digits, a slash and
    digits. *)
Definition isQuantity (q : jsstring) : bool :=
  isDigit (hd 0%N q)
  && match dropWhile isDigit q with
     | [] => true
     | c :: den => N.eqb c 47 && isDigits den
     end.

(** The parts of [quantified]: the group of the quantity and what follows
    it. *)
Definition quantityGroup : regex :=
  Group 1 (Seq (Plus true digit) (Opt (Seq (chr 47) (Plus true digit)))).
Definition nameGroup : regex := Seq (Group 3 (Plus true dot)) Eol.
Definition unitAndName : regex :=
  Seq (Opt (Group 2 (Plus true word))) (Seq (Star true space) nameGroup).

(** One or more code units of a class. *)
Definition allOf (p : N -> bool) (s : jsstring) : bool :=
  nonEmpty s && forallb p s.
Definition onLine (c : N) : bool := negb (isLineTerminator c).

(** The three tests of the filter on the lines of the ingredient section,
    read on the line itself: a bullet and white space at the start; digits,
    a point and white space at the start; no colon at all. *)
Definition isBullet (c : N) : bool :=
  (N.eqb c 45 || N.eqb c 8226 || N.eqb c 42)%bool.
Definition bulletedLine (line : jsstring) : bool :=
  match line with
  | b :: s :: _ => isBullet b && isSpace s
  | _ => false
  end.
Definition numberedLine (line : jsstring) : bool :=
  isDigit (hd 0%N line)
  && match dropWhile isDigit line with
     | c :: s :: _ => N.eqb c 46 && isSpace s
     | _ => false
     end.
Definition notColon (c : N) : bool := negb (N.eqb c 58).
Definition colonFreeLine (line : jsstring) : bool := allOf notColon line.

(** The labels of a title, as the source spells them and in lower case. *)
Definition titleLabels : list jsstring :=
  [lit "Recipe"; lit "Title"; lit "Dish";
   lit "recipe"; lit "title"; lit "dish"].

(** A line of the instruction section without its number: the digits at
    its start, the point after them and the white space after the point. *)
Definition stripNumber (line : jsstring) : jsstring :=
  if isDigit (hd 0%N line) then
    match dropWhile isDigit line with
    | c :: u => if N.eqb c 46 then dropWhile isSpace u else line
    | [] => line
    end
  else line.

(** The marks that end a sentence. *)
Definition isEndMark (c : N) : bool :=
  (N.eqb c 46 || N.eqb c 33 || N.eqb c 63)%bool.
Definition notEndMark (c : N) : bool := negb (isEndMark c).

End Notions.

(* ================================================================== *)
(** ** Properties of the matcher *)

Module MatcherFacts.
Import JS JSON Route Model.

Lemma star_loop_invariant (P : mstate -> Prop) (step : mstate -> list mstate)
  (g : bool) :
  (forall x y, P x -> In y (step x) -> P y) ->
  forall n x y, P x -> In y (star_loop step g n x) -> P y.
Proof.
  intros Hstep n; induction n as [|n IH]; intros x y Hx Hy; simpl in Hy.
  - destruct Hy as [<-|[]]; exact Hx.
  - assert (Hmore : In y (flat_map
              (fun z => if Nat.eqb (pos z) (pos x) then []
                        else star_loop step g n z) (step x)) -> P y).
    { intros Hin. apply in_flat_map in Hin. destruct Hin as (z & Hz & Hyz).
      destruct (Nat.eqb (pos z) (pos x)); [destruct Hyz|].
      eapply IH; [eapply Hstep; eassumption | exact Hyz]. }
    destruct g.
    + apply in_app_or in Hy. destruct Hy as [Hy|[<-|[]]]; auto.
    + destruct Hy as [<-|Hy]; auto.
Qed.

(** A group that has captured stays captured. *)
Lemma run_keeps_group (i : nat) (r : regex) :
  forall x y, In y (run r x) ->
    assoc i (caps x) <> None -> assoc i (caps y) <> None.
Proof.
  induction r as [|p|r1 IH1 r2 IH2|r1 IH1 r2 IH2|g r1 IH1|j r1 IH1| |];
    intros x y Hy Hx; simpl in Hy.
  - destruct Hy as [<-|[]]; exact Hx.
  - destruct (rest x) as [|c s]; [destruct Hy|].
    destruct (p c); [|destruct Hy]. destruct Hy as [<-|[]]; exact Hx.
  - apply in_flat_map in Hy. destruct Hy as (z & Hz & Hy). eauto.
  - apply in_app_or in Hy. destruct Hy; eauto.
  - revert Hy. generalize (List.length (rest x)). intros n Hy.
    eapply (star_loop_invariant (fun z => assoc i (caps z) <> None));
      [ | exact Hx | exact Hy ].
    intros a b Ha Hb. eapply IH1; eassumption.
  - apply in_map_iff in Hy. destruct Hy as (z & <- & Hz). simpl.
    destruct (Nat.eqb i j); [discriminate|]. eauto.
  - destruct (Nat.eqb (pos x) 0); [|destruct Hy].
    destruct Hy as [<-|[]]; exact Hx.
  - destruct (rest x); [|destruct Hy]. destruct Hy as [<-|[]]; exact Hx.
Qed.

Lemma run_defines_group (i : nat) (r : regex) :
  defines i r = true ->
  forall x y, In y (run r x) -> assoc i (caps y) <> None.
Proof.
  induction r as [|p|r1 IH1 r2 IH2|r1 IH1 r2 IH2|g r1 IH1|j r1 IH1| |];
    simpl; intros Hd x y Hy; try discriminate.
  - apply in_flat_map in Hy. destruct Hy as (z & Hz & Hy).
    apply orb_true_iff in Hd. destruct Hd as [Hd|Hd].
    + eapply run_keeps_group; [exact Hy|]. eapply IH1; eassumption.
    + eapply IH2; eassumption.
  - apply andb_true_iff in Hd. destruct Hd as [Hd1 Hd2].
    apply in_app_or in Hy. destruct Hy; eauto.
  - apply in_map_iff in Hy. destruct Hy as (z & <- & Hz). simpl.
    destruct (Nat.eqb i j) eqn:E; [discriminate|].
    simpl in Hd. eapply IH1; eassumption.
Qed.

Lemma exec_from_defines (i : nat) (r : regex) :
  defines i r = true ->
  forall s p m, exec_from r p s = Some m -> group m i <> None.
Proof.
  intros Hd s; induction s as [|c s IH]; intros p m; simpl.
  - destruct (run r (MState p [] [])) as [|y l] eqn:E; [discriminate|].
    intros [= <-]. unfold group; simpl.
    apply (run_defines_group i r Hd (MState p [] [])).
    rewrite E. left; reflexivity.
  - destruct (run r (MState p (c :: s) [])) as [|y l] eqn:E; [apply IH|].
    intros [= <-]. unfold group; simpl.
    apply (run_defines_group i r Hd (MState p (c :: s) [])).
    rewrite E. left; reflexivity.
Qed.

(** A group that takes part in every match is never [undefined]. *)
Lemma group_text_defined (s : jsstring) (r : regex) (i : nat) (m : match_array) :
  defines i r = true -> String_match s r = Some m ->
  exists t, group_text m i = Normal t.
Proof.
  intros Hd Hm. unfold group_text.
  destruct (group m i) as [t|] eqn:E; [eauto|].
  exfalso. eapply exec_from_defines; eassumption.
Qed.

End MatcherFacts.

(* ================================================================== *)
(** ** First matches of iterations *)

Module StarFacts.
Import JS Model.
Local Open Scope list_scope.

Lemma flat_map_single {A B : Type} (k : A -> list B) (x : A) :
  flat_map k [x] = k x.
Proof. simpl. apply app_nil_r. Qed.

Lemma flat_map_flat_map {A B C : Type} (f : A -> list B) (g : B -> list C)
  (l : list A) :
  flat_map g (flat_map f l) = flat_map (fun a => flat_map g (f a)) l.
Proof.
  induction l as [|a l IH]; simpl; [reflexivity|].
  rewrite flat_map_app, IH. reflexivity.
Qed.

Lemma run_runk (r : regex) (x : mstate) : run r x = runk r (fun y => [y]) x.
Proof.
  unfold runk. induction (run r x) as [|y l IH]; simpl; [reflexivity|].
  rewrite <- IH. reflexivity.
Qed.

Lemma runk_Empty k x : runk Empty k x = k x.
Proof. unfold runk. simpl. apply app_nil_r. Qed.

Lemma runk_Seq r1 r2 k x : runk (Seq r1 r2) k x = runk r1 (runk r2 k) x.
Proof. unfold runk. simpl. apply flat_map_flat_map. Qed.

Lemma runk_Alt r1 r2 k x : runk (Alt r1 r2) k x = runk r1 k x ++ runk r2 k x.
Proof. unfold runk. simpl. apply flat_map_app. Qed.

Lemma runk_Chr_cons p k n c s cs :
  runk (Chr p) k (MState n (c :: s) cs)
  = if p c then k (MState (S n) s cs) else [].
Proof. unfold runk. simpl. destruct (p c); simpl; [apply app_nil_r|reflexivity]. Qed.

Lemma runk_Chr_nil p k n cs : runk (Chr p) k (MState n [] cs) = [].
Proof. reflexivity. Qed.

Lemma runk_Group i r k x :
  runk (Group i r) k x
  = runk r (fun y => k (MState (pos y) (rest y)
                          ((i, firstn (pos y - pos x) (rest x)) :: caps y))) x.
Proof. unfold runk. simpl. apply flat_map_concat_map_comp || idtac.
  induction (run r x) as [|y l IH]; simpl; [reflexivity|]. rewrite IH. reflexivity. Qed.

Lemma runk_Bol k x : runk Bol k x = if Nat.eqb (pos x) 0 then k x else [].
Proof. unfold runk. simpl. destruct (Nat.eqb (pos x) 0); simpl; [apply app_nil_r|reflexivity]. Qed.

Lemma runk_Eol_nil k n cs : runk Eol k (MState n [] cs) = k (MState n [] cs).
Proof. unfold runk. simpl. apply app_nil_r. Qed.

Lemma runk_Eol_cons k n c s cs : runk Eol k (MState n (c :: s) cs) = [].
Proof. reflexivity. Qed.

(** The iteration of a class is [star_class]. *)
Lemma star_loop_class (g : bool) (p : N -> bool) (s : jsstring) :
  forall n cs,
    star_loop (run (Chr p)) g (List.length s) (MState n s cs)
    = star_class g p n s cs.
Proof.
  induction s as [|c s IH]; intros n cs; [reflexivity|].
  cbn [List.length star_loop star_class run rest pos caps].
  destruct (p c).
  - cbn [flat_map pos]. replace (Nat.eqb (S n) n) with false
      by (symmetry; apply Nat.eqb_neq; lia).
    rewrite app_nil_r, IH. reflexivity.
  - cbn [flat_map]. destruct g; reflexivity.
Qed.

Lemma run_Star_class g p n s cs :
  run (Star g (Chr p)) (MState n s cs) = star_class g p n s cs.
Proof. apply star_loop_class. Qed.

Lemma runk_Star_class g p k n s cs :
  runk (Star g (Chr p)) k (MState n s cs) = flat_map k (star_class g p n s cs).
Proof. unfold runk. rewrite run_Star_class. reflexivity. Qed.

Lemma hd_error_app {A : Type} (l1 l2 : list A) :
  hd_error (l1 ++ l2)
  = match hd_error l1 with Some y => Some y | None => hd_error l2 end.
Proof. destruct l1; reflexivity. Qed.

Lemma hd_error_none {A : Type} (l : list A) : hd_error l = None -> l = [].
Proof. destruct l; [reflexivity|discriminate]. Qed.

(** A greedy iteration of a class takes the whole run [w] when what follows
    matches from there. *)
Lemma greedy_class_first (p : N -> bool) (k : mstate -> list mstate)
  (w : jsstring) : forall n s cs y,
  forallb p w = true -> stops p s ->
  hd_error (k (MState (n + List.length w) s cs)) = Some y ->
  hd_error (flat_map k (star_class true p n (w ++ s) cs)) = Some y.
Proof.
  induction w as [|c w IH]; intros n s cs y Hw Hs Hk.
  - rewrite Nat.add_0_r in Hk. cbn [app].
    destruct s as [|c s]; cbn [star_class].
    + rewrite flat_map_single. exact Hk.
    + cbn [stops] in Hs. rewrite Hs, flat_map_single. exact Hk.
  - cbn [forallb] in Hw. apply andb_true_iff in Hw. destruct Hw as [Hc Hw].
    cbn [app star_class]. rewrite Hc, flat_map_app, hd_error_app.
    rewrite (IH (S n) s cs y Hw Hs); [reflexivity|].
    cbn [List.length] in Hk. rewrite Nat.add_succ_r in Hk. exact Hk.
Qed.

(** A greedy iteration of [\s\S] followed by [k]: when [k] fails at every
    index after the end of [s1], the match is the first one of [k] there. *)
Lemma greedy_any_tail_fails (k : mstate -> list mstate) (s2 : jsstring) : forall n cs,
  (forall j, 0 < j <= List.length s2 ->
     k (MState (n + j) (skipn j s2) cs) = []) ->
  flat_map k (star_class true anyp n s2 cs) = k (MState n s2 cs).
Proof.
  induction s2 as [|c s2 IH]; intros n cs Hfail.
  - cbn [star_class]. apply flat_map_single.
  - cbn [star_class anyp]. rewrite flat_map_app, flat_map_single.
    rewrite IH.
    + specialize (Hfail 1). cbn [skipn List.length] in Hfail.
      rewrite Nat.add_1_r in Hfail. rewrite Hfail by lia. reflexivity.
    + intros j Hj. specialize (Hfail (S j)). cbn [skipn List.length] in Hfail.
      rewrite Nat.add_succ_r in Hfail. apply Hfail. lia.
Qed.

Lemma greedy_any_last (k : mstate -> list mstate) (s1 : jsstring) : forall n s2 cs y,
  (forall j, 0 < j <= List.length s2 ->
     k (MState (n + List.length s1 + j) (skipn j s2) cs) = []) ->
  hd_error (k (MState (n + List.length s1) s2 cs)) = Some y ->
  hd_error (flat_map k (star_class true anyp n (s1 ++ s2) cs)) = Some y.
Proof.
  induction s1 as [|c s1 IH]; intros n s2 cs y Hfail Hk.
  - cbn [app List.length] in *. rewrite Nat.add_0_r in *.
    rewrite greedy_any_tail_fails; assumption.
  - cbn [app star_class anyp]. rewrite flat_map_app, hd_error_app.
    cbn [List.length] in *. rewrite Nat.add_succ_r in *.
    rewrite (IH (S n) s2 cs y); [reflexivity| |exact Hk].
    intros j Hj. apply Hfail. exact Hj.
Qed.

(** A lazy iteration of [\s\S] followed by [k]: the first index at which [k]
    matches. *)
Lemma lazy_any_first (k : mstate -> list mstate) (s1 : jsstring) : forall n s2 cs y,
  (forall j, j < List.length s1 ->
     k (MState (n + j) (skipn j s1 ++ s2) cs) = []) ->
  hd_error (k (MState (n + List.length s1) s2 cs)) = Some y ->
  hd_error (flat_map k (star_class false anyp n (s1 ++ s2) cs)) = Some y.
Proof.
  induction s1 as [|c s1 IH]; intros n s2 cs y Hfail Hk.
  - cbn [app List.length] in *. rewrite Nat.add_0_r in *.
    destruct s2 as [|c s2]; cbn [star_class anyp].
    + rewrite flat_map_single. exact Hk.
    + cbn [flat_map]. rewrite hd_error_app, Hk. reflexivity.
  - cbn [app star_class anyp flat_map]. rewrite hd_error_app.
    pose proof (Hfail 0) as H0. cbn [skipn List.length app] in H0.
    rewrite Nat.add_0_r in H0. rewrite H0 by lia. cbn [hd_error].
    cbn [List.length] in *. rewrite Nat.add_succ_r in *.
    apply IH; [|exact Hk].
    intros j Hj. specialize (Hfail (S j)). cbn [skipn] in Hfail.
    rewrite Nat.add_succ_r in Hfail. apply Hfail. lia.
Qed.

(** The leftmost match: no match before the end of [s1], one there. *)
Lemma exec_from_leftmost (r : regex) (s1 : jsstring) : forall p s2 y,
  (forall j, j < List.length s1 ->
     match_at r (p + j) (skipn j s1 ++ s2) = None) ->
  match_at r (p + List.length s1) s2 = Some y ->
  exec_from r p (s1 ++ s2)
  = Some (MatchArray (p + List.length s1) (pos y) (caps y)).
Proof.
  unfold match_at.
  induction s1 as [|c s1 IH]; intros p s2 y Hnone Hy.
  - cbn [app List.length] in *. rewrite Nat.add_0_r in *.
    destruct s2 as [|c s2]; cbn [exec_from];
      destruct (run r _) as [|z l]; try discriminate;
      cbn [hd_error] in Hy; injection Hy as ->; reflexivity.
  - cbn [app exec_from].
    pose proof (Hnone 0) as H0. cbn [skipn List.length app] in H0.
    rewrite Nat.add_0_r in H0. rewrite (hd_error_none _ (H0 ltac:(lia))).
    cbn [List.length] in *. rewrite Nat.add_succ_r in *.
    apply IH; [|exact Hy].
    intros j Hj. specialize (Hnone (S j)). cbn [skipn] in Hnone.
    rewrite Nat.add_succ_r in Hnone. apply Hnone. lia.
Qed.

Lemma runk_Chr_true (p : N -> bool) (k : mstate -> list mstate) n c s cs :
  p c = true -> runk (Chr p) k (MState n (c :: s) cs) = k (MState (S n) s cs).
Proof. intros H. rewrite runk_Chr_cons, H. reflexivity. Qed.

Lemma runk_Chr_false (p : N -> bool) (k : mstate -> list mstate) n c s cs :
  p c = false -> runk (Chr p) k (MState n (c :: s) cs) = [].
Proof. intros H. rewrite runk_Chr_cons, H. reflexivity. Qed.

Lemma exec_from_here (r : regex) (p : nat) (s : jsstring) (y : mstate) :
  match_at r p s = Some y ->
  exec_from r p s = Some (MatchArray p (pos y) (caps y)).
Proof.
  intros H. pose proof (exec_from_leftmost r [] p s y) as L.
  cbn [List.length app] in L. rewrite Nat.add_0_r in L. apply L; [|exact H].
  intros j Hj. inversion Hj.
Qed.

(** Dropping units of an input in which none is in the class leaves an input
    that a pattern starting with the class does not match. *)
Lemma runk_Chr_skipn_fails (p : N -> bool) (k : mstate -> list mstate)
  (t : jsstring) :
  forallb (fun c => negb (p c)) t = true ->
  forall j n cs, runk (Chr p) k (MState n (skipn j t) cs) = [].
Proof.
  intros Ht j n cs.
  assert (H : forallb (fun c => negb (p c)) (skipn j t) = true).
  { revert j. induction t as [|c t IH]; intros [|j]; cbn [skipn]; auto.
    cbn [forallb] in Ht. apply andb_true_iff in Ht. apply IH, Ht. }
  destruct (skipn j t) as [|c u]; [reflexivity|].
  cbn [forallb] in H. apply andb_true_iff in H. destruct H as [H _].
  apply runk_Chr_false. destruct (p c); [discriminate|reflexivity].
Qed.

Lemma firstn_span (a : nat) (u t : jsstring) :
  firstn (a + List.length u - a) (u ++ t) = u.
Proof.
  replace (a + List.length u - a) with (List.length u + 0) by lia.
  rewrite firstn_app_2. cbn [firstn]. apply app_nil_r.
Qed.

(** One step of the matcher on a class and a code unit that are both known. *)
Ltac chr_true := rewrite runk_Chr_true by (vm_compute; reflexivity).
Ltac chr_false := rewrite runk_Chr_false by (vm_compute; reflexivity).

(** The code units of a literal. *)
Ltac lit_units w :=
  let v := eval vm_compute in (lit w) in change (lit w) with v.

End StarFacts.

Module FenceFacts.
Import JS JSON Route Model StarFacts.
Local Open Scope string_scope.
Local Open Scope list_scope.

Lemma parse_value_backtick (n : nat) (s : jsstring) :
  parse_value (S n) (96%N :: s) = None.
Proof. reflexivity. Qed.

Lemma JSON_parse_backtick (s : jsstring) :
  JSON_parse (96%N :: s) = Throw SyntaxError.
Proof.
  unfold JSON_parse. cbn [List.length].
  replace (2 * S (List.length s) + 2) with (S (2 * List.length s + 3)) by lia.
  rewrite parse_value_backtick. reflexivity.
Qed.


Lemma space_not (c d : N) : isSpace d = false -> isSpace c = true -> N.eqb d c = false.
Proof.
  intros Hd Hc. destruct (N.eqb_spec d c) as [->|]; [congruence|reflexivity].
Qed.

Lemma forallb_space_not (d : N) (w : jsstring) :
  isSpace d = false -> forallb isSpace w = true ->
  forallb (fun c => negb (N.eqb d c)) w = true.
Proof.
  intros Hd Hw. apply forallb_forall. intros c Hc.
  rewrite forallb_forall in Hw. rewrite (space_not c d Hd (Hw c Hc)). reflexivity.
Qed.

(** From the white space after the opening fence on: the group captures the
    text from the brace to the last closing brace, which is followed by
    white space and the closing fence. *)
Lemma fenced_tail (n : nat) (sp1 mid sp2 : jsstring) :
  forallb isSpace sp1 = true -> forallb isSpace sp2 = true ->
  exists n',
    hd_error
      (runk
         (Seq (Star true (Chr isSpace))
            (Seq (Group 1
                    (Seq (Chr (N.eqb 123))
                       (Seq (Star true (Chr (fun _ : N => true)))
                          (Chr (N.eqb 125)))))
               (Seq (Star true (Chr isSpace))
                  (Seq (Chr (N.eqb 96))
                     (Seq (Chr (N.eqb 96)) (Chr (N.eqb 96)))))))
         (fun y : mstate => [y])
         (MState n
            (sp1 ++ 123%N :: (mid ++ [125%N]) ++ sp2 ++ [96%N; 96%N; 96%N])
            []))
    = Some (MState n' [] [(1, 123%N :: mid ++ [125%N])]).
Proof.
  intros H1 H2. eexists.
  rewrite runk_Seq, runk_Star_class.
  apply greedy_class_first; [exact H1|reflexivity|].
  rewrite runk_Seq, runk_Group, runk_Seq. chr_true.
  rewrite runk_Seq, runk_Star_class.
  rewrite <- app_assoc. cbn [app].
  change (fun _ : N => true) with anyp.
  apply greedy_any_last.
  - intros [|j] Hj; [lia|]. cbn [skipn].
    apply runk_Chr_skipn_fails.
    rewrite forallb_app, (forallb_space_not 125 sp2 eq_refl H2). reflexivity.
  - chr_true. cbn [pos rest caps].
    replace (S (S (n + List.length sp1) + List.length mid) - (n + List.length sp1))
      with ((n + List.length sp1) + List.length (123%N :: mid ++ [125%N])
            - (n + List.length sp1))
      by (cbn [List.length]; rewrite length_app; cbn [List.length]; lia).
    change (123%N :: mid ++ 125%N :: sp2 ++ [96%N; 96%N; 96%N])
      with ((123%N :: mid) ++ 125%N :: sp2 ++ [96%N; 96%N; 96%N]).
    replace ((123%N :: mid) ++ 125%N :: sp2 ++ [96%N; 96%N; 96%N])
      with ((123%N :: mid ++ [125%N]) ++ sp2 ++ [96%N; 96%N; 96%N])
      by (cbn [app]; rewrite <- app_assoc; reflexivity).
    rewrite firstn_span.
    rewrite runk_Seq, runk_Star_class.
    apply greedy_class_first; [exact H2|reflexivity|].
    repeat first [rewrite runk_Seq | chr_true].
    reflexivity.
Qed.

Lemma fenced_first (tag sp1 mid sp2 : jsstring) :
  tag = [] \/ tag = lit "json" ->
  forallb isSpace sp1 = true -> forallb isSpace sp2 = true ->
  exists n,
    match_at fencedJson 0
      (lit "```" ++ tag ++ sp1 ++ (123%N :: mid ++ [125%N]) ++ sp2 ++ lit "```")
    = Some (MState n [] [(1, 123%N :: mid ++ [125%N])]).
Proof.
  intros Htag H1 H2. unfold match_at. rewrite run_runk.
  unfold fencedJson, backticks. 
  change (lit "```") with [96%N; 96%N; 96%N].
  change (Lit "```") with (Seq (chr 96) (Seq (chr 96) (chr 96))).
  change (Lit "json") with (Seq (chr 106) (Seq (chr 115) (Seq (chr 111) (chr 110)))).
  cbn [Cat app]. unfold chr, space, anyUnit, Opt.
  repeat first [rewrite runk_Seq | chr_true].
  rewrite runk_Alt, hd_error_app.
  destruct Htag as [->| ->].
  - cbn [app].
    assert (Hj : runk (Seq (Chr (N.eqb 106))
              (Seq (Chr (N.eqb 115)) (Seq (Chr (N.eqb 111)) (Chr (N.eqb 110)))))
              (runk
              (Seq (Star true (Chr isSpace))
                 (Seq
                    (Group 1
                       (Seq (Chr (N.eqb 123))
                          (Seq (Star true (Chr (fun _ : N => true)))
                             (Chr (N.eqb 125)))))
                    (Seq (Star true (Chr isSpace))
                       (Seq (Chr (N.eqb 96))
                          (Seq (Chr (N.eqb 96)) (Chr (N.eqb 96)))))))
              (fun y : mstate => [y]))
              (MState 3 (sp1 ++ 123%N :: (mid ++ [125%N]) ++ sp2 ++ [96%N; 96%N; 96%N]) [])
            = []).
    { rewrite runk_Seq. destruct sp1 as [|c sp1]; cbn [app].
      - chr_false. reflexivity.
      - cbn [forallb] in H1. apply andb_true_iff in H1. destruct H1 as [Hc _].
        apply runk_Chr_false. apply space_not; [reflexivity|exact Hc]. }
    rewrite Hj. cbn [hd_error]. rewrite runk_Empty.
    apply fenced_tail; assumption.
  - change (lit "json") with [106%N; 115%N; 111%N; 110%N]. cbn [app].
    do 3 (rewrite runk_Seq; chr_true). chr_true.
    destruct (fenced_tail 7 sp1 mid sp2 H1 H2) as [n' ->]. eauto.
Qed.

End FenceFacts.

(* ================================================================== *)
(** ** The bounds of the iteration and of the JSON reader *)

Module FuelFacts.
Import JS JSON Route Model MatcherFacts StarFacts.
Local Open Scope list_scope.

Lemma advances_refl (x : mstate) : advances x x.
Proof. exists []. cbn. split; [reflexivity|lia]. Qed.

Lemma advances_trans (x y z : mstate) :
  advances x y -> advances y z -> advances x z.
Proof.
  intros (u & Hu & Pu) (v & Hv & Pv). exists (u ++ v). split.
  - rewrite Hu, Hv. apply app_assoc.
  - rewrite length_app. lia.
Qed.

Lemma run_advances (r : regex) : forall x y, In y (run r x) -> advances x y.
Proof.
  induction r as [|p|r1 IH1 r2 IH2|r1 IH1 r2 IH2|g r1 IH1|j r1 IH1| |];
    intros x y Hy; simpl in Hy.
  - destruct Hy as [<-|[]]. apply advances_refl.
  - destruct (rest x) as [|c s] eqn:E; [destruct Hy|].
    destruct (p c); [|destruct Hy]. destruct Hy as [<-|[]].
    exists [c]. cbn. split; [exact E|lia].
  - apply in_flat_map in Hy. destruct Hy as (z & Hz & Hy).
    eapply advances_trans; eauto.
  - apply in_app_or in Hy. destruct Hy; eauto.
  - revert Hy. generalize (List.length (rest x)). intros n Hy.
    eapply (star_loop_invariant (fun z => advances x z));
      [ | apply advances_refl | exact Hy ].
    intros a b Ha Hb. eapply advances_trans; eauto.
  - apply in_map_iff in Hy. destruct Hy as (z & <- & Hz).
    destruct (IH1 x z Hz) as (u & Hu & Pu). exists u. cbn. auto.
  - destruct (Nat.eqb (pos x) 0); [|destruct Hy].
    destruct Hy as [<-|[]]. apply advances_refl.
  - destruct (rest x); [|destruct Hy]. destruct Hy as [<-|[]].
    apply advances_refl.
Qed.

Lemma flat_map_ext_on {A B : Type} (f g : A -> list B) (l : list A) :
  (forall a, In a l -> f a = g a) -> flat_map f l = flat_map g l.
Proof.
  induction l as [|a l IH]; intros H; [reflexivity|].
  cbn [flat_map]. rewrite (H a (or_introl eq_refl)), IH; [reflexivity|].
  intros b Hb. apply H. right; exact Hb.
Qed.

Lemma flat_map_nil {A B : Type} (f : A -> list B) (l : list A) :
  (forall a, In a l -> f a = []) -> flat_map f l = [].
Proof.
  induction l as [|a l IH]; intros H; [reflexivity|].
  cbn [flat_map]. rewrite (H a (or_introl eq_refl)), IH; [reflexivity|].
  intros b Hb. apply H. right; exact Hb.
Qed.

(** Any bound at least the length of the remaining input gives the same
    iteration: the bound [length (rest x)] that [run] gives to [star_loop]
    cuts nothing off. *)
Lemma star_loop_enough (step : mstate -> list mstate) (g : bool) :
  (forall x y, In y (step x) -> advances x y) ->
  forall n m x,
    List.length (rest x) <= n -> List.length (rest x) <= m ->
    star_loop step g n x = star_loop step g m x.
Proof.
  intros Hstep.
  assert (Hempty : forall k x, rest x = [] -> star_loop step g k x = [x]).
  { intros [|k] x Hx; [reflexivity|]. cbn [star_loop].
    rewrite flat_map_nil; [destruct g; reflexivity|].
    intros y Hy. destruct (Hstep x y Hy) as (u & Hu & Pu).
    rewrite Hx in Hu. destruct u; [|discriminate].
    cbn in Pu. replace (Nat.eqb (pos y) (pos x)) with true; [reflexivity|].
    symmetry. apply Nat.eqb_eq. lia. }
  induction n as [|n IH]; intros m x Hn Hm.
  - assert (Hx : rest x = []) by (destruct (rest x); [reflexivity|cbn in Hn; lia]).
    rewrite (Hempty m x Hx). reflexivity.
  - destruct m as [|m].
    + assert (Hx : rest x = [])
        by (destruct (rest x); [reflexivity|cbn in Hm; lia]).
      rewrite (Hempty (S n) x Hx). reflexivity.
    + cbn [star_loop].
      rewrite (flat_map_ext_on
                 (fun y => if Nat.eqb (pos y) (pos x) then []
                           else star_loop step g n y)
                 (fun y => if Nat.eqb (pos y) (pos x) then []
                           else star_loop step g m y)); [reflexivity|].
      intros y Hy. destruct (Nat.eqb_spec (pos y) (pos x)) as [|Hneq];
        [reflexivity|].
      destruct (Hstep x y Hy) as (u & Hu & Pu).
      assert (Hlen : List.length (rest x) = List.length u + List.length (rest y))
        by (rewrite Hu; apply length_app).
      destruct u as [|c u]; [cbn in Pu; lia|]. cbn [List.length] in Hlen.
      apply IH; lia.
Qed.

Lemma run_Star_enough (g : bool) (r : regex) (x : mstate) (n : nat) :
  List.length (rest x) <= n ->
  star_loop (run r) g n x = run (Star g r) x.
Proof.
  intros Hn. cbn [run]. apply star_loop_enough; [apply run_advances| |];
    [exact Hn|apply Nat.le_refl].
Qed.

Lemma dropWhile_length (p : N -> bool) (s : jsstring) :
  List.length (dropWhile p s) <= List.length s.
Proof.
  induction s as [|c s IH]; cbn [dropWhile List.length]; [lia|].
  destruct (p c); cbn [List.length]; lia.
Qed.

Lemma span_length (p : N -> bool) (s : jsstring) :
  List.length (snd (span p s)) <= List.length s.
Proof.
  induction s as [|c s IH]; cbn [span]; [cbn; lia|].
  destruct (p c); [|cbn; lia].
  destruct (span p s) as [a b]. cbn [snd List.length] in *. lia.
Qed.

Lemma cons_unit_some (c : N) (r : option (jsstring * jsstring))
  (str t : jsstring) :
  cons_unit c r = Some (str, t) -> exists str', r = Some (str', t).
Proof.
  destruct r as [[str' t']|]; cbn; [|discriminate].
  intros [= <- <-]. eauto.
Qed.

Lemma parse_string_shorter (n : nat) : forall s str t,
  List.length s <= n ->
  parse_string s = Some (str, t) -> List.length t < List.length s.
Proof.
  induction n as [|n IH]; intros s str t Hn H.
  - destruct s; [discriminate|cbn in Hn; lia].
  - destruct s as [|c s]; [discriminate|]. cbn [parse_string] in H.
    cbn [List.length] in *.
    destruct (N.eqb c 34). { injection H as <- <-. lia. }
    destruct (N.eqb c 92).
    + destruct s as [|e s1]; [discriminate|]. cbn [List.length] in *.
      repeat match type of H with
      | (if ?b then _ else _) = _ => destruct b
      end;
      try (apply cons_unit_some in H; destruct H as [str' H];
           apply IH in H; lia);
      try discriminate.
      destruct s1 as [|h1 [|h2 [|h3 [|h4 s2]]]]; try discriminate.
      destruct (hex4 h1 h2 h3 h4); [|discriminate].
      apply cons_unit_some in H. destruct H as [str' H].
      apply IH in H; cbn [List.length] in *; lia.
    + destruct (N.ltb c 32); [discriminate|].
      apply cons_unit_some in H. destruct H as [str' H].
      apply IH in H; lia.
Qed.

Lemma parse_number_shorter (s : jsstring) (v : value) (t : jsstring) :
  parse_number s = Some (v, t) -> List.length t < List.length s.
Proof.
  unfold parse_number.
  set (sign := match s with
               | c :: t0 => if N.eqb c 45 then (true, t0) else (false, s)
               | [] => (false, s)
               end).
  assert (Hsign : List.length (snd sign) <= List.length s).
  { subst sign. destruct s as [|c t0]; [cbn; lia|].
    destruct (N.eqb c 45); cbn; lia. }
  destruct sign as [neg s1]. cbn [snd] in Hsign.
  destruct s1 as [|c t1]; [discriminate|].
  set (int := if N.eqb c 48 then Some ([48%N], t1)
              else if isDigit c then Some (span isDigit (c :: t1)) else None).
  assert (Hint : forall ip s2, int = Some (ip, s2) ->
                   List.length s2 < List.length (c :: t1)).
  { subst int. intros ip s2. destruct (N.eqb c 48).
    - intros [= <- <-]. cbn; lia.
    - destruct (isDigit c) eqn:Ed; [|discriminate].
      cbn [span]. rewrite Ed. pose proof (span_length isDigit t1) as L.
      destruct (span isDigit t1) as [a b]. intros [= <- <-].
      cbn [snd List.length] in *. lia. }
  destruct int as [[ip s2]|]; [|discriminate].
  specialize (Hint ip s2 eq_refl).
  set (frac := match s2 with
               | c0 :: t0 =>
                   if N.eqb c0 46 then
                     match span isDigit t0 with
                     | ([], _) => None
                     | (fp, s3) => Some (fp, s3)
                     end
                   else Some ([], s2)
               | [] => Some ([], s2)
               end).
  assert (Hfrac : forall fp s3, frac = Some (fp, s3) ->
                    List.length s3 <= List.length s2).
  { subst frac. intros fp s3. destruct s2 as [|c0 t0].
    - intros [= <- <-]. lia.
    - destruct (N.eqb c0 46); [|intros [= <- <-]; lia].
      pose proof (span_length isDigit t0) as L.
      destruct (span isDigit t0) as [[|a fp'] b]; [discriminate|].
      intros [= <- <-]. cbn [snd List.length] in *. lia. }
  destruct frac as [[fp s3]|]; [|discriminate].
  specialize (Hfrac fp s3 eq_refl).
  destruct s3 as [|c3 t3]; [intros [= <- <-]; cbn in *; lia|].
  destruct (N.eqb c3 101 || N.eqb c3 69); [|intros [= <- <-]; lia].
  set (esign := match t3 with
                | d :: t' =>
                    if N.eqb d 45 then (true, t')
                    else if N.eqb d 43 then (false, t') else (false, t3)
                | [] => (false, t3)
                end).
  assert (Hes : List.length (snd esign) <= List.length t3).
  { subst esign. destruct t3 as [|d t']; [cbn; lia|].
    destruct (N.eqb d 45); [cbn; lia|]. destruct (N.eqb d 43); cbn; lia. }
  destruct esign as [eneg t4]. cbn [snd] in Hes.
  pose proof (span_length isDigit t4) as L.
  destruct (span isDigit t4) as [[|a ep] b]; [discriminate|].
  intros [= <- <-]. cbn [snd List.length] in *. lia.
Qed.

Lemma parse_fuel (n : nat) :
  (forall s v t, parse_value n s = Some (v, t) -> enough parse_value s v t)
  /\ (forall s acc v t, parse_elements n s acc = Some (v, t) ->
        enough (fun m s => parse_elements m s acc) s v t)
  /\ (forall s acc v t, parse_members n s acc = Some (v, t) ->
        enough (fun m s => parse_members m s acc) s v t).
Proof.
  induction n as [|n (IHv & IHe & IHm)];
    [repeat split; intros; discriminate|].
  split; [|split].
  - intros s v t H. cbn [parse_value] in H.
    destruct (skip_ws s) as [|c t0] eqn:Ews; [discriminate|].
    assert (Hws : List.length (c :: t0) <= List.length s)
      by (rewrite <- Ews; apply dropWhile_length).
    cbn [List.length] in Hws.
    assert (Hdone : List.length t < List.length (c :: t0) ->
              (forall m, parse_value (S m) s = Some (v, t)) ->
              enough parse_value s v t).
    { intros Hlt Hm. split; [cbn [List.length] in Hlt; lia|].
      exists 1. split; [cbn [List.length] in Hlt; lia|].
      intros [|m] Hle; [lia|apply Hm]. }
    destruct (N.eqb c 123) eqn:E1.
    { destruct (skip_ws t0) as [|d t'] eqn:Ews2; [discriminate|].
      assert (Hws2 : List.length (d :: t') <= List.length t0)
        by (rewrite <- Ews2; apply dropWhile_length).
      cbn [List.length] in Hws2.
      destruct (N.eqb d 125) eqn:E2.
      - injection H as <- <-. apply Hdone; [cbn [List.length]; lia|].
        intros m. cbn [parse_value]. rewrite Ews, E1, Ews2, E2. reflexivity.
      - destruct (IHm _ _ _ _ H) as (Hlt & k & Hk & Hmono).
        cbn [List.length] in Hlt, Hk.
        split; [lia|]. exists (S k). split; [lia|].
        intros [|m] Hle; [lia|]. cbn [parse_value].
        rewrite Ews, E1, Ews2, E2. apply Hmono. lia. }
    destruct (N.eqb c 91) eqn:E3.
    { destruct (skip_ws t0) as [|d t'] eqn:Ews2; [discriminate|].
      assert (Hws2 : List.length (d :: t') <= List.length t0)
        by (rewrite <- Ews2; apply dropWhile_length).
      cbn [List.length] in Hws2.
      destruct (N.eqb d 93) eqn:E2.
      - injection H as <- <-. apply Hdone; [cbn [List.length]; lia|].
        intros m. cbn [parse_value]. rewrite Ews, E1, E3, Ews2, E2.
        reflexivity.
      - destruct (IHe _ _ _ _ H) as (Hlt & k & Hk & Hmono).
        cbn [List.length] in Hlt, Hk.
        split; [lia|]. exists (S k). split; [lia|].
        intros [|m] Hle; [lia|]. cbn [parse_value].
        rewrite Ews, E1, E3, Ews2, E2. apply Hmono. lia. }
    destruct (N.eqb c 34) eqn:E4.
    { destruct (parse_string t0) as [[str t']|] eqn:Es; [|discriminate].
      injection H as <- <-.
      pose proof (parse_string_shorter _ _ _ _ (Nat.le_refl _) Es) as Hlt.
      apply Hdone; [cbn [List.length]; lia|].
      intros m. cbn [parse_value]. rewrite Ews, E1, E3, E4, Es. reflexivity. }
    destruct (prefixb (lit "true") (c :: t0)) eqn:E5.
    { injection H as <- <-. apply Hdone.
      - destruct t0 as [|? [|? [|? ?]]]; cbn; lia.
      - intros m. cbn [parse_value]. rewrite Ews, E1, E3, E4, E5. reflexivity. }
    destruct (prefixb (lit "false") (c :: t0)) eqn:E6.
    { injection H as <- <-. apply Hdone.
      - destruct t0 as [|? [|? [|? [|? ?]]]]; cbn; lia.
      - intros m. cbn [parse_value]. rewrite Ews, E1, E3, E4, E5, E6.
        reflexivity. }
    destruct (prefixb (lit "null") (c :: t0)) eqn:E7.
    { injection H as <- <-. apply Hdone.
      - destruct t0 as [|? [|? [|? ?]]]; cbn; lia.
      - intros m. cbn [parse_value]. rewrite Ews, E1, E3, E4, E5, E6, E7.
        reflexivity. }
    apply Hdone; [exact (parse_number_shorter _ _ _ H)|].
    intros m. cbn [parse_value]. rewrite Ews, E1, E3, E4, E5, E6, E7. exact H.
  - intros s acc v t H. cbn [parse_elements] in H.
    destruct (parse_value n s) as [[v1 t1]|] eqn:Ev; [|discriminate].
    destruct (IHv _ _ _ Ev) as (Hlt1 & k1 & Hk1 & Hmono1).
    destruct (skip_ws t1) as [|c t'] eqn:Ews; [discriminate|].
    assert (Hws : List.length (c :: t') <= List.length t1)
      by (rewrite <- Ews; apply dropWhile_length).
    cbn [List.length] in Hws.
    destruct (N.eqb c 44) eqn:E1.
    + destruct (IHe _ _ _ _ H) as (Hlt2 & k2 & Hk2 & Hmono2).
      split; [lia|]. exists (S (Nat.max k1 k2)). split; [lia|].
      intros [|m] Hle; [lia|]. cbn [parse_elements].
      rewrite (Hmono1 m) by lia. rewrite Ews, E1. apply Hmono2. lia.
    + destruct (N.eqb c 93) eqn:E2; [|discriminate].
      injection H as <- <-. split; [lia|]. exists (S k1). split; [lia|].
      intros [|m] Hle; [lia|]. cbn [parse_elements].
      rewrite (Hmono1 m) by lia. rewrite Ews, E1, E2. reflexivity.
  - intros s acc v t H. cbn [parse_members] in H.
    destruct (skip_ws s) as [|c t0] eqn:Ews; [discriminate|].
    assert (Hws : List.length (c :: t0) <= List.length s)
      by (rewrite <- Ews; apply dropWhile_length).
    cbn [List.length] in Hws.
    destruct (N.eqb c 34) eqn:E1; [|discriminate].
    destruct (parse_string t0) as [[key t1]|] eqn:Es; [|discriminate].
    pose proof (parse_string_shorter _ _ _ _ (Nat.le_refl _) Es) as Hlts.
    destruct (skip_ws t1) as [|d t2] eqn:Ews1; [discriminate|].
    assert (Hws1 : List.length (d :: t2) <= List.length t1)
      by (rewrite <- Ews1; apply dropWhile_length).
    cbn [List.length] in Hws1.
    destruct (N.eqb d 58) eqn:E2; [|discriminate].
    destruct (parse_value n t2) as [[v1 t3]|] eqn:Ev; [|discriminate].
    destruct (IHv _ _ _ Ev) as (Hlt1 & k1 & Hk1 & Hmono1).
    destruct (skip_ws t3) as [|e t4] eqn:Ews3; [discriminate|].
    assert (Hws3 : List.length (e :: t4) <= List.length t3)
      by (rewrite <- Ews3; apply dropWhile_length).
    cbn [List.length] in Hws3.
    destruct (N.eqb e 44) eqn:E3.
    + destruct (IHm _ _ _ _ H) as (Hlt2 & k2 & Hk2 & Hmono2).
      split; [lia|]. exists (S (Nat.max k1 k2)). split; [lia|].
      intros [|m] Hle; [lia|]. cbn [parse_members].
      rewrite Ews, E1, Es, Ews1, E2. rewrite (Hmono1 m) by lia.
      rewrite Ews3, E3. apply Hmono2. lia.
    + destruct (N.eqb e 125) eqn:E4; [|discriminate].
      injection H as <- <-. split; [lia|]. exists (S k1). split; [lia|].
      intros [|m] Hle; [lia|]. cbn [parse_members].
      rewrite Ews, E1, Es, Ews1, E2. rewrite (Hmono1 m) by lia.
      rewrite Ews3, E3, E4. reflexivity.
Qed.

(** The bound of [JSON_parse] is never the cause of a failure: what a parse
    with any bound reads, the parse with the bound of [JSON_parse] reads. *)
Theorem JSON_parse_bound_enough (n : nat) (text : jsstring) (v : value)
  (t : jsstring) :
  parse_value n text = Some (v, t) ->
  parse_value (2 * List.length text + 2) text = Some (v, t).
Proof.
  intros H. destruct (proj1 (parse_fuel n) _ _ _ H) as (_ & k & Hk & Hmono).
  apply Hmono. lia.
Qed.

End FuelFacts.

(* ================================================================== *)
(** ** Sections of bulleted and numbered lines *)

Module LineFacts.
Import JS JSON Route Model StarFacts.
Local Open Scope string_scope.
Local Open Scope list_scope.

Lemma dropWhile_stops (p : N -> bool) (s : jsstring) :
  stops (fun c => p c) s -> dropWhile p s = s.
Proof. destruct s as [|c s]; cbn; [reflexivity|]. intros ->. reflexivity. Qed.

(** [trim] leaves a text without white space at either end as it is. *)
Lemma trim_fixed (s : jsstring) :
  isSpace (hd 0%N s) = false -> isSpace (hd 0%N (rev s)) = false ->
  trim s = s.
Proof.
  intros H1 H2. unfold trim, trimStart, trimEnd.
  rewrite (dropWhile_stops isSpace s) by (destruct s; [exact I|exact H1]).
  rewrite (dropWhile_stops isSpace (rev s))
    by (destruct (rev s); [exact I|exact H2]).
  apply rev_involutive.
Qed.

Lemma isText_facts (s : jsstring) :
  isText s = true ->
  s <> [] /\ isSpace (hd 0%N s) = false /\ isSpace (hd 0%N (rev s)) = false
  /\ forallb (fun c => negb (isLineTerminator c)) s = true.
Proof.
  unfold isText. intros H.
  repeat (apply andb_true_iff in H; destruct H as [H ?]).
  repeat split; try assumption.
  - destruct s; [discriminate|congruence].
  - destruct (isSpace (hd 0%N s)); [discriminate|reflexivity].
  - destruct (isSpace (hd 0%N (rev s))); [discriminate|reflexivity].
Qed.

Lemma hd_rev_app (s t : jsstring) :
  s <> [] -> hd 0%N (rev s ++ t) = hd 0%N (rev s).
Proof.
  intros Hs. destruct (rev s) as [|c u] eqn:E; [|reflexivity].
  apply (f_equal (@rev N)) in E. rewrite rev_involutive in E. contradiction.
Qed.

Lemma isText_trim (s : jsstring) : isText s = true -> trim s = s.
Proof.
  intros H. destruct (isText_facts s H) as (_ & H1 & H2 & _).
  apply trim_fixed; assumption.
Qed.

Lemma no_linefeed (s : jsstring) :
  forallb (fun c => negb (isLineTerminator c)) s = true -> ~ In 10%N s.
Proof.
  intros H Hin. rewrite forallb_forall in H. specialize (H _ Hin).
  discriminate.
Qed.

Lemma trim_bulletLine (item : jsstring) :
  isText item = true -> trim (bulletLine item) = bulletLine item.
Proof.
  intros H. destruct (isText_facts item H) as (Hne & H1 & H2 & _).
  apply trim_fixed; [reflexivity|].
  unfold bulletLine. cbn [rev]. rewrite <- app_assoc.
  rewrite hd_rev_app; assumption.
Qed.

Lemma digit_not_space (c : N) : isDigit c = true -> isSpace c = false.
Proof.
  unfold isDigit. intros H. apply andb_true_iff in H. destruct H as [H1 H2].
  apply N.leb_le in H1, H2.
  unfold isSpace, isLineTerminator.
  repeat match goal with
  | |- context [N.eqb c ?k] =>
      replace (N.eqb c k) with false by (symmetry; apply N.eqb_neq; lia)
  end.
  replace (N.leb 8192 c) with false by (symmetry; apply N.leb_gt; lia).
  reflexivity.
Qed.

Lemma isDigits_facts (s : jsstring) :
  isDigits s = true ->
  exists d ds, s = d :: ds /\ isDigit d = true /\ forallb isDigit ds = true.
Proof.
  unfold isDigits. destruct s as [|d ds]; [discriminate|]. cbn [nonEmpty forallb andb].
  intros H. apply andb_true_iff in H. destruct H. eauto.
Qed.

Lemma trim_stepLine (step : jsstring * jsstring) :
  isDigits (fst step) = true -> isText (snd step) = true ->
  trim (stepLine step) = stepLine step.
Proof.
  destruct step as [num text]. cbn [fst snd]. intros Hn Ht.
  destruct (isDigits_facts num Hn) as (d & ds & -> & Hd & _).
  destruct (isText_facts text Ht) as (Hne & H1 & H2 & _).
  apply trim_fixed.
  - cbn. apply digit_not_space, Hd.
  - unfold stepLine. cbn [fst snd].
    replace ((d :: ds) ++ 46%N :: 32%N :: text)
      with (((d :: ds) ++ [46%N; 32%N]) ++ text)
      by (rewrite <- app_assoc; reflexivity).
    rewrite rev_app_distr, hd_rev_app; assumption.
Qed.

(** Splitting at line feeds what [joinLines] has joined. *)
Lemma split_on_line (l : jsstring) :
  ~ In 10%N l -> split_on 10 l = [l].
Proof.
  induction l as [|c l IH]; intros H; [reflexivity|].
  cbn [split_on]. destruct (N.eqb_spec c 10) as [->|Hc].
  - exfalso. apply H. left; reflexivity.
  - rewrite IH; [reflexivity|]. intros Hin. apply H. right; exact Hin.
Qed.

Lemma split_on_line_more (l t : jsstring) :
  ~ In 10%N l -> split_on 10 (l ++ 10%N :: t) = l :: split_on 10 t.
Proof.
  induction l as [|c l IH]; intros H; [reflexivity|].
  cbn [app split_on]. destruct (N.eqb_spec c 10) as [->|Hc].
  - exfalso. apply H. left; reflexivity.
  - rewrite IH; [reflexivity|]. intros Hin. apply H. right; exact Hin.
Qed.

Lemma split_on_joinLines (lines : list jsstring) :
  lines <> [] -> (forall l, In l lines -> ~ In 10%N l) ->
  split_on 10 (joinLines lines) = lines.
Proof.
  induction lines as [|l ls IH]; intros Hne Hl; [congruence|].
  destruct ls as [|l' ls].
  - cbn [joinLines]. apply split_on_line, Hl. left; reflexivity.
  - change (joinLines (l :: l' :: ls)) with (l ++ 10%N :: joinLines (l' :: ls)).
    rewrite split_on_line_more by (apply Hl; left; reflexivity).
    rewrite IH; [reflexivity|discriminate|].
    intros l0 H0. apply Hl. right; exact H0.
Qed.

Lemma isIngredientLine_bullet (item : jsstring) :
  isIngredientLine (bulletLine item) = true.
Proof. reflexivity. Qed.

(** On a bulleted line the marker pattern removes the dash and the space. *)
Lemma replace_marker_bullet (item : jsstring) :
  isText item = true -> replace_empty (bulletLine item) marker = item.
Proof.
  intros H. destruct (isText_facts item H) as (Hne & H1 & _).
  assert (Hm : match_at marker 0 (bulletLine item) = Some (MState 2 item [])).
  { unfold match_at, marker, bulletLine, bulletClass, space.
    rewrite run_runk. cbn [Cat]. rewrite runk_Alt, hd_error_app.
    rewrite runk_Seq, runk_Bol. cbn [pos Nat.eqb].
    rewrite runk_Seq. chr_true. rewrite runk_Star_class.
    change (32%N :: item) with ([32%N] ++ item).
    rewrite (greedy_class_first isSpace (fun y => [y]) [32%N] 1 item []
               (MState 2 item [])); try reflexivity.
    destruct item; [exact I|exact H1]. }
  unfold replace_empty, String_match. rewrite (exec_from_here _ _ _ _ Hm).
  reflexivity.
Qed.

Lemma ingredientOfLine_bullet (item : jsstring) :
  isText item = true ->
  ingredientOfLine (bulletLine item) = ingredientOfCleaned item.
Proof.
  intros H. unfold ingredientOfLine.
  rewrite (replace_marker_bullet item H), (isText_trim item H). reflexivity.
Qed.

(** A text on one line is matched by the pattern of a whole line, whose
    group is the line. *)
Lemma wholeLine_matches (s : jsstring) :
  s <> [] -> forallb (fun c => negb (isLineTerminator c)) s = true ->
  match_at wholeLine 0 s = Some (MState (List.length s) [] [(1, s)]).
Proof.
  intros Hne Hdot. destruct s as [|c w]; [congruence|].
  cbn [forallb] in Hdot. apply andb_true_iff in Hdot. destruct Hdot as [Hc Hw].
  unfold match_at, wholeLine, dot, Plus. rewrite run_runk. cbn [Cat].
  rewrite runk_Seq, runk_Bol. cbn [pos Nat.eqb].
  rewrite runk_Seq, runk_Group, runk_Seq.
  rewrite runk_Chr_true by exact Hc.
  rewrite runk_Star_class. rewrite <- (app_nil_r w) at 1.
  apply greedy_class_first; [exact Hw|exact I|].
  cbn [pos rest caps]. rewrite runk_Eol_nil. cbn [hd_error].
  rewrite Nat.sub_0_r. cbn [Nat.add firstn List.length].
  rewrite firstn_all. reflexivity.
Qed.

Lemma ingredientOfCleaned_text (item : jsstring) :
  isText item = true -> exists v, ingredientOfCleaned item = [v].
Proof.
  intros H. destruct (isText_facts item H) as (Hne & _ & _ & Hdot).
  unfold ingredientOfCleaned.
  destruct item as [|c w]; [congruence|]. cbn [nonEmpty].
  unfold match_or.
  destruct (String_match (c :: w) quantified) as [m|]; [eauto|].
  pose proof (wholeLine_matches (c :: w) Hne Hdot) as Hy.
  unfold String_match. rewrite (exec_from_here _ _ _ _ Hy). eauto.
Qed.

(** On a numbered line the number pattern removes the number, the point and
    the space. *)
Lemma replace_number_step (num text : jsstring) :
  isDigits num = true -> isText text = true ->
  replace_empty (stepLine (num, text)) stepNumber = text.
Proof.
  intros Hn Ht.
  destruct (isDigits_facts num Hn) as (d & ds & Enum & Hd & Hds).
  destruct (isText_facts text Ht) as (Hne & H1 & _).
  assert (Hm : match_at stepNumber 0 (stepLine (num, text))
               = Some (MState (List.length num + 2) text [])).
  { rewrite Enum.
    unfold match_at, stepNumber, stepLine, digit, space, Plus, chr.
    cbn [fst snd app]. rewrite run_runk. cbn [Cat].
    rewrite runk_Seq, runk_Bol. cbn [pos Nat.eqb].
    rewrite !runk_Seq. rewrite runk_Chr_true by exact Hd.
    rewrite runk_Star_class.
    apply greedy_class_first; [exact Hds|reflexivity|].
    rewrite runk_Seq. chr_true. rewrite runk_Star_class.
    change (32%N :: text) with ([32%N] ++ text).
    rewrite (greedy_class_first isSpace (fun y => [y]) [32%N] _ text []
               (MState (List.length (d :: ds) + 2) text [])); try reflexivity.
    - destruct text; [exact I|exact H1].
    - cbn [List.length hd_error].
      replace (S (1 + List.length ds) + 1) with (S (List.length ds) + 2) by lia.
      reflexivity. }
  unfold replace_empty, String_match. rewrite (exec_from_here _ _ _ _ Hm).
  cbn [index lastIndex firstn app pos]. unfold stepLine. cbn [fst snd].
  rewrite skipn_app.
  rewrite (skipn_all2 num) by lia.
  replace (List.length num + 2 - List.length num) with 2 by lia.
  reflexivity.
Qed.

Lemma instructionOfLine_step (num text : jsstring) :
  isDigits num = true -> isText text = true ->
  instructionOfLine (stepLine (num, text))
  = if (10 <? List.length text)%nat then [VStr text] else [].
Proof.
  intros Hn Ht. unfold instructionOfLine.
  rewrite (replace_number_step num text Hn Ht), (isText_trim text Ht).
  destruct (isText_facts text Ht) as (Hne & _).
  destruct text; [congruence|]. reflexivity.
Qed.

End LineFacts.

Module SectionFacts.
Import JS JSON Route Model StarFacts LineFacts.
Local Open Scope string_scope.
Local Open Scope list_scope.

Lemma firstMatchAt_spec (r : regex) (s : jsstring) (i : nat) :
  firstMatchAt r s i = true ->
  forall j, j < i -> match_at r j (skipn j s) = None.
Proof.
  unfold firstMatchAt. intros H j Hj. rewrite forallb_forall in H.
  specialize (H j). rewrite in_seq in H.
  destruct (match_at r j (skipn j s)); [|reflexivity].
  discriminate H. lia.
Qed.

(** The match of a pattern that matches nowhere in [s1 ++ s2] before the end
    of [s1] and matches there. *)
Lemma leftmost_match (r : regex) (s1 s2 : jsstring) (y : mstate) :
  firstMatchAt r (s1 ++ s2) (List.length s1) = true ->
  match_at r (List.length s1) s2 = Some y ->
  String_match (s1 ++ s2) r
  = Some (MatchArray (List.length s1) (pos y) (caps y)).
Proof.
  intros Hfirst Hy. unfold String_match.
  apply (exec_from_leftmost r s1 0 s2 y); [|exact Hy].
  intros j Hj. cbn [Nat.add].
  rewrite <- (firstMatchAt_spec r (s1 ++ s2) _ Hfirst j Hj).
  rewrite skipn_app. replace (j - List.length s1) with 0 by lia.
  reflexivity.
Qed.

Lemma skipn_in (l : jsstring) : forall j, j < List.length l ->
  exists c t, skipn j l = c :: t /\ In c l.
Proof.
  induction l as [|a l IH]; intros j Hj; [inversion Hj|].
  destruct j as [|j].
  - exists a, l. split; [reflexivity|left; reflexivity].
  - cbn [List.length] in Hj. destruct (IH j ltac:(lia)) as (c & t & E & Hin).
    exists c, t. split; [exact E|right; exact Hin].
Qed.

Lemma bullets_start (items : list jsstring) :
  items <> [] ->
  exists t, joinLines (map bulletLine items) = 45%N :: 32%N :: t.
Proof.
  destruct items as [|item [|item' rest]]; [congruence| |]; intros _.
  - exists item. reflexivity.
  - eexists. change (joinLines (map bulletLine (item :: item' :: rest)))
      with (bulletLine item ++ 10%N :: joinLines (map bulletLine (item' :: rest))).
    reflexivity.
Qed.

Lemma bulletLine_no_linefeed (item : jsstring) :
  isText item = true -> ~ In 10%N (bulletLine item).
Proof.
  intros H [E|[E|Hin]]; try discriminate.
  destruct (isText_facts item H) as (_ & _ & _ & Hdot).
  exact (no_linefeed item Hdot Hin).
Qed.

(** Inside the bulleted lines every code unit is either no line feed or a
    line feed followed by the dash of the next line. *)
Lemma bullets_inside (items : list jsstring) :
  forallb isText items = true ->
  forall j s2, j < List.length (joinLines (map bulletLine items)) ->
    exists c t, skipn j (joinLines (map bulletLine items)) ++ s2 = c :: t
                /\ (c <> 10%N \/ exists t', t = 45%N :: t').
Proof.
  induction items as [|item items IH]; intros Hitems j s2 Hj;
    [inversion Hj|].
  cbn [forallb] in Hitems. apply andb_true_iff in Hitems.
  destruct Hitems as [Hitem Hitems].
  pose proof (bulletLine_no_linefeed item Hitem) as Hno.
  destruct items as [|item' rest].
  - cbn [map joinLines] in *.
    destruct (skipn_in _ j Hj) as (c & t & E & Hin).
    exists c, (t ++ s2). rewrite E. split; [reflexivity|].
    left. intros ->. exact (Hno Hin).
  - change (joinLines (map bulletLine (item :: item' :: rest)))
      with (bulletLine item ++ 10%N :: joinLines (map bulletLine (item' :: rest)))
      in *.
    rewrite length_app in Hj. cbn [List.length] in Hj.
    rewrite skipn_app.
    destruct (Nat.lt_ge_cases j (List.length (bulletLine item))) as [Hlt|Hge].
    + destruct (skipn_in _ j Hlt) as (c & t & E & Hin).
      rewrite E. cbn [app]. eexists c, _. split; [reflexivity|].
      left. intros ->. exact (Hno Hin).
    + rewrite (skipn_all2 (bulletLine item)) by lia. cbn [app].
      destruct (j - List.length (bulletLine item)) as [|j'] eqn:Ej.
      * cbn [skipn app]. eexists 10%N, _. split; [reflexivity|].
        right. destruct (bullets_start (item' :: rest)) as [t Ht];
          [discriminate|].
        rewrite Ht. cbn [app]. eauto.
      * cbn [skipn]. apply IH; [exact Hitems|]. lia.
Qed.

(** The headings of the instruction section do not match at a dash. *)
Lemma heading_fails_at_dash (k : mstate -> list mstate) (n : nat)
  (t : jsstring) (cs : list (nat * jsstring)) :
  runk heading k (MState n (45%N :: t) cs) = [].
Proof.
  unfold heading, LitCI.
  lit_units "Instruction". lit_units "Direction". lit_units "Step".
  lit_units "Method". cbn [Or map Cat]. unfold chrCI.
  rewrite !runk_Alt. repeat rewrite runk_Seq.
  repeat chr_false. reflexivity.
Qed.

(** The heading [Instructions] is matched by the first alternative. *)
Lemma heading_matches_Instructions (k : mstate -> list mstate) (n : nat)
  (t : jsstring) (cs : list (nat * jsstring)) (y : mstate) :
  hd_error (k (MState (n + 12) t cs)) = Some y ->
  hd_error (runk heading k (MState n (lit "Instructions" ++ t) cs)) = Some y.
Proof.
  intros Hk. unfold heading, LitCI.
  lit_units "Instruction". lit_units "Direction". lit_units "Step".
  lit_units "Method". lit_units "Instructions".
  cbn [Or map Cat app]. unfold chrCI, Opt.
  rewrite runk_Alt, hd_error_app.
  repeat first [rewrite runk_Seq | chr_true].
  rewrite runk_Alt, hd_error_app. chr_true.
  replace (n + 12) with (S (S (S (S (S (S (S (S (S (S (S (S n))))))))))))
    in Hk by lia.
  rewrite Hk. reflexivity.
Qed.

(** From the white space after [Ingredients:] on: the lazy group stops at
    the line feed that precedes the heading of the instructions, and
    captures the bulleted lines. *)
Lemma ingredient_section_tail (n : nat) (sp1 : jsstring)
  (items : list jsstring) (sp2 tail : jsstring) :
  items <> [] -> forallb isText items = true ->
  forallb isSpace sp1 = true -> forallb isSpace sp2 = true ->
  exists n',
    hd_error
      (runk
         (Seq (Star true (Chr isSpace))
            (Seq (Group 1 (Star false (Chr anyp)))
               (Alt (Seq (Chr (N.eqb 10))
                       (Seq (Star true (Chr isSpace))
                          (Seq heading (Chr (N.eqb 58)))))
                    Eol)))
         (fun y => [y])
         (MState n
            (sp1 ++ joinLines (map bulletLine items)
             ++ 10%N :: sp2 ++ lit "Instructions:" ++ tail) []))
    = Some (MState n' tail [(1, joinLines (map bulletLine items))]).
Proof.
  intros Hne Hitems H1 H2. eexists.
  rewrite runk_Seq, runk_Star_class.
  apply greedy_class_first; [exact H1| |].
  { destruct (bullets_start items Hne) as [t ->]. reflexivity. }
  rewrite runk_Seq, runk_Group, runk_Star_class.
  apply lazy_any_first.
  - intros j Hj. cbn [pos rest caps].
    destruct (bullets_inside items Hitems j
                (10%N :: sp2 ++ lit "Instructions:" ++ tail) Hj)
      as (c & t & E & Hc).
    rewrite E. rewrite runk_Alt, runk_Eol_cons, app_nil_r, runk_Seq.
    destruct (N.eqb_spec 10 c) as [<-|Hneq].
    + destruct Hc as [Hc|[t' ->]]; [congruence|].
      rewrite runk_Chr_true by reflexivity.
      rewrite runk_Seq, runk_Star_class. cbn [star_class].
      change (isSpace 45) with false. cbv iota.
      rewrite flat_map_single, runk_Seq. apply heading_fails_at_dash.
    + apply runk_Chr_false. apply N.eqb_neq. exact Hneq.
  - cbn [pos rest caps]. rewrite firstn_span.
    rewrite runk_Alt, hd_error_app, runk_Seq. chr_true.
    rewrite runk_Seq, runk_Star_class.
    erewrite greedy_class_first; [reflexivity|exact H2|reflexivity|].
    rewrite runk_Seq.
    change (lit "Instructions:" ++ tail)
      with (lit "Instructions" ++ 58%N :: tail).
    apply heading_matches_Instructions. chr_true. reflexivity.
Qed.

Lemma ingredient_section_at (n : nat) (sp1 : jsstring)
  (items : list jsstring) (sp2 tail : jsstring) :
  items <> [] -> forallb isText items = true ->
  forallb isSpace sp1 = true -> forallb isSpace sp2 = true ->
  exists n',
    match_at ingredientSectionRe n
      (lit "Ingredients:" ++ sp1 ++ joinLines (map bulletLine items)
       ++ 10%N :: sp2 ++ lit "Instructions:" ++ tail)
    = Some (MState n' tail [(1, joinLines (map bulletLine items))]).
Proof.
  intros Hne Hitems H1 H2.
  unfold match_at, ingredientSectionRe, LitCI.
  lit_units "Ingredient". lit_units "Ingredients:".
  rewrite run_runk. cbn [Cat map app]. unfold chrCI, chr, Opt, space, anyUnit.
  repeat first [rewrite runk_Seq | chr_true].
  rewrite runk_Alt, hd_error_app. chr_true. rewrite runk_Seq. chr_true.
  destruct (ingredient_section_tail (12 + n) sp1 items sp2 tail
              Hne Hitems H1 H2) as [n' Hn'].
  cbn [Nat.add] in Hn'. change (fun _ : N => true) with anyp.
  rewrite Hn'. eauto.
Qed.

Lemma forallb_anyp (s : jsstring) : forallb anyp s = true.
Proof. induction s; [reflexivity|exact IHs]. Qed.

Lemma steps_start (steps : list (jsstring * jsstring)) :
  steps <> [] ->
  forallb stepOk steps = true ->
  exists d t, joinLines (map stepLine steps) = d :: t /\ isDigit d = true.
Proof.
  destruct steps as [|[num text] rest]; [congruence|]. intros _ H.
  cbn [forallb fst snd] in H. apply andb_true_iff in H. destruct H as [H _].
  apply andb_true_iff in H. destruct H as [Hn _].
  destruct (isDigits_facts num Hn) as (d & ds & -> & Hd & _).
  destruct rest as [|st rest].
  - cbn. eauto.
  - change (joinLines (map stepLine ((d :: ds, text) :: st :: rest)))
      with (stepLine (d :: ds, text) ++ 10%N :: joinLines (map stepLine (st :: rest))).
    cbn. eauto.
Qed.

(** The instruction section: the heading, the colon, white space, and the
    rest of the text as group 1. *)
Lemma instruction_section_at (n : nat) (sp3 : jsstring)
  (steps : list (jsstring * jsstring)) :
  steps <> [] ->
  forallb stepOk steps = true ->
  forallb isSpace sp3 = true ->
  exists n',
    match_at instructionSectionRe n
      (lit "Instructions:" ++ sp3 ++ joinLines (map stepLine steps))
    = Some (MState n' [] [(1, joinLines (map stepLine steps))]).
Proof.
  intros Hne Hsteps H3.
  destruct (steps_start steps Hne Hsteps) as (d & t & E & Hd).
  unfold match_at, instructionSectionRe. rewrite run_runk. cbn [Cat].
  unfold chr, space, anyUnit. eexists.
  rewrite runk_Seq.
  change (lit "Instructions:" ++ sp3 ++ joinLines (map stepLine steps))
    with (lit "Instructions" ++ 58%N :: sp3 ++ joinLines (map stepLine steps)).
  apply heading_matches_Instructions.
  rewrite runk_Seq. chr_true. rewrite runk_Seq, runk_Star_class.
  apply greedy_class_first; [exact H3| |].
  { rewrite E. apply digit_not_space, Hd. }
  rewrite runk_Group, runk_Star_class.
  rewrite <- (app_nil_r (joinLines (map stepLine steps))) at 1.
  change (fun _ : N => true) with anyp.
  apply greedy_class_first; [apply forallb_anyp|exact I|].
  cbn [pos rest caps hd_error].
  pose proof (firstn_span (S (n + 12) + List.length sp3)
                (joinLines (map stepLine steps)) []) as F.
  rewrite app_nil_r in F. rewrite F. reflexivity.
Qed.

Lemma sectioned_from_ingredients (pre sp1 : jsstring) (items : list jsstring)
  (sp2 sp3 : jsstring) (steps : list (jsstring * jsstring)) :
  sectioned pre sp1 items sp2 sp3 steps
  = pre ++ (lit "Ingredients:" ++ sp1 ++ joinLines (map bulletLine items)
            ++ 10%N :: sp2 ++ lit "Instructions:"
            ++ (sp3 ++ joinLines (map stepLine steps))).
Proof.
  unfold sectioned, upToInstructions.
  repeat rewrite <- app_assoc. rewrite <- app_comm_cons. reflexivity.
Qed.

Lemma filter_all {A : Type} (p : A -> bool) (l : list A) :
  (forall a, In a l -> p a = true) -> filter p l = l.
Proof.
  induction l as [|a l IH]; intros H; [reflexivity|].
  cbn [filter]. rewrite (H a (or_introl eq_refl)), IH; [reflexivity|].
  intros b Hb. apply H. right; exact Hb.
Qed.

Lemma flat_map_map_ext {A B C : Type} (f : A -> B) (g : B -> list C)
  (h : A -> list C) (l : list A) :
  (forall a, In a l -> g (f a) = h a) ->
  flat_map g (map f l) = flat_map h l.
Proof.
  induction l as [|a l IH]; intros H; [reflexivity|].
  cbn [map flat_map]. rewrite (H a (or_introl eq_refl)), IH; [reflexivity|].
  intros b Hb. apply H. right; exact Hb.
Qed.

Lemma map_id_in {A : Type} (f : A -> A) (l : list A) :
  (forall a, In a l -> f a = a) -> map f l = l.
Proof.
  induction l as [|a l IH]; intros H; [reflexivity|].
  cbn [map]. rewrite (H a (or_introl eq_refl)), IH; [reflexivity|].
  intros b Hb. apply H. right; exact Hb.
Qed.

(** The lines of the bulleted section, as the section pass sees them. *)
Lemma bullet_section_lines (items : list jsstring) :
  items <> [] -> forallb isText items = true ->
  filter isIngredientLine (sectionLines (joinLines (map bulletLine items)))
  = map bulletLine items.
Proof.
  intros Hne Hitems. rewrite forallb_forall in Hitems.
  unfold sectionLines. rewrite split_on_joinLines.
  - rewrite map_id_in.
    + apply filter_all. intros l Hl. apply in_map_iff in Hl.
      destruct Hl as (item & <- & _). apply isIngredientLine_bullet.
    + intros l Hl. apply in_map_iff in Hl. destruct Hl as (item & <- & Hin).
      apply trim_bulletLine, Hitems, Hin.
  - destruct items; [congruence|discriminate].
  - intros l Hl. apply in_map_iff in Hl. destruct Hl as (item & <- & Hin).
    apply bulletLine_no_linefeed, Hitems, Hin.
Qed.

Lemma stepLine_no_linefeed (st : jsstring * jsstring) :
  stepOk st = true -> ~ In 10%N (stepLine st).
Proof.
  destruct st as [num text]. unfold stepOk, stepLine. cbn [fst snd].
  intros H Hin. apply andb_true_iff in H. destruct H as [Hn Ht].
  destruct (isText_facts text Ht) as (_ & _ & _ & Hdot).
  apply in_app_or in Hin. destruct Hin as [Hin|[E|[E|Hin]]];
    try discriminate.
  - unfold isDigits in Hn. apply andb_true_iff in Hn. destruct Hn as [_ Hn].
    rewrite forallb_forall in Hn. specialize (Hn _ Hin). discriminate.
  - exact (no_linefeed text Hdot Hin).
Qed.

Lemma step_section_lines (steps : list (jsstring * jsstring)) :
  steps <> [] -> forallb stepOk steps = true ->
  filter nonEmpty (sectionLines (joinLines (map stepLine steps)))
  = map stepLine steps.
Proof.
  intros Hne Hsteps. rewrite forallb_forall in Hsteps.
  unfold sectionLines. rewrite split_on_joinLines.
  - rewrite map_id_in.
    + apply filter_all. intros l Hl. apply in_map_iff in Hl.
      destruct Hl as ([num text] & <- & Hin). specialize (Hsteps _ Hin).
      apply andb_true_iff in Hsteps. destruct Hsteps as [Hn _].
      destruct (isDigits_facts _ Hn) as (d & ds & E & _).
      cbn [fst] in E. unfold stepLine. cbn [fst snd]. rewrite E. reflexivity.
    + intros l Hl. apply in_map_iff in Hl.
      destruct Hl as (st & <- & Hin). specialize (Hsteps _ Hin).
      apply andb_true_iff in Hsteps. destruct Hsteps.
      apply trim_stepLine; assumption.
  - destruct steps; [congruence|discriminate].
  - intros l Hl. apply in_map_iff in Hl. destruct Hl as (st & <- & Hin).
    apply stepLine_no_linefeed, Hsteps, Hin.
Qed.

(** What the two section passes push on a sectioned text. *)
Lemma sectioned_passes (pre sp1 : jsstring) (items : list jsstring)
  (sp2 sp3 : jsstring) (steps : list (jsstring * jsstring)) :
  let content := sectioned pre sp1 items sp2 sp3 steps in
  items <> [] -> steps <> [] ->
  forallb isText items = true -> forallb stepOk steps = true ->
  forallb isSpace sp1 = true -> forallb isSpace sp2 = true ->
  forallb isSpace sp3 = true ->
  firstMatchAt ingredientSectionRe content (List.length pre) = true ->
  firstMatchAt instructionSectionRe content
    (List.length (upToInstructions pre sp1 items sp2)) = true ->
  ingredientsOfSection content = Normal (flat_map ingredientOfCleaned items)
  /\ instructionsOfSection content
     = Normal (flat_map (fun st => if (10 <? List.length (snd st))%nat
                                   then [VStr (snd st)] else []) steps).
Proof.
  intros content Hi Hs Hitems Hsteps H1 H2 H3 Hfirst1 Hfirst2. split.
  - unfold ingredientsOfSection. subst content.
    rewrite sectioned_from_ingredients in *.
    destruct (ingredient_section_at (List.length pre) sp1 items sp2
                (sp3 ++ joinLines (map stepLine steps)) Hi Hitems H1 H2)
      as [n' Hn'].
    rewrite (leftmost_match _ _ _ _ Hfirst1 Hn').
    unfold group_text, group. cbn [groups caps assoc Nat.eqb bind].
    rewrite (bullet_section_lines items Hi Hitems).
    f_equal. apply flat_map_map_ext. intros item Hin.
    apply ingredientOfLine_bullet.
    rewrite forallb_forall in Hitems. apply Hitems, Hin.
  - unfold instructionsOfSection. subst content. unfold sectioned in *.
    destruct (instruction_section_at
                (List.length (upToInstructions pre sp1 items sp2)) sp3 steps
                Hs Hsteps H3) as [n' Hn'].
    rewrite (leftmost_match _ _ _ _ Hfirst2 Hn').
    unfold group_text, group. cbn [groups caps assoc Nat.eqb bind].
    rewrite (step_section_lines steps Hs Hsteps).
    f_equal. apply flat_map_map_ext. intros [num text] Hin.
    rewrite forallb_forall in Hsteps. specialize (Hsteps _ Hin).
    apply andb_true_iff in Hsteps. destruct Hsteps.
    apply instructionOfLine_step; assumption.
Qed.

End SectionFacts.

(* ================================================================== *)
(** ** The response recovery pipeline *)

Module RecoveryFacts.
Import JS JSON Route Model MatcherFacts.
Local Open Scope string_scope.
Local Open Scope list_scope.

Lemma validate_wellFormed (v : value) (r : Recipe) :
  validateAndFormatRecipe v = Normal r -> wellFormedRecipe r = true.
Proof.
  unfold validateAndFormatRecipe.
  destruct (get v "title") as [t|] eqn:Et; [|discriminate].
  assert (Hget : forall k, exists w, get v k = Normal w).
  { intros k. destruct v; simpl in *; try discriminate; eauto. }
  destruct (Hget "description") as [d ->].
  destruct (Hget "ingredients") as [ing ->].
  destruct (Hget "instructions") as [ins ->].
  destruct (Hget "cookingTime") as [ct ->].
  destruct (Hget "servings") as [sv ->].
  cbn [bind]. intros [= <-]. unfold wellFormedRecipe; cbn [title description
    ingredients instructions cookingTime servings].
  destruct (isString t) eqn:E1; destruct (isString d) eqn:E2;
    destruct (isArray ing) eqn:E3; destruct (isArray ins) eqn:E4;
    destruct (isNumber ct) eqn:E5; destruct (isNumber sv) eqn:E6;
    rewrite ?E1, ?E2, ?E3, ?E4; cbn [isString isArray andb numberOrUnset];
    try (destruct ct; try discriminate); try (destruct sv; try discriminate);
    reflexivity.
Qed.

(** [validateAndFormatRecipe] throws on [null] and [undefined] only. *)
Lemma validate_total (v : value) :
  v <> VNull -> v <> VUndefined -> exists r, validateAndFormatRecipe v = Normal r.
Proof.
  intros H1 H2. destruct v; try congruence;
    unfold validateAndFormatRecipe; cbn [get bind]; eauto.
Qed.

Lemma ingredient_shape (q u n : jsstring) : isIngredient (ingredient q u n) = true.
Proof. reflexivity. Qed.

Lemma forallb_flat_map {A B : Type} (p : B -> bool) (f : A -> list B) (l : list A) :
  (forall a, forallb p (f a) = true) -> forallb p (flat_map f l) = true.
Proof.
  intros H. induction l as [|a l IH]; simpl; [reflexivity|].
  rewrite forallb_app, H, IH. reflexivity.
Qed.

Lemma ingredientOfLine_shape (line : jsstring) :
  forallb isIngredient (ingredientOfLine line) = true.
Proof.
  unfold ingredientOfLine, ingredientOfCleaned.
  destruct (nonEmpty _); [|reflexivity].
  destruct (match_or _ _ _); reflexivity.
Qed.

Lemma instructionOfLine_shape (line : jsstring) :
  forallb isString (instructionOfLine line) = true.
Proof.
  unfold instructionOfLine. destruct (_ && _); reflexivity.
Qed.

Lemma classify_shape (sentences : list jsstring) :
  forall acc,
    forallb isIngredient (fst acc) = true -> forallb isString (snd acc) = true ->
    forallb isIngredient (fst (fold_left classify sentences acc)) = true
    /\ forallb isString (snd (fold_left classify sentences acc)) = true.
Proof.
  induction sentences as [|s l IH]; intros [ings inss] H1 H2; simpl in *.
  - split; assumption.
  - apply IH.
    + destruct (looksLikeIngredient s); [|destruct (looksLikeInstruction s)];
        simpl; try assumption.
      rewrite forallb_app, H1. reflexivity.
    + destruct (looksLikeIngredient s); [|destruct (looksLikeInstruction s)];
        simpl; try assumption.
      rewrite forallb_app, H2. reflexivity.
Qed.

Lemma ingredientsOfSection_total (content : jsstring) :
  exists l, ingredientsOfSection content = Normal l
            /\ forallb isIngredient l = true.
Proof.
  unfold ingredientsOfSection.
  destruct (String_match content ingredientSectionRe) as [m|] eqn:E.
  - destruct (group_text_defined content ingredientSectionRe 1 m eq_refl E)
      as [t ->].
    cbn [bind]. eexists; split; [reflexivity|].
    apply forallb_flat_map, ingredientOfLine_shape.
  - exists []; split; reflexivity.
Qed.

Lemma instructionsOfSection_total (content : jsstring) :
  exists l, instructionsOfSection content = Normal l
            /\ forallb isString l = true.
Proof.
  unfold instructionsOfSection.
  destruct (String_match content instructionSectionRe) as [m|] eqn:E.
  - destruct (group_text_defined content instructionSectionRe 1 m eq_refl E)
      as [t ->].
    cbn [bind]. eexists; split; [reflexivity|].
    apply forallb_flat_map, instructionOfLine_shape.
  - exists []; split; reflexivity.
Qed.

(** Free-text extraction never throws, and what it returns is a valid
    [Recipe]. *)
Lemma extract_valid (content : jsstring) :
  exists r, extractRecipeFromText content = Normal r /\ validRecipe r = true.
Proof.
  unfold extractRecipeFromText.
  destruct (ingredientsOfSection_total content) as (i1 & -> & Hi1).
  destruct (instructionsOfSection_total content) as (i2 & -> & Hi2).
  cbn [bind]. eexists; split; [reflexivity|].
  unfold validRecipe; cbn [title description ingredients instructions
    cookingTime servings isString numberOrUnset andb isArrayOf].
  assert (H : forallb isIngredient (fst (sentenceFallback content (i1, i2))) = true
              /\ forallb isString (snd (sentenceFallback content (i1, i2))) = true).
  { unfold sentenceFallback. destruct (_ && _).
    - apply classify_shape; assumption.
    - split; assumption. }
  destruct H as [H1 H2].
  destruct (fst (sentenceFallback content (i1, i2))) as [|a l];
    destruct (snd (sentenceFallback content (i1, i2))) as [|b l'];
    cbn [isNil]; rewrite ?H1, ?H2; reflexivity.
Qed.

Lemma valid_wellFormed (r : Recipe) :
  validRecipe r = true -> wellFormedRecipe r = true.
Proof.
  unfold validRecipe, wellFormedRecipe.
  destruct (ingredients r), (instructions r); cbn [isArrayOf isArray];
    rewrite ?andb_false_r; try discriminate.
  intros H. repeat (apply andb_true_iff in H; destruct H as [H ?]).
  rewrite H. cbn [andb].
  repeat (apply andb_true_iff; split); auto.
Qed.

End RecoveryFacts.

(* ================================================================== *)
(** ** Claims on the recovery pipeline *)

Module RecoveryClaims.
Import JS JSON Route Model MatcherFacts RecoveryFacts LineFacts SectionFacts.
Local Open Scope string_scope.
Local Open Scope list_scope.

(** The pipeline returns what free-text extraction returns, or the
    formatting of a value that [JSON.parse] has read. *)
Lemma parse_cases (content : jsstring) :
  exists r, parseRecipeFromResponse content = Normal r
    /\ (extractRecipeFromText content = Normal r
        \/ exists text v, JSON_parse text = Normal v
                          /\ validateAndFormatRecipe v = Normal r).
Proof.
  destruct (extract_valid content) as (rt & Ht & _).
  assert (Hstep : forall text,
            (exists v r, JSON_parse text = Normal v
                         /\ validateAndFormatRecipe v = Normal r
                         /\ parseStructured text = Normal r)
            \/ exists e, parseStructured text = Throw e).
  { intros text. unfold parseStructured.
    destruct (JSON_parse text) as [v|e]; cbn [bind]; [|right; eauto].
    destruct (validateAndFormatRecipe v) as [r|e] eqn:E; [|right; eauto].
    left; eauto. }
  unfold parseRecipeFromResponse.
  destruct (Hstep content) as [(v & r & Hv & Hr & ->)|[e ->]]; cbn [try_catch].
  { exists r; split; [reflexivity|]. right; eauto. }
  destruct (jsonCandidate content) as [text|].
  - destruct (Hstep text) as [(v & r & Hv & Hr & ->)|[e' ->]]; cbn [try_catch].
    + exists r; split; [reflexivity|]. right; eauto.
    + exists rt; split; [exact Ht|]. left; exact Ht.
  - destruct (Hstep (trim content)) as [(v & r & Hv & Hr & ->)|[e' ->]];
      cbn [try_catch].
    + exists r; split; [reflexivity|]. right; eauto.
    + exists rt; split; [exact Ht|]. left; exact Ht.
Qed.

(** C1, as stated, fails: an array that [JSON.parse] has read is returned
    with its elements unchecked, so the ingredients of the result need not be
    [Ingredient]s.  Here they are the numbers 1 and 2. *)
Lemma C1_elements_unchecked :
  exists r,
    parseRecipeFromResponse
      (dq "{'title':'Stew','ingredients':[1,2],'instructions':[]}") = Normal r
    /\ ingredients r = VArr [VNum 1 0; VNum 2 0]
    /\ validRecipe r = false.
Proof. eexists. split; [vm_compute; reflexivity|]. split; reflexivity. Qed.

(** What the parse of a text and its formatting give: a Recipe that is the
    formatting of the value read, or an exception. *)
Lemma structured_cases (text : jsstring) :
  (exists r, parseStructured text = Normal r /\ formattedFrom text r)
  \/ isThrow (parseStructured text) = true.
Proof.
  unfold parseStructured, formattedFrom.
  destruct (JSON_parse text) as [v|e]; cbn [bind]; [|right; reflexivity].
  destruct v; try (right; reflexivity);
    (left; eexists; split; [reflexivity|];
     do 3 eexists; repeat split; reflexivity).
Qed.

(** C1 (amended): for every input string [parseRecipeFromResponse] returns a
    Recipe and never throws; its title and description are strings, its
    ingredients and instructions are arrays, its cookingTime and servings are
    numbers or unset.  The Recipe comes from exactly one step of the chain.
    It is the formatting of the value parsed in the input; or, the input not
    parsing, of the value parsed in the candidate of the extraction step; or,
    there being no candidate, of the value parsed in the trimmed input: its
    two arrays are then the arrays of that value as parsed, their elements
    unchecked.  Or else, these steps having thrown, it is what free-text
    extraction returns, and then the elements of its two arrays have the
    declared shapes, as they have for every Recipe that free-text extraction
    returns. *)
Theorem C1_always_a_recipe (content : jsstring) :
  exists r,
    parseRecipeFromResponse content = Normal r
    /\ wellFormedRecipe r = true
    /\ (formattedFrom content r
        \/ (isThrow (parseStructured content) = true
            /\ exists text, jsonCandidate content = Some text
                            /\ formattedFrom text r)
        \/ (isThrow (parseStructured content) = true
            /\ jsonCandidate content = None
            /\ formattedFrom (trim content) r)
        \/ (isThrow (parseStructured content) = true
            /\ isThrow (secondStep content) = true
            /\ extractRecipeFromText content = Normal r
            /\ validRecipe r = true))
    /\ (exists r', extractRecipeFromText content = Normal r'
                   /\ validRecipe r' = true).
Proof.
  destruct (extract_valid content) as (rt & Ht & Hvalid).
  assert (Hwf : forall text r, formattedFrom text r -> wellFormedRecipe r = true).
  { intros text r (v & _ & _ & _ & Hf & _). eapply validate_wellFormed, Hf. }
  assert (Hthrow : forall text, isThrow (parseStructured text) = true ->
            exists e, parseStructured text = Throw e).
  { intros text. destruct (parseStructured text); [discriminate|eauto]. }
  unfold parseRecipeFromResponse. fold (secondStep content).
  destruct (structured_cases content) as [(r & Hr & Hfrom)|Hdirect].
  { exists r. rewrite Hr. cbn [try_catch]. split; [reflexivity|].
    split; [eapply Hwf, Hfrom|]. split; [left; exact Hfrom|eauto]. }
  destruct (Hthrow _ Hdirect) as [e He]. rewrite He. cbn [try_catch].
  unfold secondStep.
  destruct (jsonCandidate content) as [text|] eqn:Ec.
  - destruct (structured_cases text) as [(r & Hr & Hfrom)|Hcand].
    + exists r. rewrite Hr. cbn [try_catch]. split; [reflexivity|].
      split; [eapply Hwf, Hfrom|]. split; [|eauto].
      right; left. split; [reflexivity|]. eauto.
    + destruct (Hthrow _ Hcand) as [e' He']. rewrite He'. cbn [try_catch].
      exists rt. split; [exact Ht|]. split; [apply valid_wellFormed, Hvalid|].
      split; [|eauto]. right; right; right. repeat split; assumption.
  - destruct (structured_cases (trim content)) as [(r & Hr & Hfrom)|Htrim].
    + exists r. rewrite Hr. cbn [try_catch]. split; [reflexivity|].
      split; [eapply Hwf, Hfrom|]. split; [|eauto].
      right; right; left. repeat split; assumption.
    + destruct (Hthrow _ Htrim) as [e' He']. rewrite He'. cbn [try_catch].
      exists rt. split; [exact Ht|]. split; [apply valid_wellFormed, Hvalid|].
      split; [|eauto]. right; right; right. repeat split; assumption.
Qed.

(** What [validateAndFormatRecipe] makes of an object: each property is kept
    when it has the expected type and replaced by its default otherwise. *)
Lemma validate_object (o : list (jsstring * value)) :
  validateAndFormatRecipe (VObj o) = Normal {|
    title := if isString (obj_get o (lit "title"))
             then obj_get o (lit "title") else VStr (lit "Unknown Dish");
    description := if isString (obj_get o (lit "description"))
                   then obj_get o (lit "description") else VStr [];
    ingredients := if isArray (obj_get o (lit "ingredients"))
                   then obj_get o (lit "ingredients") else VArr [];
    instructions := if isArray (obj_get o (lit "instructions"))
                    then obj_get o (lit "instructions") else VArr [];
    cookingTime := if isNumber (obj_get o (lit "cookingTime"))
                   then obj_get o (lit "cookingTime") else VUndefined;
    servings := if isNumber (obj_get o (lit "servings"))
                then obj_get o (lit "servings") else VUndefined |}.
Proof. reflexivity. Qed.

Lemma str_eqb_true (a b : jsstring) : str_eqb a b = true -> a = b.
Proof.
  revert b. induction a as [|x a IH]; intros [|y b]; cbn [str_eqb];
    try discriminate; [reflexivity|].
  intros H. apply andb_true_iff in H. destruct H as [Hx Hab].
  apply N.eqb_eq in Hx. subst y. f_equal. apply IH, Hab.
Qed.

(** The object returned has the six properties of [recipeKeys] and no
    other. *)
Lemma properties_only (r : Recipe) (k : jsstring) :
  ~ In k recipeKeys -> obj_get (properties r) k = VUndefined.
Proof.
  intros Hk. unfold properties. cbn [obj_get].
  repeat match goal with
  | |- context [str_eqb k ?key] =>
      destruct (str_eqb k key) eqn:?E;
      [apply str_eqb_true in E; exfalso; apply Hk; rewrite E; cbn; tauto|clear E]
  end.
  reflexivity.
Qed.

(** C2, as stated, fails: the Recipe shape has a [unitSystem], and the
    object that [validateAndFormatRecipe] builds has no such property.  The
    input below is the JSON text of an object matching the Recipe shape, with
    [unitSystem] "metric"; the Recipe returned has no [unitSystem]. *)
Lemma C2_unitSystem_dropped :
  exists o r,
    JSON_parse metricStew = Normal (VObj o)
    /\ obj_get o (lit "unitSystem") = VStr (lit "metric")
    /\ parseRecipeFromResponse metricStew = Normal r
    /\ validRecipe r = true
    /\ obj_get (properties r) (lit "unitSystem") = VUndefined.
Proof.
  do 2 eexists. split; [vm_compute; reflexivity|].
  split; [vm_compute; reflexivity|].
  split; [vm_compute; reflexivity|].
  split; vm_compute; reflexivity.
Qed.

(** C2 (amended): when the input is the JSON text of an object, the pipeline
    returns that object's title, description, ingredients, instructions,
    cookingTime and servings unchanged wherever they have the type the
    Recipe shape declares, and the default of the property otherwise; the
    object returned has these six properties and no other, so every other
    property of the input, the [unitSystem] of the Recipe shape included, is
    dropped.  The Omelette input gives the title "Omelette", its one
    ingredient and its two instructions in order. *)
Theorem C2_structured_input_unchanged :
  (forall (content : jsstring) (o : list (jsstring * value)),
     JSON_parse content = Normal (VObj o) ->
     exists r,
       parseRecipeFromResponse content = Normal r
       /\ title r = (if isString (obj_get o (lit "title"))
                     then obj_get o (lit "title") else VStr (lit "Unknown Dish"))
       /\ description r = (if isString (obj_get o (lit "description"))
                           then obj_get o (lit "description") else VStr [])
       /\ ingredients r = (if isArray (obj_get o (lit "ingredients"))
                           then obj_get o (lit "ingredients") else VArr [])
       /\ instructions r = (if isArray (obj_get o (lit "instructions"))
                            then obj_get o (lit "instructions") else VArr [])
       /\ cookingTime r = (if isNumber (obj_get o (lit "cookingTime"))
                           then obj_get o (lit "cookingTime") else VUndefined)
       /\ servings r = (if isNumber (obj_get o (lit "servings"))
                        then obj_get o (lit "servings") else VUndefined)
       /\ map fst (properties r) = recipeKeys
       /\ (forall k, ~ In k recipeKeys -> obj_get (properties r) k = VUndefined)
       /\ obj_get (properties r) (lit "unitSystem") = VUndefined)
  /\ parseRecipeFromResponse omelette = Normal {|
       title := VStr (lit "Omelette");
       description := VStr [];
       ingredients :=
         VArr [VObj [(lit "name", VStr (lit "egg"));
                     (lit "quantity", VStr (lit "2"));
                     (lit "unit", VStr [])]];
       instructions := VArr [VStr (lit "Beat eggs"); VStr (lit "Cook in pan")];
       cookingTime := VUndefined;
       servings := VUndefined |}.
Proof.
  split; [|vm_compute; reflexivity].
  intros content o Hparse.
  unfold parseRecipeFromResponse, parseStructured.
  rewrite Hparse. cbn [bind]. rewrite validate_object. cbn [try_catch].
  eexists. split; [reflexivity|].
  do 6 (split; [reflexivity|]).
  split; [reflexivity|]. split; [intros k Hk; apply properties_only, Hk|].
  vm_compute; reflexivity.
Qed.

Lemma C2_omelette_instance :
  JSON_parse omelette = Normal (VObj
    [(lit "title", VStr (lit "Omelette"));
     (lit "ingredients",
       VArr [VObj [(lit "name", VStr (lit "egg"));
                   (lit "quantity", VStr (lit "2"));
                   (lit "unit", VStr [])]]);
     (lit "instructions",
       VArr [VStr (lit "Beat eggs"); VStr (lit "Cook in pan")])])
  /\ exists r, parseRecipeFromResponse omelette = Normal r
               /\ title r = VStr (lit "Omelette").
Proof.
  assert (H : JSON_parse omelette = Normal (VObj
    [(lit "title", VStr (lit "Omelette"));
     (lit "ingredients",
       VArr [VObj [(lit "name", VStr (lit "egg"));
                   (lit "quantity", VStr (lit "2"));
                   (lit "unit", VStr [])]]);
     (lit "instructions",
       VArr [VStr (lit "Beat eggs"); VStr (lit "Cook in pan")])])).
  { vm_compute; reflexivity. }
  split; [exact H|].
  destruct (proj1 C2_structured_input_unchanged omelette _ H)
    as (r & Hr & Ht & _).
  exists r. split; [exact Hr|]. rewrite Ht. reflexivity.
Defined.

(** The candidate of the extraction step on a fenced block is the interior
    of the block. *)
Lemma fenced_candidate (tag sp1 mid sp2 : jsstring) :
  tag = [] \/ tag = lit "json" ->
  forallb isSpace sp1 = true -> forallb isSpace sp2 = true ->
  jsonCandidate
    (lit "```" ++ tag ++ sp1 ++ (123%N :: mid ++ [125%N]) ++ sp2 ++ lit "```")
  = Some (123%N :: mid ++ [125%N]).
Proof.
  intros Htag H1 H2.
  destruct (FenceFacts.fenced_first tag sp1 mid sp2 Htag H1 H2) as [n Hn].
  unfold jsonCandidate, match_or, String_match.
  rewrite (StarFacts.exec_from_here _ _ _ _ Hn). reflexivity.
Qed.

(** C3: a fenced block, with or without the tag [json], whose interior (from
    its opening to its closing brace, white space allowed around it) is the
    JSON text of an object gives what the pipeline gives on the interior
    alone; the fenced Soup input gives the title "Soup", no ingredient and
    the one instruction "Boil water". *)
Theorem C3_fenced_block_as_interior :
  (forall (tag sp1 mid sp2 : jsstring) (o : list (jsstring * value)),
     tag = [] \/ tag = lit "json" ->
     forallb isSpace sp1 = true -> forallb isSpace sp2 = true ->
     JSON_parse (123%N :: mid ++ [125%N]) = Normal (VObj o) ->
     parseRecipeFromResponse
       (lit "```" ++ tag ++ sp1 ++ (123%N :: mid ++ [125%N]) ++ sp2 ++ lit "```")
     = parseRecipeFromResponse (123%N :: mid ++ [125%N]))
  /\ parseRecipeFromResponse soupFenced = Normal {|
       title := VStr (lit "Soup");
       description := VStr [];
       ingredients := VArr [];
       instructions := VArr [VStr (lit "Boil water")];
       cookingTime := VUndefined;
       servings := VUndefined |}.
Proof.
  split; [|vm_compute; reflexivity].
  intros tag sp1 mid sp2 o Htag H1 H2 Hparse.
  assert (Hin : parseStructured (123%N :: mid ++ [125%N])
                = validateAndFormatRecipe (VObj o)).
  { unfold parseStructured. rewrite Hparse. reflexivity. }
  rewrite validate_object in Hin.
  unfold parseRecipeFromResponse at 2. rewrite Hin. cbn [try_catch].
  unfold parseRecipeFromResponse.
  rewrite (fenced_candidate tag sp1 mid sp2 Htag H1 H2), Hin.
  change (lit "```") with [96%N; 96%N; 96%N]. cbn [app].
  unfold parseStructured at 1. rewrite FenceFacts.JSON_parse_backtick.
  reflexivity.
Qed.

Lemma C3_soup_instance :
  parseRecipeFromResponse soupFenced = parseRecipeFromResponse soupJson.
Proof.
  refine (proj1 C3_fenced_block_as_interior (lit "json") [10%N]
            (dq "'title':'Soup','ingredients':[],'instructions':['Boil water']")
            [10%N] _ _ _ _ _).
  - right; reflexivity.
  - reflexivity.
  - reflexivity.
  - vm_compute; reflexivity.
Defined.

(** C4, as stated, fails: on a form feed followed by the JSON string
    ["{b}"] the direct parse fails, the candidate [{b}] found by the
    extraction step does not parse, and the trimmed text is valid JSON; yet
    the pipeline does not retry on the trimmed text, it returns what
    free-text extraction returns. *)
Lemma C4_no_retry_after_failed_candidate :
  let content := 12%N :: dq "'{b}'" in
  isThrow (parseStructured content) = true
  /\ isThrow (extractionStep content) = true
  /\ isThrow (parseStructured (trim content)) = false
  /\ parseRecipeFromResponse content = extractRecipeFromText content
  /\ parseRecipeFromResponse content <> retryAfterExtraction content.
Proof.
  cbv zeta. repeat split; try (vm_compute; reflexivity).
  vm_compute. discriminate.
Qed.

(** C4 (amended): on every input whose direct parse fails, the pipeline
    strips the white space around the text and parses it once more, before
    free-text extraction, when the extraction step finds no candidate (no
    fenced block and no brace-delimited substring); when the step finds a
    candidate that does not parse, the pipeline goes to free-text extraction
    without that retry. *)
Theorem C4_trimmed_retry (content : jsstring) :
  isThrow (parseStructured content) = true ->
  (jsonCandidate content = None ->
     parseRecipeFromResponse content
     = try_catch (parseStructured (trim content))
                 (fun _ => extractRecipeFromText content))
  /\ (forall text, jsonCandidate content = Some text ->
        isThrow (parseStructured text) = true ->
        parseRecipeFromResponse content = extractRecipeFromText content).
Proof.
  intros H1. unfold parseRecipeFromResponse.
  destruct (parseStructured content) as [r|e]; [discriminate|].
  cbn [try_catch]. split.
  - intros ->. reflexivity.
  - intros text -> H2.
    destruct (parseStructured text) as [r|e']; [discriminate|]. reflexivity.
Qed.

Lemma C4_trimmed_retry_instance :
  let content := 12%N :: lit "42" in
  isThrow (parseStructured content) = true
  /\ jsonCandidate content = None
  /\ exists r, parseRecipeFromResponse content = Normal r
               /\ title r = VStr (lit "Unknown Dish").
Proof.
  cbv zeta.
  assert (H1 : isThrow (parseStructured (12%N :: lit "42")) = true)
    by (vm_compute; reflexivity).
  assert (H2 : jsonCandidate (12%N :: lit "42") = None)
    by (vm_compute; reflexivity).
  split; [exact H1|]. split; [exact H2|].
  rewrite (proj1 (C4_trimmed_retry (12%N :: lit "42") H1) H2).
  eexists. split; [vm_compute; reflexivity|]. reflexivity.
Defined.

(** C5: on the empty input, and on every input in which nothing parses as
    JSON, neither section pattern matches and no sentence is classified, the
    pipeline returns, without throwing, a Recipe whose ingredients are the
    one placeholder ingredient and whose instructions are the one
    placeholder instruction. *)
Theorem C5_placeholders (content : jsstring) :
  content = []
  \/ (noJson content
      /\ String_match content ingredientSectionRe = None
      /\ String_match content instructionSectionRe = None
      /\ (forall s, In s (sentencesOf content) ->
            looksLikeIngredient s = false /\ looksLikeInstruction s = false)) ->
  exists r,
    parseRecipeFromResponse content = Normal r
    /\ ingredients r = VArr [placeholderIngredient]
    /\ instructions r = VArr [placeholderInstruction].
Proof.
  intros [->|((Hj1 & Hj2 & Hj3) & Hing & Hins & Hsent)].
  { eexists. split; [vm_compute; reflexivity|]. split; reflexivity. }
  assert (Hthrow : forall text, isThrow (JSON_parse text) = true ->
            exists e, parseStructured text = Throw e).
  { intros text. unfold parseStructured.
    destruct (JSON_parse text); [discriminate|]. cbn [bind]. eauto. }
  unfold parseRecipeFromResponse.
  destruct (Hthrow _ Hj1) as [e1 ->]. cbn [try_catch].
  assert (Hinner : exists e,
            match jsonCandidate content with
            | Some text => parseStructured text
            | None => parseStructured (trim content)
            end = Throw e).
  { destruct (jsonCandidate content) as [text|]; auto. }
  destruct Hinner as [e2 ->]. cbn [try_catch].
  unfold extractRecipeFromText, ingredientsOfSection, instructionsOfSection.
  rewrite Hing, Hins. cbn [bind].
  assert (Hfold : forall l acc,
            (forall s, In s l ->
               looksLikeIngredient s = false /\ looksLikeInstruction s = false) ->
            fold_left classify l acc = acc).
  { induction l as [|s l IH]; intros [a b] Hl; [reflexivity|].
    cbn [fold_left classify].
    destruct (Hl s (or_introl eq_refl)) as [-> ->].
    apply IH. intros s' Hs'. apply Hl. right; exact Hs'. }
  unfold sentenceFallback. cbn [fst snd isNil andb].
  rewrite (Hfold _ _ Hsent).
  eexists. split; [reflexivity|]. split; reflexivity.
Qed.

Lemma C5_placeholders_instance :
  let content := lit "The picture shows a red bicycle leaning against a wall" in
  exists r,
    parseRecipeFromResponse content = Normal r
    /\ ingredients r = VArr [placeholderIngredient]
    /\ instructions r = VArr [placeholderInstruction].
Proof.
  cbv zeta. apply C5_placeholders. right.
  split; [|split; [vm_compute; reflexivity|split; [vm_compute; reflexivity|]]].
  - split; [vm_compute; reflexivity|].
    split; [|vm_compute; reflexivity].
    intros text H. vm_compute in H. discriminate.
  - intros s H. vm_compute in H. destruct H as [<-|[]].
    split; vm_compute; reflexivity.
Defined.

(** When nothing parses as JSON the pipeline is free-text extraction. *)
Lemma text_path (content : jsstring) :
  noJson content ->
  parseRecipeFromResponse content = extractRecipeFromText content.
Proof.
  intros (Hj1 & Hj2 & Hj3).
  assert (Hthrow : forall text, isThrow (JSON_parse text) = true ->
            exists e, parseStructured text = Throw e).
  { intros text. unfold parseStructured.
    destruct (JSON_parse text); [discriminate|]. cbn [bind]. eauto. }
  unfold parseRecipeFromResponse.
  destruct (Hthrow _ Hj1) as [e1 ->]. cbn [try_catch].
  destruct (jsonCandidate content) as [text|].
  - destruct (Hthrow _ (Hj2 text eq_refl)) as [e2 ->]. reflexivity.
  - destruct (Hthrow _ Hj3) as [e2 ->]. reflexivity.
Qed.

Lemma items_ingredients (items : list jsstring) :
  forallb isText items = true ->
  Forall2 (fun item v => ingredientOfCleaned item = [v]) items
          (flat_map ingredientOfCleaned items).
Proof.
  induction items as [|item items IH]; intros H; [constructor|].
  cbn [forallb] in H. apply andb_true_iff in H. destruct H as [Hitem Hitems].
  destruct (ingredientOfCleaned_text item Hitem) as [v Hv].
  cbn [flat_map]. rewrite Hv. cbn [app]. constructor; [exact Hv|].
  apply IH, Hitems.
Qed.

Lemma steps_instructions (steps : list (jsstring * jsstring)) :
  flat_map (fun st => if (10 <? List.length (snd st))%nat
                      then [VStr (snd st)] else []) steps
  = map VStr (filter (fun t => (10 <? List.length t)%nat) (map snd steps)).
Proof.
  induction steps as [|[num text] steps IH]; [reflexivity|].
  cbn [flat_map map filter snd]. rewrite IH.
  destruct (10 <? List.length text)%nat; reflexivity.
Qed.

(** C6: on a plain-prose text with a section headed "Ingredients:" made of
    bulleted lines and a section headed "Instructions:" made of numbered
    lines (the two headings being the first matches of the section patterns),
    the pipeline returns a non-empty ingredients list with one ingredient
    per bulleted line, in the order of the lines, and a non-empty
    instructions list: the texts of the numbered lines that are longer than
    ten code units, in the order of the lines, or the placeholder when none
    is that long.  The Pancakes input gives the title "Pancakes", the
    ingredients 2 / cups / flour and 1 / cup / milk and its two instructions
    in order. *)
Theorem C6_sections_in_order :
  (forall (pre sp1 : jsstring) (items : list jsstring) (sp2 sp3 : jsstring)
          (steps : list (jsstring * jsstring)),
     let content := sectioned pre sp1 items sp2 sp3 steps in
     items <> [] -> steps <> [] ->
     forallb isText items = true -> forallb stepOk steps = true ->
     forallb isSpace sp1 = true -> forallb isSpace sp2 = true ->
     forallb isSpace sp3 = true ->
     noJson content ->
     firstMatchAt ingredientSectionRe content (List.length pre) = true ->
     firstMatchAt instructionSectionRe content
       (List.length (upToInstructions pre sp1 items sp2)) = true ->
     exists r ings inss,
       parseRecipeFromResponse content = Normal r
       /\ ingredients r = VArr ings /\ instructions r = VArr inss
       /\ ings <> [] /\ inss <> []
       /\ Forall2 (fun item v => ingredientOfCleaned item = [v]) items ings
       /\ inss = (let kept := filter (fun t => (10 <? List.length t)%nat)
                                     (map snd steps) in
                  if isNil kept then [placeholderInstruction]
                  else map VStr kept))
  /\ parseRecipeFromResponse pancakes = Normal {|
       title := VStr (lit "Pancakes");
       description := VStr (lit "Recipe generated from image analysis");
       ingredients :=
         VArr [ingredient (lit "2") (lit "cups") (lit "flour");
               ingredient (lit "1") (lit "cup") (lit "milk")];
       instructions :=
         VArr [VStr (lit "Mix ingredients together");
               VStr (lit "Cook on griddle until golden")];
       cookingTime := VUndefined;
       servings := VUndefined |}.
Proof.
  split; [|vm_compute; reflexivity].
  intros pre sp1 items sp2 sp3 steps content Hi Hs Hitems Hsteps H1 H2 H3
    Hprose Hfirst1 Hfirst2.
  destruct (sectioned_passes pre sp1 items sp2 sp3 steps Hi Hs Hitems Hsteps
              H1 H2 H3 Hfirst1 Hfirst2) as [Hing Hins].
  fold content in Hing, Hins.
  pose proof (items_ingredients items Hitems) as Hall.
  set (ings := flat_map ingredientOfCleaned items) in *.
  assert (Hings : ings <> []).
  { destruct Hall; [congruence|discriminate]. }
  rewrite steps_instructions in Hins.
  set (kept := filter (fun t => (10 <? List.length t)%nat) (map snd steps)) in *.
  rewrite (text_path content Hprose).
  unfold extractRecipeFromText. rewrite Hing, Hins. cbn [bind].
  unfold sentenceFallback. cbn [fst snd].
  destruct ings as [|v ings]; [congruence|]. cbn [isNil andb fst snd].
  eexists. exists (v :: ings). eexists.
  split; [reflexivity|]. split; [reflexivity|]. split; [reflexivity|].
  split; [discriminate|]. split; [|split; [exact Hall|]].
  - destruct kept; discriminate.
  - cbv zeta. destruct kept; reflexivity.
Qed.

Lemma C6_pancakes_instance :
  exists r ings inss,
    parseRecipeFromResponse pancakes = Normal r
    /\ ingredients r = VArr ings /\ instructions r = VArr inss
    /\ ings <> [] /\ inss <> []
    /\ Forall2 (fun item v => ingredientOfCleaned item = [v])
               [lit "2 cups flour"; lit "1 cup milk"] ings
    /\ inss = [VStr (lit "Mix ingredients together");
               VStr (lit "Cook on griddle until golden")].
Proof.
  refine (proj1 C6_sections_in_order
            (lit "Recipe: Pancakes

") [10%N] [lit "2 cups flour"; lit "1 cup milk"] [10%N] [10%N]
            [(lit "1", lit "Mix ingredients together");
             (lit "2", lit "Cook on griddle until golden")]
            _ _ _ _ _ _ _ _ _ _); try discriminate; try reflexivity.
  split; [vm_compute; reflexivity|].
  split; [|vm_compute; reflexivity].
  intros text H. vm_compute in H. discriminate.
Defined.

(** C7 (the code departs from it): a line that does not decompose is matched
    by the fall-back pattern, whose only group holds the whole line, and
    [match[1] || '1'] then takes the line for the quantity.  For every
    ingredient text on one line that the quantity pattern does not match,
    the ingredient has the text as its name, an empty unit, and the text
    again as its quantity, where the claim says "1"; so for the section line
    [- salt to taste]. *)
Theorem C7_quantity_is_the_line :
  (forall cleaned : jsstring,
     isText cleaned = true ->
     String_match cleaned quantified = None ->
     ingredientOfCleaned cleaned = [ingredient cleaned [] cleaned])
  /\ ingredientOfLine (lit "- salt to taste")
     = [ingredient (lit "salt to taste") [] (lit "salt to taste")]
  /\ exists r,
       parseRecipeFromResponse (lit "Ingredients:
- salt to taste") = Normal r
       /\ ingredients r
          = VArr [ingredient (lit "salt to taste") [] (lit "salt to taste")].
Proof.
  split; [|split; [vm_compute; reflexivity|]].
  - intros cleaned Ht Hq.
    destruct (isText_facts cleaned Ht) as (Hne & _ & _ & Hdot).
    unfold ingredientOfCleaned, match_or. rewrite Hq.
    pose proof (wholeLine_matches cleaned Hne Hdot) as Hy.
    unfold String_match. rewrite (StarFacts.exec_from_here _ _ _ _ Hy).
    destruct cleaned as [|c w]; [congruence|]. reflexivity.
  - eexists. split; [vm_compute; reflexivity|]. reflexivity.
Qed.

Lemma C7_salt_instance :
  ingredientOfCleaned (lit "salt to taste")
  = [ingredient (lit "salt to taste") [] (lit "salt to taste")].
Proof.
  apply (proj1 C7_quantity_is_the_line (lit "salt to taste")).
  - vm_compute; reflexivity.
  - vm_compute; reflexivity.
Defined.

Lemma classify_ingredients_grow (l : list jsstring) :
  forall acc v, In v (fst acc) -> In v (fst (fold_left classify l acc)).
Proof.
  induction l as [|s l IH]; intros [a b] v Hv; cbn [fold_left]; [exact Hv|].
  apply IH. unfold classify.
  destruct (looksLikeIngredient s); [|destruct (looksLikeInstruction s)];
    cbn [fst] in *; auto.
  apply in_or_app; left; exact Hv.
Qed.

Lemma classify_ingredient_first (l : list jsstring) :
  forall acc s, In s l -> looksLikeIngredient s = true ->
    In (ingredient (lit "1") [] s) (fst (fold_left classify l acc)).
Proof.
  induction l as [|s' l IH]; intros [a b] s Hs Hi; [destruct Hs|].
  cbn [fold_left]. destruct Hs as [->|Hs]; [|apply IH; assumption].
  apply classify_ingredients_grow. unfold classify. rewrite Hi. cbn [fst].
  apply in_or_app; right; left; reflexivity.
Qed.

Lemma classify_instructions_origin (l : list jsstring) :
  forall acc v, In v (snd (fold_left classify l acc)) ->
    In v (snd acc)
    \/ exists s, v = VStr s /\ In s l
                 /\ looksLikeIngredient s = false
                 /\ looksLikeInstruction s = true.
Proof.
  induction l as [|s l IH]; intros [a b] v Hv; cbn [fold_left] in Hv;
    [left; exact Hv|].
  apply IH in Hv. destruct Hv as [Hv|(s' & -> & Hs' & H1 & H2)].
  - unfold classify in Hv.
    destruct (looksLikeIngredient s) eqn:E1;
      [|destruct (looksLikeInstruction s) eqn:E2]; cbn [snd] in Hv;
      try (left; exact Hv).
    apply in_app_or in Hv. destruct Hv as [Hv|[<-|[]]]; [left; exact Hv|].
    right. exists s. repeat split; auto. left; reflexivity.
  - right. exists s'. repeat split; auto. right; exact Hs'.
Qed.

(** Remark: the fall-back also runs on a text in which a heading is
    matched and none of the lines under it is kept; on the text below the
    heading [Method:] matches, its four lines are too short to be kept, and
    the fall-back classifies the whole text as one instruction. *)
Lemma fallback_after_unproductive_section :
  let content := lit "Method:
mix
stir
add
combine" in
  (exists m, String_match content instructionSectionRe = Some m
             /\ group m 1 = Some (lit "mix
stir
add
combine"))
  /\ instructionsOfSection content = Normal []
  /\ exists r, extractRecipeFromText content = Normal r
               /\ instructions r = VArr [VStr content].
Proof.
  cbv zeta. split; [eexists; split; vm_compute; reflexivity|].
  split; [vm_compute; reflexivity|].
  eexists; split; vm_compute; reflexivity.
Qed.

(** C10: the sentence fall-back runs only when the two section passes have
    pushed no ingredient and no instruction; in it every sentence is tested
    against the ingredient criteria first: a sentence that meets them is
    pushed to the ingredients (quantity "1", empty unit) and never to the
    instructions, whether or not it contains a cooking verb; the instructions
    it pushes are the sentences that fail the ingredient test and contain a
    cooking verb. *)
Theorem C10_ingredient_test_first (content : jsstring)
  (ings inss : list value) :
  ingredientsOfSection content = Normal ings ->
  instructionsOfSection content = Normal inss ->
  let lists := sentenceFallback content (ings, inss) in
  (exists r, extractRecipeFromText content = Normal r
     /\ ingredients r
        = VArr (if isNil (fst lists) then [placeholderIngredient] else fst lists)
     /\ instructions r
        = VArr (if isNil (snd lists) then [placeholderInstruction] else snd lists))
  /\ (ings <> [] \/ inss <> [] -> lists = (ings, inss))
  /\ (ings = [] -> inss = [] ->
      (forall s, In s (sentencesOf content) -> looksLikeIngredient s = true ->
         In (ingredient (lit "1") [] s) (fst lists)
         /\ ~ In (VStr s) (snd lists))
      /\ (forall v, In v (snd lists) ->
            exists s, v = VStr s /\ In s (sentencesOf content)
                      /\ looksLikeIngredient s = false
                      /\ looksLikeInstruction s = true)).
Proof.
  intros Hi Hn lists. split; [|split].
  - unfold extractRecipeFromText. rewrite Hi, Hn. cbn [bind].
    eexists. split; [reflexivity|]. split; reflexivity.
  - subst lists. unfold sentenceFallback. cbn [fst snd].
    intros [H|H]; [destruct ings|destruct inss]; try congruence;
      cbn [isNil andb]; rewrite ?andb_false_r; reflexivity.
  - intros -> ->. subst lists. unfold sentenceFallback. cbn [fst snd isNil andb].
    split.
    + intros s Hs Hing. split.
      * apply classify_ingredient_first; assumption.
      * intros Hin. apply classify_instructions_origin in Hin.
        destruct Hin as [[]|(s' & [= <-] & _ & Hno & _)]. congruence.
    + intros v Hv. apply classify_instructions_origin in Hv.
      destruct Hv as [[]|H]; exact H.
Qed.

Lemma C10_ingredient_test_first_instance :
  let content := lit "First heat the oven to 350 degrees. Then add 2 cups of flour and stir" in
  let s := lit "Then add 2 cups of flour and stir" in
  looksLikeIngredient s = true /\ looksLikeInstruction s = true
  /\ In (ingredient (lit "1") [] s)
        (fst (sentenceFallback content ([], [])))
  /\ ~ In (VStr s) (snd (sentenceFallback content ([], []))).
Proof.
  cbv zeta.
  split; [vm_compute; reflexivity|]. split; [vm_compute; reflexivity|].
  refine (proj1 (proj2 (proj2 (C10_ingredient_test_first
    (lit "First heat the oven to 350 degrees. Then add 2 cups of flour and stir")
    [] [] _ _)) eq_refl eq_refl) _ _ _).
  - vm_compute; reflexivity.
  - vm_compute; reflexivity.
  - vm_compute. right; left; reflexivity.
  - vm_compute; reflexivity.
Defined.

End RecoveryClaims.

(* ================================================================== *)
(** ** Claims on the request handler *)

Module HandlerClaims.
Import JS JSON Units Route Model.
Local Open Scope string_scope.
Local Open Scope list_scope.

(** C8 (the code departs from it): a request that reaches the external
    service is sent with the constant [RECIPE_PROMPT], whatever unit system
    the caller supplies; the handler never reads [unitSystem], the prompt is
    the same for [metric] and [imperial], and it contains the rules of
    [getUnitSystemPrompt] for neither. *)
Theorem C8_prompt_ignores_unit_system (key : option jsstring)
  (openai : service) (image : jsstring) (u : option UnitSystem) :
  image <> [] ->
  keyNotConfigured key = false ->
  snd (POST key openai (Normal (mkRequest (Some image) u)) [])
    = [chatRequestFor image]
  /\ POST key openai (Normal (mkRequest (Some image) u)) []
     = POST key openai (Normal (mkRequest (Some image) None)) []
  /\ includes RECIPE_PROMPT (getUnitSystemPrompt metric) = false
  /\ includes RECIPE_PROMPT (getUnitSystemPrompt imperial) = false
  /\ includes (toLowerCase RECIPE_PROMPT) (lit "metric") = false
  /\ includes (toLowerCase RECIPE_PROMPT) (lit "imperial") = false.
Proof.
  intros Himage Hkey.
  assert (Hcalls : forall u',
    POST key openai (Normal (mkRequest (Some image) u')) []
    = io_try
        (content <~ create openai (chatRequestFor image) ;;
         match content with
         | None | Some [] =>
             throw (Error (lit "No content received from OpenAI"))
         | Some content =>
             recipe <~ lift (parseRecipeFromResponse content) ;;
             ret (mkHttp (mkResponse true (Some recipe) None) 200)
         end)
        (fun error =>
           ret (mkHttp (mkResponse false None
                  (Some (lit "Failed to generate recipe. Please try again.")))
                  500)) []).
  { intros u'. unfold POST, io_try, io_bind, lift. cbn [imageBase64].
    destruct image as [|c image]; [congruence|]. rewrite Hkey. reflexivity. }
  split; [|split; [rewrite !Hcalls; reflexivity|repeat split; vm_compute; reflexivity]].
  rewrite Hcalls. unfold io_try, io_bind, create. cbn [app].
  destruct (openai (chatRequestFor image)) as [[[|c content]|]|e];
    unfold throw, ret, lift; cbn [snd]; try reflexivity.
  destruct (parseRecipeFromResponse (c :: content)); reflexivity.
Qed.

Lemma C8_prompt_ignores_unit_system_instance :
  snd (POST (Some (lit "sk-test")) silentService
         (Normal (mkRequest (Some (lit "abc")) (Some metric))) [])
  = [chatRequestFor (lit "abc")].
Proof.
  apply (C8_prompt_ignores_unit_system (Some (lit "sk-test")) silentService
           (lit "abc") (Some metric)).
  - discriminate.
  - vm_compute; reflexivity.
Defined.

(** The handler itself, once it runs with a key that is absent, empty or
    holds the placeholder: the sample Recipe, and no call. *)
Lemma POST_sample (key : option jsstring) (openai : service)
  (image : jsstring) (u : option UnitSystem) (calls : list ChatRequest) :
  image <> [] -> keyNotConfigured key = true ->
  POST key openai (Normal (mkRequest (Some image) u)) calls
  = (Normal (mkHttp (mkResponse true (Some sampleRecipe) None) 200), calls).
Proof.
  intros Himage Hk. unfold POST, io_try, io_bind, lift. cbn [imageBase64].
  destruct image as [|c image]; [congruence|]. rewrite Hk. reflexivity.
Qed.

(** C9 (the code departs from it): the sample Recipe is served only when the
    module of the route loads.  For a request with a non-empty image and a
    key that is empty or contains the placeholder
    [your_openai_api_key_here], with which the constructor of the client
    builds a client, the handler calls the external service not at all and
    answers with status 200, [success: true] and the fixed sample Recipe,
    whose title contains "Sample" and whose instructions tell how to
    configure the key.  For a key that is absent the claim fails: the
    constructor runs at the top level of the module, before the test of the
    key in [POST] and outside its [try]; when it throws, as the constructor of
    the client does when it is given no key, the route serves nothing, the
    sample Recipe included. *)
Theorem C9_sample_recipe_without_key
  (OpenAI : option jsstring -> completion service) (openai : service)
  (image : jsstring) (u : option UnitSystem) (calls : list ChatRequest) :
  image <> [] ->
  (forall e, OpenAI None = Throw e ->
     route OpenAI None (Normal (mkRequest (Some image) u)) calls
     = (Throw e, calls))
  /\ route (clientOf openai) None (Normal (mkRequest (Some image) u)) calls
     = (Throw (Error (lit "The OPENAI_API_KEY environment variable is missing or empty")),
        calls)
  /\ (forall key,
        (key = Some []
         \/ exists k, key = Some k /\ includes k placeholderKey = true) ->
        OpenAI key = Normal openai ->
        route OpenAI key (Normal (mkRequest (Some image) u)) calls
        = (Normal (mkHttp (mkResponse true (Some sampleRecipe) None) 200),
           calls))
  /\ (exists t, title sampleRecipe = VStr t /\ includes t (lit "Sample") = true)
  /\ In (VStr (lit "Configure your OpenAI API key in the .env.local file"))
        (elements (instructions sampleRecipe))
  /\ In (VStr (dq "Replace 'your_openai_api_key_here' with your actual API key"))
        (elements (instructions sampleRecipe)).
Proof.
  intros Himage. split; [|split; [|split]].
  - intros e He. unfold route, io_bind, lift. rewrite He. reflexivity.
  - reflexivity.
  - intros key Hkey Hload. unfold route, io_bind, lift. rewrite Hload.
    apply POST_sample; [exact Himage|].
    destruct Hkey as [->|(k & -> & Hk)]; [reflexivity|].
    destruct k; [reflexivity|exact Hk].
  - split; [eexists; split; [reflexivity|vm_compute; reflexivity]|].
    split; cbn; auto.
Qed.

Lemma C9_sample_recipe_without_key_instance :
  route (clientOf silentService) None
        (Normal (mkRequest (Some (lit "abc")) None)) []
  = (Throw (Error (lit "The OPENAI_API_KEY environment variable is missing or empty")),
     []).
Proof.
  apply (proj1 (C9_sample_recipe_without_key (clientOf silentService)
                  silentService (lit "abc") None [] ltac:(discriminate))
           (Error (lit "The OPENAI_API_KEY environment variable is missing or empty"))).
  reflexivity.
Defined.

End HandlerClaims.

(* ================================================================== *)
(** ** The client: files, data URLs and locales *)

Module ClientFacts.
Import JS JSON Units Route Client Model Notions StarFacts.
Local Open Scope string_scope.
Local Open Scope list_scope.

Lemma str_eqb_eq (a b : jsstring) : str_eqb a b = true <-> a = b.
Proof.
  revert b. induction a as [|x a IH]; intros [|y b]; cbn [str_eqb];
    try (split; [discriminate|congruence]); [split; reflexivity|].
  rewrite andb_true_iff, N.eqb_eq, IH. split.
  - intros [-> ->]. reflexivity.
  - intros [= -> ->]. split; reflexivity.
Qed.

Lemma Array_includes_In (l : list jsstring) (s : jsstring) :
  Array_includes l s = true <-> In s l.
Proof.
  unfold Array_includes. rewrite existsb_exists. split.
  - intros (x & Hx & E). apply str_eqb_eq in E. subst. exact Hx.
  - intros H. exists s. split; [exact H|]. apply str_eqb_eq. reflexivity.
Qed.

Lemma validateImageFile_valid (file : File) :
  valid (validateImageFile file) = true
  <-> In (file_type file) validTypes /\ (file_size file <= 10485760)%N.
Proof.
  unfold validateImageFile.
  destruct (Array_includes validTypes (file_type file)) eqn:Et; cbn [negb].
  - apply Array_includes_In in Et. change maxSize with 10485760%N.
    destruct (N.ltb_spec 10485760 (file_size file)) as [Hs|Hs]; cbn [valid].
    + split; [discriminate|intros [_ H]; lia].
    + split; [intros _; split; assumption|reflexivity].
  - cbn [valid]. split; [discriminate|].
    intros [H _]. apply Array_includes_In in H. congruence.
Qed.

(** X1: [validateImageFile] accepts exactly the files of one of the four types
    whose size is at most 10485760 bytes (10 MB itself is accepted); the
    error is present exactly on rejection, and a wrong type is reported
    whatever the size. *)
Theorem validateImageFile_accepts (file : File) :
  (valid (validateImageFile file) = true
   <-> In (file_type file) validTypes /\ (file_size file <= 10485760)%N)
  /\ (validation_error (validateImageFile file) = None
      <-> valid (validateImageFile file) = true)
  /\ (~ In (file_type file) validTypes ->
      validation_error (validateImageFile file)
      = Some (lit "Please upload a valid image file (JPEG, PNG, or WebP)"))
  /\ (In (file_type file) validTypes -> (10485760 < file_size file)%N ->
      validation_error (validateImageFile file)
      = Some (lit "File size must be less than 10MB")).
Proof.
  unfold validateImageFile.
  destruct (Array_includes validTypes (file_type file)) eqn:Et; cbn [negb].
  - apply Array_includes_In in Et.
    change maxSize with 10485760%N.
    destruct (N.ltb_spec 10485760 (file_size file)) as [Hs|Hs];
      cbn [valid validation_error].
    + split; [split; [discriminate|intros [_ H]; lia]|].
      split; [split; discriminate|]. split; [contradiction|reflexivity].
    + split; [split; [intros _; split; [exact Et|exact Hs]|reflexivity]|].
      split; [split; reflexivity|]. split; [contradiction|lia].
  - assert (Hn : ~ In (file_type file) validTypes).
    { intros H. apply Array_includes_In in H. congruence. }
    cbn [valid validation_error].
    split; [split; [discriminate|intros [H _]; contradiction]|].
    split; [split; discriminate|]. split; [reflexivity|contradiction].
Qed.

Lemma validateImageFile_accepts_witness :
  validation_error (validateImageFile (mkFile (lit "image/gif") 2048))
  = Some (lit "Please upload a valid image file (JPEG, PNG, or WebP)").
Proof.
  apply (proj1 (proj2 (proj2 (validateImageFile_accepts
                                (mkFile (lit "image/gif") 2048))))).
  vm_compute. intuition discriminate.
Defined.

Lemma toLowerCase_app (a b : jsstring) :
  toLowerCase (a ++ b) = toLowerCase a ++ toLowerCase b.
Proof. apply flat_map_app. Qed.

Lemma prefixb_app (p a b : jsstring) :
  prefixb p a = true -> prefixb p (a ++ b) = true.
Proof.
  revert a. induction p as [|x p IH]; intros [|y a] H; cbn in *;
    try reflexivity; try discriminate.
  apply andb_true_iff in H. destruct H as [-> H]. cbn. apply IH, H.
Qed.

Lemma lowerUnit_upperUnit (c : N) : lowerUnit (upperUnit c) = lowerUnit c.
Proof.
  unfold upperUnit.
  destruct ((97 <=? c) && (c <=? 122))%N eqn:E; [|reflexivity].
  apply andb_true_iff in E. destruct E as [E1 E2].
  apply N.leb_le in E1, E2. unfold lowerUnit.
  replace ((65 <=? c - 32) && (c - 32 <=? 90))%N with true
    by (symmetry; apply andb_true_iff; split; apply N.leb_le; lia).
  replace ((65 <=? c) && (c <=? 90))%N with false
    by (symmetry; apply andb_false_iff; right; apply N.leb_gt; lia).
  replace (c =? 8490)%N with false by (symmetry; apply N.eqb_neq; lia).
  replace (c =? 304)%N with false by (symmetry; apply N.eqb_neq; lia).
  replace ((192 <=? c) && (c <=? 222) && negb (c =? 215))%N with false.
  - f_equal. lia.
  - symmetry. apply andb_false_iff. left. apply andb_false_iff. left.
    apply N.leb_gt. lia.
Qed.

Lemma toLowerCase_upper (s : jsstring) :
  toLowerCase (map upperUnit s) = toLowerCase s.
Proof.
  induction s as [|c s IH]; [reflexivity|].
  cbn [map toLowerCase flat_map]. rewrite lowerUnit_upperUnit.
  f_equal. exact IH.
Qed.

(** X2: [detectUserUnitSystem] does not look at the case of ASCII letters, and
    only at the beginning of the locale: a locale detected as metric stays
    metric whatever is appended to it. *)
Theorem detect_case_and_prefix (locale : jsstring) :
  detectUserUnitSystem (Some (Some (map upperUnit locale)))
  = detectUserUnitSystem (Some (Some locale))
  /\ (forall suffix,
        detectUserUnitSystem (Some (Some locale)) = metric ->
        detectUserUnitSystem (Some (Some (locale ++ suffix))) = metric).
Proof.
  split.
  - unfold detectUserUnitSystem.
    destruct locale as [|c locale]; [reflexivity|].
    cbn [map orElse].
    change (upperUnit c :: map upperUnit locale)
      with (map upperUnit (c :: locale)).
    rewrite toLowerCase_upper. reflexivity.
  - intros suffix. unfold detectUserUnitSystem.
    destruct locale as [|c locale].
    + cbn [orElse]. intros H. vm_compute in H. discriminate.
    + cbn [app orElse].
      destruct (existsb _ metricCountries) eqn:E; [|discriminate].
      intros _. apply existsb_exists in E. destruct E as (country & Hin & Hp).
      replace (existsb _ metricCountries) with true; [reflexivity|].
      symmetry. apply existsb_exists. exists country. split; [exact Hin|].
      change (c :: locale ++ suffix) with ((c :: locale) ++ suffix).
      rewrite toLowerCase_app. apply prefixb_app, Hp.
Qed.

Lemma detect_case_and_prefix_witness :
  detectUserUnitSystem (Some (Some (lit "fr" ++ lit "-CA"))) = metric.
Proof.
  apply (proj2 (detect_case_and_prefix (lit "fr")) (lit "-CA")).
  vm_compute; reflexivity.
Defined.

(** X3: Without a window, and with no or an empty [navigator.language], the
    system is imperial; so it is for every locale that begins with [en-US],
    and for every locale that begins with [sv] or [da]: the list of metric
    prefixes has [se] and [dk], the language codes of Swedish and Danish are
    [sv] and [da]. *)
Theorem detect_imperial :
  detectUserUnitSystem None = imperial
  /\ detectUserUnitSystem (Some None) = imperial
  /\ detectUserUnitSystem (Some (Some [])) = imperial
  /\ forall rest : jsstring,
       detectUserUnitSystem (Some (Some (lit "en-US" ++ rest))) = imperial
       /\ detectUserUnitSystem (Some (Some (lit "sv" ++ rest))) = imperial
       /\ detectUserUnitSystem (Some (Some (lit "da" ++ rest))) = imperial.
Proof.
  split; [reflexivity|]. split; [vm_compute; reflexivity|].
  split; [vm_compute; reflexivity|].
  intros rest. unfold detectUserUnitSystem. repeat split.
Qed.


(** [split_on] at the first separator. *)
Lemma split_on_first (sep : N) (a b : jsstring) :
  ~ In sep a -> split_on sep (a ++ sep :: b) = a :: split_on sep b.
Proof.
  induction a as [|c a IH]; intros H.
  - cbn [app split_on]. rewrite N.eqb_refl. reflexivity.
  - cbn [app split_on]. destruct (N.eqb_spec c sep) as [->|Hc].
    + exfalso. apply H. left; reflexivity.
    + rewrite IH; [reflexivity|]. intros Hin. apply H. right; exact Hin.
Qed.

Lemma split_on_none (sep : N) (a : jsstring) :
  ~ In sep a -> split_on sep a = [a].
Proof.
  induction a as [|c a IH]; intros H; [reflexivity|].
  cbn [split_on]. destruct (N.eqb_spec c sep) as [->|Hc].
  - exfalso. apply H. left; reflexivity.
  - rewrite IH; [reflexivity|]. intros Hin. apply H. right; exact Hin.
Qed.

(** X4: What [compressImage] strips from the data URL of the canvas is what
    [POST] puts back: when the canvas gives a JPEG data URL whose payload has
    no comma, [compressImage] resolves with the payload, and the image URL
    that the handler sends to the external service for that payload is the
    data URL of the canvas. *)
Theorem data_url_round_trip (toDataURL : File -> jsstring) (file : File)
  (payload : jsstring) (key : option jsstring) (openai : service)
  (u : option UnitSystem) :
  toDataURL file = lit "data:image/jpeg;base64," ++ payload ->
  ~ In 44%N payload -> payload <> [] ->
  keyNotConfigured key = false ->
  compressImage toDataURL file = Some payload
  /\ map image_url
         (snd (POST key openai (Normal (mkRequest (Some payload) u)) []))
     = [toDataURL file].
Proof.
  intros Hurl Hcomma Hne Hkey. split.
  - unfold compressImage, afterFirstComma. rewrite Hurl.
    change (lit "data:image/jpeg;base64," ++ payload)
      with (lit "data:image/jpeg;base64" ++ 44%N :: payload).
    rewrite split_on_first.
    + rewrite split_on_none by exact Hcomma. reflexivity.
    + vm_compute. intuition discriminate.
  - unfold POST, io_try, io_bind, lift. cbn [imageBase64].
    destruct payload as [|c payload]; [congruence|]. rewrite Hkey.
    unfold create. cbn [app].
    destruct (openai _) as [[[|d content]|]|e];
      unfold throw, ret, lift; cbn [snd map image_url];
      try (rewrite Hurl; reflexivity).
    destruct (parseRecipeFromResponse (d :: content));
      cbn [snd map image_url]; rewrite Hurl; reflexivity.
Qed.

Lemma data_url_round_trip_witness :
  compressImage (fun _ => lit "data:image/jpeg;base64,QUJD")
    (mkFile (lit "image/png") 3) = Some (lit "QUJD")
  /\ map image_url
         (snd (POST (Some (lit "sk-test")) silentService
                 (Normal (mkRequest (Some (lit "QUJD")) None)) []))
     = [lit "data:image/jpeg;base64,QUJD"].
Proof.
  apply (data_url_round_trip (fun _ => lit "data:image/jpeg;base64,QUJD")
           (mkFile (lit "image/png") 3) (lit "QUJD") (Some (lit "sk-test"))
           silentService None).
  - reflexivity.
  - vm_compute. intuition discriminate.
  - discriminate.
  - vm_compute; reflexivity.
Defined.

(** X5: [fileToBase64] resolves with what stands between the first comma of the
    data URL and the next one (the whole payload when it has no comma), with
    [undefined] when the data URL has no comma, and it rejects with the
    error of the reader. *)
Theorem fileToBase64_payload (readAsDataURL : File -> completion jsstring)
  (file : File) :
  (forall header payload more,
     readAsDataURL file = Normal (header ++ 44%N :: payload ++ more) ->
     ~ In 44%N header -> ~ In 44%N payload ->
     more = [] \/ hd 0%N more = 44%N ->
     fileToBase64 readAsDataURL file = Normal (Some payload))
  /\ (forall url, readAsDataURL file = Normal url -> ~ In 44%N url ->
        fileToBase64 readAsDataURL file = Normal None)
  /\ (forall e, readAsDataURL file = Throw e ->
        fileToBase64 readAsDataURL file = Throw e).
Proof.
  unfold fileToBase64, afterFirstComma. repeat split.
  - intros header payload more -> Hh Hp Hmore. cbn [bind].
    rewrite split_on_first by exact Hh.
    destruct Hmore as [->|Hmore].
    + rewrite app_nil_r, split_on_none by exact Hp. reflexivity.
    + destruct more as [|c more]; [rewrite app_nil_r, split_on_none by exact Hp;
                                   reflexivity|].
      cbn [hd] in Hmore. subst c. rewrite split_on_first by exact Hp.
      reflexivity.
  - intros url -> Hu. cbn [bind]. rewrite split_on_none by exact Hu.
    reflexivity.
  - intros e ->. reflexivity.
Qed.

Lemma fileToBase64_payload_witness :
  fileToBase64 (fun _ => Normal (lit "data:image/png;base64,QUJD"))
    (mkFile (lit "image/png") 3) = Normal (Some (lit "QUJD")).
Proof.
  apply (proj1 (fileToBase64_payload
                  (fun _ => Normal (lit "data:image/png;base64,QUJD"))
                  (mkFile (lit "image/png") 3))
           (lit "data:image/png;base64") (lit "QUJD") []).
  - reflexivity.
  - vm_compute. intuition discriminate.
  - vm_compute. intuition discriminate.
  - left; reflexivity.
Defined.

(** X6: When [handleImageUpload] is done the page is not generating any more and
    shows either a recipe or an error message that is not empty, never both
    and never neither; the recipe is the one of a response that says
    [success] and carries a recipe; nothing of the recipe and error shown
    before is left. *)
Theorem handleImageUpload_outcome
  (fetchRecipe : RecipeRequest -> completion RecipeResponse)
  (unitSystem : UnitSystem) (base64 : jsstring) (st : PageState) :
  let st' := handleImageUpload fetchRecipe unitSystem base64 st in
  isGenerating st' = false
  /\ (page_recipe st' = None <-> page_error st' <> None)
  /\ (forall e, page_error st' = Some e -> e <> [])
  /\ (forall r, page_recipe st' = Some r <->
        exists result,
          fetchRecipe (mkRequest (Some base64) (Some unitSystem)) = Normal result
          /\ success result = true /\ recipe result = Some r)
  /\ st' = handleImageUpload fetchRecipe unitSystem base64 (mkPage None false None).
Proof.
  unfold handleImageUpload.
  destruct (fetchRecipe _) as [[[|] [r|] err]|e];
    cbn [success recipe error page_recipe page_error isGenerating];
    (split; [reflexivity|]);
    (split; [split; [discriminate || congruence|congruence]|]);
    (split; [intros e0 [= <-];
             try discriminate;
             destruct err as [[|c t]|]; discriminate|]);
    (split; [|reflexivity]); intros r0; split;
    try discriminate;
    try (intros (result & [= <-] & Hs & Hr); cbn in Hs, Hr; congruence);
    try (intros (result & Hx & _); discriminate).
  intros [= <-]. eexists. repeat split.
Qed.

End ClientFacts.

(* ================================================================== *)
(** ** The handler, path by path *)

Module HandlerFacts.
Import JS JSON Units Route Client Model.
Local Open Scope string_scope.
Local Open Scope list_scope.

(** The handler on a request whose image is there, with a configured key. *)
Lemma POST_with_image (key : option jsstring) (openai : service)
  (image : jsstring) (u : option UnitSystem) (calls : list ChatRequest) :
  image <> [] -> keyNotConfigured key = false ->
  POST key openai (Normal (mkRequest (Some image) u)) calls
  = match openai (chatRequestFor image) with
    | Normal (Some (d :: content)) =>
        match parseRecipeFromResponse (d :: content) with
        | Normal recipe =>
            (Normal (mkHttp (mkResponse true (Some recipe) None) 200),
             calls ++ [chatRequestFor image])
        | Throw _ =>
            (Normal (mkHttp (mkResponse false None
                       (Some (lit "Failed to generate recipe. Please try again.")))
                       500),
             calls ++ [chatRequestFor image])
        end
    | _ =>
        (Normal (mkHttp (mkResponse false None
                   (Some (lit "Failed to generate recipe. Please try again.")))
                   500),
         calls ++ [chatRequestFor image])
    end.
Proof.
  intros Himage Hkey. unfold POST, io_try, io_bind, lift. cbn [imageBase64].
  destruct image as [|c image]; [congruence|].
  rewrite Hkey. unfold create. fold (chatRequestFor (c :: image)).
  destruct (openai (chatRequestFor (c :: image))) as [[[|d content]|]|e];
    unfold throw, ret, lift; try reflexivity.
  destruct (parseRecipeFromResponse (d :: content)); reflexivity.
Qed.

(** X7: Every run of the handler ends with a response, never with an exception;
    the response has status 200, 400 or 500; it carries [success: true]
    exactly when the status is 200, exactly when it carries a recipe, and
    exactly when it carries no error message; and the handler has called the
    external service once at most. *)
Theorem POST_response_invariant (key : option jsstring) (openai : service)
  (req : completion RecipeRequest) (calls : list ChatRequest) :
  exists http made,
    POST key openai req calls = (Normal http, calls ++ made)
    /\ List.length made <= 1
    /\ (status http = 200 \/ status http = 400 \/ status http = 500)
    /\ (success (body http) = true <-> status http = 200)
    /\ (success (body http) = true <-> recipe (body http) <> None)
    /\ (success (body http) = true <-> error (body http) = None).
Proof.
  assert (Hfail : forall made, List.length made <= 1 ->
    exists http made0,
      (Normal (mkHttp (mkResponse false None
                 (Some (lit "Failed to generate recipe. Please try again.")))
                 500), calls ++ made)
      = (Normal http, calls ++ made0)
      /\ List.length made0 <= 1
      /\ (status http = 200 \/ status http = 400 \/ status http = 500)
      /\ (success (body http) = true <-> status http = 200)
      /\ (success (body http) = true <-> recipe (body http) <> None)
      /\ (success (body http) = true <-> error (body http) = None)).
  { intros made Hm. eexists; exists made. split; [reflexivity|].
    cbn [status body success recipe error].
    repeat split; auto; intros; try discriminate; congruence. }
  assert (Hok : forall r made, List.length made <= 1 ->
    exists http made0,
      (Normal (mkHttp (mkResponse true (Some r) None) 200), calls ++ made)
      = (Normal http, calls ++ made0)
      /\ List.length made0 <= 1
      /\ (status http = 200 \/ status http = 400 \/ status http = 500)
      /\ (success (body http) = true <-> status http = 200)
      /\ (success (body http) = true <-> recipe (body http) <> None)
      /\ (success (body http) = true <-> error (body http) = None)).
  { intros r made Hm. eexists; exists made. split; [reflexivity|].
    cbn [status body success recipe error].
    repeat split; auto; intros; try discriminate. }
  destruct req as [[image u]|e].
  - destruct image as [[|c image]|].
    + exists (mkHttp (mkResponse false None (Some (lit "Image data required"))) 400), [].
      rewrite app_nil_r. split; [reflexivity|].
      cbn [status body success recipe error List.length].
      repeat split; auto; intros; try discriminate; congruence.
    + destruct (keyNotConfigured key) eqn:Hkey.
      * unfold POST, io_try, io_bind, lift. cbn [imageBase64]. rewrite Hkey.
        unfold ret. specialize (Hok sampleRecipe []). rewrite app_nil_r in Hok.
        apply Hok. cbn; lia.
      * rewrite (POST_with_image key openai (c :: image) u calls) by
          (discriminate || exact Hkey).
        destruct (openai (chatRequestFor (c :: image))) as [[[|d content]|]|e];
          try (apply Hfail; cbn; lia).
        destruct (RecoveryClaims.parse_cases (d :: content)) as (r & -> & _).
        apply Hok. cbn; lia.
    + exists (mkHttp (mkResponse false None (Some (lit "Image data required"))) 400), [].
      rewrite app_nil_r. split; [reflexivity|].
      cbn [status body success recipe error List.length].
      repeat split; auto; intros; try discriminate; congruence.
  - unfold POST, io_try, io_bind, lift, ret.
    specialize (Hfail []). rewrite app_nil_r in Hfail. apply Hfail. cbn; lia.
Qed.



(** X9: Whatever goes wrong is answered with status 500 and one fixed message,
    in which nothing of the exception shows: a body that is not JSON (no call
    is made then, and the status is not 400), a call that throws, and a call
    that returns no content or an empty one. *)
Theorem POST_failures_look_alike (key : option jsstring) (openai : service)
  (calls : list ChatRequest) :
  let failure :=
    Normal (mkHttp (mkResponse false None
              (Some (lit "Failed to generate recipe. Please try again.")))
              500) in
  (forall e, POST key openai (Throw e) calls = (failure, calls))
  /\ (forall (image : jsstring) (u : option UnitSystem),
        image <> [] -> keyNotConfigured key = false ->
        (openai (chatRequestFor image) = Normal None
         \/ openai (chatRequestFor image) = Normal (Some [])
         \/ exists e, openai (chatRequestFor image) = Throw e) ->
        POST key openai (Normal (mkRequest (Some image) u)) calls
        = (failure, calls ++ [chatRequestFor image])).
Proof.
  split; [reflexivity|].
  intros image u Himage Hkey Hservice.
  rewrite (POST_with_image key openai image u calls Himage Hkey).
  destruct Hservice as [->|[->|[e ->]]]; reflexivity.
Qed.

Lemma POST_failures_look_alike_witness :
  POST (Some (lit "sk-test")) silentService
       (Normal (mkRequest (Some (lit "abc")) None)) []
  = (Normal (mkHttp (mkResponse false None
               (Some (lit "Failed to generate recipe. Please try again.")))
               500), [chatRequestFor (lit "abc")]).
Proof.
  apply (proj2 (POST_failures_look_alike (Some (lit "sk-test")) silentService [])
           (lit "abc") None).
  - discriminate.
  - vm_compute; reflexivity.
  - left; reflexivity.
Defined.

(** X10: Once the external service has returned a content that is not empty, the
    handler answers with status 200 and the recipe that
    [parseRecipeFromResponse] makes of the content: no content makes it
    answer with an error. *)
Theorem POST_content_is_served (key : option jsstring) (openai : service)
  (image : jsstring) (u : option UnitSystem) (calls : list ChatRequest)
  (content : jsstring) :
  image <> [] -> keyNotConfigured key = false ->
  openai (chatRequestFor image) = Normal (Some content) -> content <> [] ->
  exists r,
    parseRecipeFromResponse content = Normal r
    /\ wellFormedRecipe r = true
    /\ POST key openai (Normal (mkRequest (Some image) u)) calls
       = (Normal (mkHttp (mkResponse true (Some r) None) 200),
          calls ++ [chatRequestFor image]).
Proof.
  intros Himage Hkey Hservice Hcontent.
  destruct content as [|d content]; [congruence|].
  rewrite (POST_with_image key openai image u calls Himage Hkey), Hservice.
  destruct (RecoveryClaims.parse_cases (d :: content)) as (r & Hr & Hfrom).
  exists r. rewrite Hr. repeat split.
  destruct Hfrom as [Ht|(text & v & _ & Hv)].
  - destruct (RecoveryFacts.extract_valid (d :: content)) as (r' & Hr' & Hvalid).
    rewrite Ht in Hr'. injection Hr' as <-.
    apply RecoveryFacts.valid_wellFormed, Hvalid.
  - eapply RecoveryFacts.validate_wellFormed, Hv.
Qed.

Lemma POST_content_is_served_witness :
  exists r,
    parseRecipeFromResponse (lit "42") = Normal r
    /\ wellFormedRecipe r = true
    /\ POST (Some (lit "sk-test")) (fun _ => Normal (Some (lit "42")))
            (Normal (mkRequest (Some (lit "abc")) None)) []
       = (Normal (mkHttp (mkResponse true (Some r) None) 200),
          [] ++ [chatRequestFor (lit "abc")]).
Proof.
  apply (POST_content_is_served (Some (lit "sk-test"))
           (fun _ => Normal (Some (lit "42"))) (lit "abc") None [] (lit "42")).
  - discriminate.
  - vm_compute; reflexivity.
  - reflexivity.
  - discriminate.
Defined.

End HandlerFacts.

(* ================================================================== *)
(** ** The upload component and the page *)

Module PageFacts.
Import JS JSON Units Route Client Model ClientFacts HandlerFacts.
Local Open Scope string_scope.
Local Open Scope list_scope.

(** X11: The page behind the route.  When the module of the route does not
    load (the constructor of the client throws, as it does for a key that is
    not set), no request is answered with JSON and the page shows the
    network error.  When the module loads, [POST] always answers, so the
    page never shows the network error: an empty image shows "Image data
    required"; with a key that is empty or holds the placeholder the page
    shows the sample recipe; with a configured key it shows the recipe made
    of the content of the external service when there is one, and the
    message of the handler when the call fails or returns no content. *)
Theorem page_through_route (OpenAI : option jsstring -> completion service)
  (key : option jsstring) (unitSystem : UnitSystem) (base64 : jsstring)
  (st : PageState) :
  let st' := handleImageUpload (viaRoute OpenAI key) unitSystem base64 st in
  (forall e, OpenAI key = Throw e ->
     page_recipe st' = None
     /\ page_error st'
        = Some (lit "Network error. Please check your connection and try again."))
  /\ (forall openai : service, OpenAI key = Normal openai ->
      page_error st'
        <> Some (lit "Network error. Please check your connection and try again.")
      /\ (base64 = [] -> page_error st' = Some (lit "Image data required"))
      /\ (base64 <> [] -> keyNotConfigured key = true ->
          page_recipe st' = Some sampleRecipe)
      /\ (forall content : jsstring,
            base64 <> [] -> keyNotConfigured key = false ->
            openai (chatRequestFor base64) = Normal (Some content) ->
            content <> [] ->
            exists r, parseRecipeFromResponse content = Normal r
                      /\ page_recipe st' = Some r)
      /\ (base64 <> [] -> keyNotConfigured key = false ->
          (openai (chatRequestFor base64) = Normal None
           \/ openai (chatRequestFor base64) = Normal (Some [])
           \/ exists e, openai (chatRequestFor base64) = Throw e) ->
          page_error st'
          = Some (lit "Failed to generate recipe. Please try again."))).
Proof.
  cbv zeta. unfold handleImageUpload, viaRoute, route, io_bind, lift. split.
  - intros e ->. split; reflexivity.
  - intros openai ->.
    destruct base64 as [|b base64].
    + cbn. split; [discriminate|]. split; [reflexivity|].
      repeat split; intros; congruence.
    + destruct (keyNotConfigured key) eqn:Hkey.
      * unfold POST, io_try, io_bind, lift. cbn [imageBase64]. rewrite Hkey.
        cbn. split; [discriminate|]. split; [discriminate|].
        split; [reflexivity|]. repeat split; intros; discriminate.
      * rewrite (POST_with_image key openai (b :: base64) (Some unitSystem) [])
          by (discriminate || exact Hkey).
        destruct (openai (chatRequestFor (b :: base64)))
          as [[[|d content]|]|e] eqn:Hs;
          try (cbn; split; [discriminate|]; split; [discriminate|];
               split; [discriminate|]; split; [|reflexivity];
               intros content _ _ [= <-] H; congruence).
        destruct (RecoveryClaims.parse_cases (d :: content)) as (r & Hr & _).
        rewrite Hr. cbn. split; [discriminate|]. split; [discriminate|].
        split; [discriminate|]. split.
        -- intros content0 _ _ [= <-] _. exists r. split; [exact Hr|reflexivity].
        -- intros _ _ [H|[H|[e H]]]; discriminate.
Qed.

Lemma page_through_route_witness :
  page_error
    (handleImageUpload (viaRoute (clientOf silentService) None) metric
       (lit "QUJD") (mkPage None false None))
  = Some (lit "Network error. Please check your connection and try again.").
Proof.
  apply (proj1 (page_through_route (clientOf silentService) None metric
                  (lit "QUJD") (mkPage None false None))
           (Error (lit "The OPENAI_API_KEY environment variable is missing or empty"))).
  reflexivity.
Defined.

(** X12: [onDrop] hands an image to the upload exactly when a file was dropped,
    the first file passes [validateImageFile] and its compression succeeds;
    it hands over the compressed image of that file, one image at most, and
    the files after the first are not looked at. *)
Theorem onDrop_uploads_valid_files (createObjectURL : File -> jsstring)
  (compress : File -> awaited jsstring) (acceptedFiles : list File)
  (st : UploadState) (base64 : jsstring) :
  (snd (onDrop createObjectURL compress acceptedFiles st) = [base64]
   <-> exists file others,
         acceptedFiles = file :: others
         /\ In (file_type file) validTypes
         /\ (file_size file <= 10485760)%N
         /\ compress file = Settled (Normal base64))
  /\ List.length (snd (onDrop createObjectURL compress acceptedFiles st)) <= 1
  /\ onDrop createObjectURL compress acceptedFiles st
     = onDrop createObjectURL compress (firstn 1 acceptedFiles) st.
Proof.
  unfold onDrop. destruct acceptedFiles as [|file others].
  - cbn. repeat split; try lia; try discriminate.
    intros (f & o & H & _). discriminate.
  - cbn [firstn].
    pose proof (validateImageFile_valid file) as Hvalid.
    destruct (valid (validateImageFile file)) eqn:Ev; cbn [negb].
    + destruct (proj1 Hvalid eq_refl) as [Ht Hs].
      destruct (compress file) as [[b|e]|] eqn:Ec; cbn [snd List.length].
      * repeat split; try lia.
        -- intros [= <-]. exists file, others. repeat split; assumption.
        -- intros (f & o & [= <- <-] & _ & _ & Hc). congruence.
      * repeat split; try lia; try discriminate.
        intros (f & o & [= <- <-] & _ & _ & Hc). congruence.
      * repeat split; try lia; try discriminate.
        intros (f & o & [= <- <-] & _ & _ & Hc). congruence.
    + cbn [snd List.length]. repeat split; try lia; try discriminate.
      intros (f & o & [= <- <-] & Ht & Hs & _).
      assert (false = true) by (apply Hvalid; split; assumption).
      discriminate.
Qed.

(** X13: The state that [onDrop] leaves: no file, nothing changes; a file that
    [validateImageFile] refuses leaves the preview as it was, sets the
    message of the validation and uploads nothing; an accepted file replaces
    the preview.  What follows depends on the promise of the compression.
    When it never settles ([compressImage] has no [onerror]: an image that
    does not load), [onDrop] stays at the [await]: the new preview is shown,
    the error is cleared and stays so, and nothing is uploaded.  The message
    of a failed processing is set exactly when the awaited promise rejects,
    and then the new preview stays.  An error message that is set is never
    empty. *)
Theorem onDrop_state (createObjectURL : File -> jsstring)
  (compress : File -> awaited jsstring) (file : File) (others : list File)
  (st : UploadState) :
  let out := onDrop createObjectURL compress (file :: others) st in
  onDrop createObjectURL compress [] st = (st, [])
  /\ (valid (validateImageFile file) = false ->
      preview (fst out) = preview st
      /\ upload_error (fst out) = validation_error (validateImageFile file)
      /\ snd out = [])
  /\ (valid (validateImageFile file) = true ->
      preview (fst out) = Some (createObjectURL file)
      /\ (compress file = Pending ->
          upload_error (fst out) = None /\ snd out = [])
      /\ (upload_error (fst out)
          = Some (lit "Failed to process image. Please try again.")
          <-> exists e, compress file = Settled (Throw e))
      /\ (upload_error (fst out) = None
          <-> compress file = Pending
              \/ exists b, compress file = Settled (Normal b)))
  /\ (forall e, upload_error (fst out) = Some e -> e <> []).
Proof.
  cbv zeta. unfold onDrop. split; [reflexivity|].
  unfold validateImageFile.
  destruct (Array_includes validTypes (file_type file)); cbn [negb].
  - destruct (maxSize <? file_size file)%N; cbn [valid validation_error negb].
    + repeat split; try discriminate. intros e [= <-]. discriminate.
    + destruct (compress file) as [[b|e]|];
        cbn [fst snd preview upload_error].
      * split; [discriminate|]. split; [|discriminate]. intros _.
        split; [reflexivity|]. split; [discriminate|].
        split; [split; [discriminate|intros (e & He); discriminate]|].
        split; [intros _; right; eauto|reflexivity].
      * split; [discriminate|]. split.
        -- intros _. split; [reflexivity|]. split; [discriminate|].
           split; [split; [eauto|reflexivity]|].
           split; [discriminate|].
           intros [H|(b & H)]; discriminate.
        -- intros e0 [= <-]. discriminate.
      * split; [discriminate|]. split; [|discriminate]. intros _.
        split; [reflexivity|]. split; [intros _; split; reflexivity|].
        split; [split; [discriminate|intros (e & He); discriminate]|].
        split; [intros _; left; reflexivity|reflexivity].
  - cbn [valid validation_error negb].
    repeat split; try discriminate. intros e [= <-]. discriminate.
Qed.

Lemma onDrop_state_witness :
  let file := mkFile (lit "image/png") 10 in
  let out := onDrop (fun _ => lit "blob:1") (fun _ => Pending)
               [file] (mkUpload (Some (lit "blob:0")) (Some (lit "old"))) in
  preview (fst out) = Some (lit "blob:1")
  /\ upload_error (fst out) = None /\ snd out = [].
Proof.
  cbv zeta.
  destruct (proj1 (proj2 (proj2 (onDrop_state (fun _ => lit "blob:1")
                         (fun _ => Pending)
                         (mkFile (lit "image/png") 10) []
                         (mkUpload (Some (lit "blob:0")) (Some (lit "old"))))))
              ltac:(vm_compute; reflexivity)) as (Hp & Hpending & _).
  split; [exact Hp|]. apply Hpending. reflexivity.
Defined.

End PageFacts.

(* ================================================================== *)
(** ** The pipeline and free-text extraction, pattern by pattern *)

Module PipelineFacts.
Import JS JSON Units Route Client Model Notions StarFacts.
Local Open Scope string_scope.
Local Open Scope list_scope.

(** X14: A text that is the JSON text of a number, a string, a boolean or an
    array is not taken for free text: the pipeline returns the Recipe made
    of defaults only, titled "Unknown Dish", whose two lists are empty (no
    placeholder).  The JSON text [null] is not treated so: reading a property
    of [null] throws, and the text goes to free-text extraction, which takes
    it for a title. *)
Theorem non_object_json_gives_defaults :
  (forall (content : jsstring) (v : value),
     JSON_parse content = Normal v -> isScalarOrArray v = true ->
     parseRecipeFromResponse content = Normal defaultRecipe)
  /\ parseRecipeFromResponse (lit "null") = Normal {|
       title := VStr (lit "null");
       description := VStr (lit "Recipe generated from image analysis");
       ingredients := VArr [placeholderIngredient];
       instructions := VArr [placeholderInstruction];
       cookingTime := VUndefined;
       servings := VUndefined |}.
Proof.
  split; [|vm_compute; reflexivity].
  intros content v Hv Hs. unfold parseRecipeFromResponse, parseStructured.
  rewrite Hv. cbn [bind]. destruct v; try discriminate; reflexivity.
Qed.

Lemma non_object_json_gives_defaults_witness :
  parseRecipeFromResponse (lit "[1, 2]") = Normal defaultRecipe.
Proof.
  apply (proj1 non_object_json_gives_defaults (lit "[1, 2]")
           (VArr [VNum 1 0; VNum 2 0])).
  - vm_compute; reflexivity.
  - reflexivity.
Defined.

(** X15: What free-text extraction returns, on every text: a description that is
    the fixed sentence, two lists that are never empty, and neither a cooking
    time nor a number of servings. *)
Theorem extraction_shape (content : jsstring) :
  exists t ings inss,
    extractRecipeFromText content = Normal {|
      title := VStr t;
      description := VStr (lit "Recipe generated from image analysis");
      ingredients := VArr ings;
      instructions := VArr inss;
      cookingTime := VUndefined;
      servings := VUndefined |}
    /\ t = titleOf content
    /\ ings <> [] /\ inss <> [].
Proof.
  unfold extractRecipeFromText.
  destruct (RecoveryFacts.ingredientsOfSection_total content) as (l1 & -> & _).
  destruct (RecoveryFacts.instructionsOfSection_total content) as (l2 & -> & _).
  cbn [bind]. do 3 eexists. split; [reflexivity|]. split; [reflexivity|].
  split.
  - destruct (fst (sentenceFallback content (l1, l2))); cbn [isNil]; discriminate.
  - destruct (snd (sentenceFallback content (l1, l2))); cbn [isNil]; discriminate.
Qed.

Lemma firstn_exact (k : nat) (u t : jsstring) :
  k = List.length u -> firstn k (u ++ t) = u.
Proof.
  intros ->. rewrite <- (Nat.add_0_r (List.length u)), firstn_app_2.
  cbn [firstn]. apply app_nil_r.
Qed.

(** The braces pattern at its leftmost match: from the first opening brace
    to the last closing brace. *)
Lemma braces_first (pre mid post : jsstring) :
  ~ In 123%N pre -> ~ In 125%N post ->
  String_match (pre ++ 123%N :: mid ++ 125%N :: post) bracedJson
  = Some (MatchArray (List.length pre)
            (List.length pre + List.length (123%N :: mid ++ [125%N]))
            [(1, 123%N :: mid ++ [125%N])]).
Proof.
  intros Hpre Hpost.
  assert (Hat : match_at bracedJson (0 + List.length pre)
                  (123%N :: mid ++ 125%N :: post)
                = Some (MState (List.length pre
                                + List.length (123%N :: mid ++ [125%N]))
                          post [(1, 123%N :: mid ++ [125%N])])).
  { unfold match_at, bracedJson, chr, anyUnit. rewrite run_runk. cbn [Cat].
    rewrite runk_Group, runk_Seq. chr_true. rewrite runk_Seq, runk_Star_class.
    change (fun _ : N => true) with anyp.
    apply greedy_any_last.
    - intros [|j] Hj; [lia|]. cbn [skipn]. apply runk_Chr_skipn_fails.
      apply forallb_forall. intros c Hc.
      destruct (N.eqb_spec 125 c) as [<-|]; [contradiction|reflexivity].
    - chr_true. cbn [pos rest caps hd_error Nat.add].
      replace (123%N :: mid ++ 125%N :: post)
        with ((123%N :: mid ++ [125%N]) ++ post)
        by (cbn [app]; rewrite <- app_assoc; reflexivity).
      rewrite firstn_exact
        by (cbn [List.length]; rewrite length_app; cbn [List.length]; lia).
      do 2 f_equal. cbn [List.length]. rewrite length_app.
      cbn [List.length]. lia. }
  unfold String_match.
  rewrite (exec_from_leftmost bracedJson pre 0 _ _) with (2 := Hat);
    [reflexivity|].
  intros j Hj. unfold match_at, bracedJson, chr. rewrite run_runk. cbn [Cat].
  rewrite runk_Group, runk_Seq.
  destruct (SectionFacts.skipn_in pre j Hj) as (c & t & -> & Hc).
  cbn [app]. rewrite runk_Chr_false; [reflexivity|].
  destruct (N.eqb_spec 123 c) as [<-|]; [contradiction|reflexivity].
Qed.

(** X16: A JSON object inside prose, without a fence: the candidate of the
    extraction step runs from the first opening brace of the text to its
    last closing brace, and when it parses, the pipeline returns what it
    returns on the candidate alone. *)
Theorem embedded_object_is_found (pre mid post : jsstring) :
  let content := pre ++ 123%N :: mid ++ 125%N :: post in
  ~ In 123%N pre -> ~ In 125%N post ->
  String_match content fencedJson = None ->
  isThrow (JSON_parse content) = true ->
  jsonCandidate content = Some (123%N :: mid ++ [125%N])
  /\ (forall r, parseStructured (123%N :: mid ++ [125%N]) = Normal r ->
        parseRecipeFromResponse content = Normal r).
Proof.
  intros content Hpre Hpost Hfence Hdirect.
  assert (Hc : jsonCandidate content = Some (123%N :: mid ++ [125%N])).
  { unfold jsonCandidate, match_or. rewrite Hfence. unfold content.
    rewrite (braces_first pre mid post Hpre Hpost). reflexivity. }
  split; [exact Hc|].
  intros r Hr. unfold parseRecipeFromResponse.
  assert (Hd : exists e, parseStructured content = Throw e).
  { unfold parseStructured. destruct (JSON_parse content); [discriminate|].
    cbn [bind]. eauto. }
  destruct Hd as [e ->]. cbn [try_catch]. rewrite Hc, Hr. reflexivity.
Qed.

Lemma embedded_object_is_found_witness :
  let content := lit "Here you go: " ++ 123%N :: dq "'title':'Soup'"
                 ++ 125%N :: lit " Enjoy!" in
  jsonCandidate content = Some (123%N :: dq "'title':'Soup'" ++ [125%N])
  /\ (forall r, parseStructured (123%N :: dq "'title':'Soup'" ++ [125%N])
                = Normal r ->
        parseRecipeFromResponse content = Normal r).
Proof.
  apply (embedded_object_is_found (lit "Here you go: ") (dq "'title':'Soup'")
           (lit " Enjoy!")).
  - vm_compute. intuition discriminate.
  - vm_compute. intuition discriminate.
  - vm_compute; reflexivity.
  - vm_compute; reflexivity.
Defined.


(* ------------------------------------------------------------------ *)
(** Iterations of a class, all the states tried *)

(** A greedy iteration of a class followed by [k], when [k] fails wherever
    the iteration could stop early. *)
Lemma greedy_class_all (p : N -> bool) (k : mstate -> list mstate)
  (w : jsstring) : forall n s cs,
  forallb p w = true -> stops p s ->
  (forall j, j < List.length w ->
     k (MState (n + j) (skipn j w ++ s) cs) = []) ->
  flat_map k (star_class true p n (w ++ s) cs)
  = k (MState (n + List.length w) s cs).
Proof.
  induction w as [|c w IH]; intros n s cs Hw Hs Hfail.
  - cbn [app List.length]. rewrite Nat.add_0_r.
    destruct s as [|c s]; cbn [star_class].
    + apply flat_map_single.
    + cbn [stops] in Hs. rewrite Hs. apply flat_map_single.
  - cbn [forallb] in Hw. apply andb_true_iff in Hw. destruct Hw as [Hc Hw].
    cbn [app star_class]. rewrite Hc, flat_map_app, flat_map_single.
    pose proof (Hfail 0) as H0. cbn [skipn List.length app] in H0.
    rewrite Nat.add_0_r in H0. rewrite H0 by lia. rewrite app_nil_r.
    rewrite (IH (S n) s cs Hw Hs).
    + cbn [List.length]. rewrite Nat.add_succ_r. reflexivity.
    + intros j Hj. specialize (Hfail (S j)). cbn [skipn List.length] in Hfail.
      rewrite Nat.add_succ_r in Hfail. apply Hfail. lia.
Qed.

(** A greedy iteration of a class that reaches the end of the input, when
    [k] fails there: the iteration gives back its last code unit. *)
Lemma greedy_class_backtrack (p : N -> bool) (k : mstate -> list mstate)
  (w : jsstring) (c : N) : forall n cs y,
  forallb p w = true -> p c = true ->
  k (MState (S (n + List.length w)) [] cs) = [] ->
  hd_error (k (MState (n + List.length w) [c] cs)) = Some y ->
  hd_error (flat_map k (star_class true p n (w ++ [c]) cs)) = Some y.
Proof.
  induction w as [|c0 w IH]; intros n cs y Hw Hc Hend Hk.
  - cbn [app List.length] in *. rewrite Nat.add_0_r in *.
    cbn [star_class]. rewrite Hc. cbn [app flat_map].
    rewrite Hend, app_nil_r. cbn [app]. exact Hk.
  - cbn [forallb] in Hw. apply andb_true_iff in Hw. destruct Hw as [Hc0 Hw].
    cbn [app star_class]. rewrite Hc0, flat_map_app, hd_error_app.
    cbn [List.length] in *. rewrite Nat.add_succ_r in *.
    rewrite (IH (S n) cs y); [reflexivity|assumption..].
Qed.

(** A lazy iteration of a class followed by [k]: the first index at which
    [k] matches. *)
Lemma lazy_class_first (p : N -> bool) (k : mstate -> list mstate)
  (w : jsstring) : forall n s cs y,
  forallb p w = true ->
  (forall j, j < List.length w ->
     k (MState (n + j) (skipn j w ++ s) cs) = []) ->
  hd_error (k (MState (n + List.length w) s cs)) = Some y ->
  hd_error (flat_map k (star_class false p n (w ++ s) cs)) = Some y.
Proof.
  induction w as [|c w IH]; intros n s cs y Hw Hfail Hk.
  - cbn [app List.length] in *. rewrite Nat.add_0_r in *.
    destruct s as [|c s]; cbn [star_class].
    + rewrite flat_map_single. exact Hk.
    + destruct (p c); cbn [flat_map]; rewrite hd_error_app, Hk; reflexivity.
  - cbn [forallb] in Hw. apply andb_true_iff in Hw. destruct Hw as [Hc Hw].
    cbn [app star_class]. rewrite Hc. cbn [flat_map]. rewrite hd_error_app.
    pose proof (Hfail 0) as H0. cbn [skipn List.length app] in H0.
    rewrite Nat.add_0_r in H0. rewrite H0 by lia. cbn [hd_error].
    cbn [List.length] in *. rewrite Nat.add_succ_r in *.
    apply IH; [exact Hw| |exact Hk].
    intros j Hj. specialize (Hfail (S j)). cbn [skipn] in Hfail.
    rewrite Nat.add_succ_r in Hfail. apply Hfail. lia.
Qed.

(** A lazy iteration of a class followed by [k], when [k] fails everywhere
    along the run of the class. *)
Lemma lazy_class_none (p : N -> bool) (k : mstate -> list mstate)
  (w : jsstring) : forall n s cs,
  forallb p w = true -> stops p s ->
  (forall j, j <= List.length w ->
     k (MState (n + j) (skipn j w ++ s) cs) = []) ->
  flat_map k (star_class false p n (w ++ s) cs) = [].
Proof.
  induction w as [|c w IH]; intros n s cs Hw Hs Hfail.
  - specialize (Hfail 0). cbn [app List.length skipn] in *.
    rewrite Nat.add_0_r in Hfail.
    destruct s as [|c s]; cbn [star_class].
    + rewrite flat_map_single. apply Hfail. lia.
    + cbn [stops] in Hs. rewrite Hs, flat_map_single. apply Hfail. lia.
  - cbn [forallb] in Hw. apply andb_true_iff in Hw. destruct Hw as [Hc Hw].
    cbn [app star_class]. rewrite Hc. cbn [flat_map].
    pose proof (Hfail 0) as H0. cbn [skipn List.length app] in H0.
    rewrite Nat.add_0_r in H0. rewrite H0 by lia. cbn [app].
    apply IH; [exact Hw|exact Hs|].
    intros j Hj. specialize (Hfail (S j)). cbn [skipn List.length] in Hfail.
    rewrite Nat.add_succ_r in Hfail. apply Hfail. lia.
Qed.

(** A pattern that starts with [^] matches at index 0 only. *)
Lemma anchored_later (r : regex) (s : jsstring) : forall p,
  0 < p -> exec_from (Seq Bol r) p s = None.
Proof.
  induction s as [|c s IH]; intros p Hp; cbn [exec_from run pos].
  - destruct p; [lia|]. reflexivity.
  - destruct p; [lia|]. cbn [Nat.eqb flat_map]. apply IH. lia.
Qed.

Lemma anchored_match (r : regex) (s : jsstring) :
  String_match s (Seq Bol r)
  = match run r (MState 0 s []) with
    | y :: _ => Some (MatchArray 0 (pos y) (caps y))
    | [] => None
    end.
Proof.
  unfold String_match.
  destruct s as [|c s]; cbn [exec_from run pos Nat.eqb flat_map];
    rewrite app_nil_r; destruct (run r _); try reflexivity.
  apply anchored_later. lia.
Qed.

Lemma word_not_space (c : N) : isWord c = true -> isSpace c = false.
Proof.
  unfold isWord, isDigit, isSpace, isLineTerminator. intros H.
  repeat match goal with
  | |- context [N.eqb c ?k] => destruct (N.eqb_spec c k); [subst c; discriminate|]
  end.
  destruct (N.leb_spec 8192 c) as [Hc|Hc]; [|reflexivity].
  exfalso. revert H.
  replace (c <=? 122)%N with false by (symmetry; apply N.leb_gt; lia).
  replace (c <=? 90)%N with false by (symmetry; apply N.leb_gt; lia).
  replace (c <=? 57)%N with false by (symmetry; apply N.leb_gt; lia).
  replace (c =? 95)%N with false by (symmetry; apply N.eqb_neq; lia).
  rewrite !andb_false_r. discriminate.
Qed.

Lemma space_not_word (c : N) : isSpace c = true -> isWord c = false.
Proof.
  intros H. destruct (isWord c) eqn:E; [|reflexivity].
  apply word_not_space in E. congruence.
Qed.

Lemma space_not_digit (c : N) : isSpace c = true -> isDigit c = false.
Proof.
  intros H. destruct (isDigit c) eqn:E; [|reflexivity].
  apply LineFacts.digit_not_space in E. congruence.
Qed.

Lemma word_on_line (c : N) : isWord c = true -> isLineTerminator c = false.
Proof.
  intros H. apply word_not_space in H. unfold isSpace in H.
  destruct (isLineTerminator c); [|reflexivity].
  rewrite orb_true_r in H. discriminate.
Qed.


(* ------------------------------------------------------------------ *)
(** The quantity pattern, part by part *)

Lemma quantified_parts :
  quantified = Seq Bol (Seq quantityGroup (Seq (Star true space) unitAndName)).
Proof. reflexivity. Qed.

Lemma allOf_facts (p : N -> bool) (s : jsstring) :
  allOf p s = true ->
  exists c t, s = c :: t /\ p c = true /\ forallb p t = true.
Proof.
  unfold allOf. destruct s as [|c t]; [discriminate|]. cbn [nonEmpty forallb andb].
  intros H. apply andb_true_iff in H. destruct H. eauto.
Qed.

(** The name: the rest of the line. *)
Lemma name_matches (n : nat) (name : jsstring) (cs : list (nat * jsstring)) :
  allOf onLine name = true ->
  exists n',
    hd_error (runk nameGroup (fun y => [y]) (MState n name cs))
    = Some (MState n' [] ((3, name) :: cs)).
Proof.
  intros H. destruct (allOf_facts _ _ H) as (c & t & -> & Hc & Ht).
  eexists. unfold nameGroup, Plus, dot.
  rewrite runk_Seq, runk_Group, runk_Seq.
  rewrite runk_Chr_true by exact Hc.
  rewrite runk_Star_class. rewrite <- (app_nil_r t) at 1.
  apply greedy_class_first; [exact Ht|exact I|].
  cbn [pos rest caps]. rewrite runk_Eol_nil. cbn [hd_error].
  rewrite <- (app_nil_r (c :: t)) at 1.
  rewrite firstn_exact by (cbn [List.length]; lia). reflexivity.
Qed.

(** White space, then the name. *)
Lemma spaces_then_name (n : nat) (sp name : jsstring)
  (cs : list (nat * jsstring)) :
  forallb isSpace sp = true -> allOf onLine name = true ->
  isSpace (hd 0%N name) = false ->
  exists n',
    hd_error (runk (Seq (Star true space) nameGroup) (fun y => [y])
                (MState n (sp ++ name) cs))
    = Some (MState n' [] ((3, name) :: cs)).
Proof.
  intros Hsp Hname Hhd.
  destruct (name_matches (n + List.length sp) name cs Hname) as [n' Hn].
  exists n'. unfold space. rewrite runk_Seq, runk_Star_class.
  apply greedy_class_first; [exact Hsp| |exact Hn].
  destruct name; [exact I|exact Hhd].
Qed.

(** A unit, white space and a name. *)
Lemma unit_and_name (n : nat) (unit sp name : jsstring)
  (cs : list (nat * jsstring)) :
  allOf isWord unit = true ->
  sp <> [] -> forallb isSpace sp = true ->
  allOf onLine name = true -> isSpace (hd 0%N name) = false ->
  exists n',
    hd_error (runk unitAndName (fun y => [y])
                (MState n (unit ++ sp ++ name) cs))
    = Some (MState n' [] ((3, name) :: (2, unit) :: cs)).
Proof.
  intros Hunit Hne Hsp Hname Hhd.
  destruct (allOf_facts _ _ Hunit) as (u & unit' & -> & Hu & Hunit').
  destruct (spaces_then_name (n + List.length (u :: unit')) sp name
              ((2, u :: unit') :: cs) Hsp Hname Hhd) as [n' Hn].
  exists n'. unfold unitAndName, Opt, Plus, word.
  rewrite runk_Seq, runk_Alt, hd_error_app.
  rewrite runk_Group, runk_Seq. cbn [app].
  rewrite runk_Chr_true by exact Hu. rewrite runk_Star_class.
  erewrite greedy_class_first; [reflexivity|exact Hunit'| |].
  - destruct sp as [|c sp]; [congruence|]. cbn [app stops].
    cbn [forallb] in Hsp. apply andb_true_iff in Hsp.
    apply space_not_word, Hsp.
  - cbn [pos rest caps].
    change (u :: unit' ++ sp ++ name) with ((u :: unit') ++ sp ++ name).
    rewrite firstn_exact by (cbn [List.length]; lia).
    replace (S n + List.length unit') with (n + List.length (u :: unit'))
      by (cbn [List.length]; lia).
    exact Hn.
Qed.

(** A word at the end of the line: the iteration of the unit gives back the
    last code unit of the word, which becomes the name. *)
Lemma unit_gives_back (n : nat) (unit : jsstring) (c : N)
  (cs : list (nat * jsstring)) :
  allOf isWord unit = true -> isWord c = true ->
  exists n',
    hd_error (runk unitAndName (fun y => [y])
                (MState n (unit ++ [c]) cs))
    = Some (MState n' [] ((3, [c]) :: (2, unit) :: cs)).
Proof.
  intros Hunit Hc.
  destruct (allOf_facts _ _ Hunit) as (u & unit' & -> & Hu & Hunit').
  eexists. unfold unitAndName, Opt, Plus, word.
  rewrite runk_Seq, runk_Alt, hd_error_app.
  rewrite runk_Group, runk_Seq. cbn [app].
  rewrite runk_Chr_true by exact Hu. rewrite runk_Star_class.
  erewrite greedy_class_backtrack; [reflexivity|exact Hunit'|exact Hc| |].
  - cbn [pos rest caps]. unfold nameGroup, space, Plus, dot.
    rewrite runk_Seq, runk_Star_class. cbn [star_class flat_map].
    rewrite runk_Seq, runk_Group, runk_Seq. reflexivity.
  - cbn [pos rest caps]. unfold nameGroup, space, Plus, dot.
    rewrite runk_Seq, runk_Star_class. cbn [star_class].
    rewrite (word_not_space c Hc). rewrite flat_map_single.
    rewrite runk_Seq, runk_Group, runk_Seq.
    rewrite runk_Chr_true by (rewrite (word_on_line c Hc); reflexivity).
    rewrite runk_Star_class. cbn [star_class]. rewrite flat_map_single.
    cbn [pos rest caps]. rewrite runk_Eol_nil. cbn [hd_error].
    change (u :: unit' ++ [c]) with ((u :: unit') ++ [c]).
    rewrite firstn_exact by (cbn [List.length]; lia).
    replace (S (S n + List.length unit') - (S n + List.length unit')) with 1
      by lia.
    reflexivity.
Qed.

Lemma dropWhile_all (p : N -> bool) (s : jsstring) :
  forallb p s = true -> dropWhile p s = [].
Proof.
  induction s as [|c s IH]; [reflexivity|]. cbn [forallb dropWhile].
  intros H. apply andb_true_iff in H. destruct H as [-> H]. apply IH, H.
Qed.

Lemma span_prefix (p : N -> bool) (s : jsstring) :
  exists w, s = w ++ dropWhile p s /\ forallb p w = true.
Proof.
  induction s as [|c s (w & Hw & Hp)].
  - exists []. split; reflexivity.
  - cbn [dropWhile]. destruct (p c) eqn:E.
    + exists (c :: w). cbn [app forallb]. rewrite E, Hp. split; [|reflexivity].
      f_equal. exact Hw.
    + exists []. split; reflexivity.
Qed.

(** A quantity is made of digits, or of digits, a slash and digits. *)
Lemma isQuantity_cases (q : jsstring) :
  isQuantity q = true ->
  isDigits q = true
  \/ exists num den, q = num ++ 47%N :: den
                     /\ isDigits num = true /\ isDigits den = true.
Proof.
  unfold isQuantity. intros H. apply andb_true_iff in H. destruct H as [Hd H].
  destruct (span_prefix isDigit q) as (w & Hq & Hw).
  assert (Hne : nonEmpty w = true).
  { destruct w as [|x w]; [|reflexivity]. cbn [app] in Hq.
    destruct q as [|c q]; [discriminate|]. cbn [hd dropWhile] in *.
    rewrite Hd in Hq. exfalso. clear -Hq.
    assert (L : List.length (dropWhile isDigit q) <= List.length q).
    { clear. induction q as [|c q IH]; cbn [dropWhile List.length]; [lia|].
      destruct (isDigit c); cbn [List.length]; lia. }
    rewrite <- Hq in L. cbn [List.length] in L. lia. }
  destruct (dropWhile isDigit q) as [|c den].
  - left. rewrite app_nil_r in Hq. subst q. unfold isDigits.
    rewrite Hne, Hw. reflexivity.
  - right. apply andb_true_iff in H. destruct H as [Hc Hden].
    apply N.eqb_eq in Hc. subst c. exists w, den. split; [exact Hq|].
    split; [|exact Hden]. unfold isDigits. rewrite Hne, Hw. reflexivity.
Qed.

Lemma isDigits_isQuantity (q : jsstring) :
  isDigits q = true -> isQuantity q = true.
Proof.
  intros H. destruct (LineFacts.isDigits_facts q H) as (d & ds & -> & Hd & Hds).
  unfold isQuantity. cbn [hd]. rewrite Hd.
  rewrite dropWhile_all by (cbn [forallb]; rewrite Hd, Hds; reflexivity).
  reflexivity.
Qed.

(** The quantity, before white space. *)
Lemma quantity_matches (k : mstate -> list mstate) (q tail : jsstring)
  (y : mstate) :
  isQuantity q = true -> isSpace (hd 0%N tail) = true -> tail <> [] ->
  hd_error (k (MState (List.length q) tail [(1, q)])) = Some y ->
  hd_error (runk quantityGroup k (MState 0 (q ++ tail) [])) = Some y.
Proof.
  intros Hq Hsp Hne Hk.
  destruct tail as [|s tail]; [congruence|]. cbn [hd] in Hsp.
  unfold quantityGroup, Opt, Plus, digit, chr.
  rewrite runk_Group, runk_Seq, runk_Seq.
  destruct (isQuantity_cases q Hq) as [Hq'|(num & den & -> & Hnum & Hden)];
    [clear Hq; rename Hq' into Hq|clear Hq].
  - destruct (LineFacts.isDigits_facts q Hq) as (d & ds & -> & Hd & Hds).
    cbn [app]. rewrite runk_Chr_true by exact Hd. rewrite runk_Star_class.
    apply greedy_class_first; [exact Hds|apply space_not_digit, Hsp|].
    rewrite runk_Alt, hd_error_app, runk_Seq.
    rewrite runk_Chr_false by (apply FenceFacts.space_not; [reflexivity|exact Hsp]).
    cbn [hd_error]. rewrite runk_Empty. cbn [pos rest caps].
    change (d :: ds ++ s :: tail) with ((d :: ds) ++ s :: tail).
    rewrite firstn_exact by (cbn [List.length]; lia).
    exact Hk.
  - destruct (LineFacts.isDigits_facts num Hnum) as (d & ds & -> & Hd & Hds).
    destruct (LineFacts.isDigits_facts den Hden) as (e & es & -> & He & Hes).
    rewrite <- app_assoc. cbn [app].
    rewrite runk_Chr_true by exact Hd. rewrite runk_Star_class.
    apply greedy_class_first; [exact Hds|reflexivity|].
    rewrite runk_Alt, hd_error_app, runk_Seq. chr_true.
    rewrite runk_Seq, runk_Chr_true by exact He. rewrite runk_Star_class.
    erewrite greedy_class_first; [reflexivity|exact Hes|apply space_not_digit, Hsp|].
    cbn [pos rest caps].
    replace (d :: ds ++ 47%N :: e :: es ++ s :: tail)
      with (((d :: ds) ++ 47%N :: e :: es) ++ s :: tail)
      by (rewrite <- app_assoc; reflexivity).
    rewrite firstn_exact
      by (rewrite length_app; cbn [List.length]; lia).
    replace (S (S (1 + List.length ds)) + List.length es)
      with (List.length ((d :: ds) ++ 47%N :: e :: es))
      by (rewrite length_app; cbn [List.length]; lia).
    exact Hk.
Qed.

Lemma isQuantity_nonEmpty (q : jsstring) :
  isQuantity q = true -> exists c t, q = c :: t.
Proof.
  intros H. destruct (isQuantity_cases q H) as [Hq|(num & den & -> & Hnum & _)].
  - destruct (LineFacts.isDigits_facts q Hq) as (d & ds & -> & _). eauto.
  - destruct (LineFacts.isDigits_facts num Hnum) as (d & ds & -> & _).
    cbn [app]. eauto.
Qed.

(** What [ingredientOfCleaned] pushes once [quantified] has matched with its
    three groups. *)
Lemma ingredient_of_groups (cleaned q unit name : jsstring) (n : nat) :
  q <> [] -> unit <> [] -> name <> [] ->
  match_at quantified 0 cleaned
    = Some (MState n [] [(3, name); (2, unit); (1, q)]) ->
  ingredientOfCleaned cleaned = [ingredient q unit name].
Proof.
  intros Hq Hu Hn Hm. unfold ingredientOfCleaned.
  assert (Hc : nonEmpty cleaned = true).
  { destruct cleaned; [|reflexivity]. vm_compute in Hm. discriminate. }
  rewrite Hc. unfold match_or, String_match.
  rewrite (exec_from_here _ _ _ _ Hm). unfold group. cbn [groups caps assoc Nat.eqb].
  destruct q; [congruence|]. destruct unit; [congruence|].
  destruct name; [congruence|]. reflexivity.
Qed.

(** The quantity pattern on a quantity, a unit and a name. *)
Lemma quantified_decomposes (q sp1 unit sp2 name : jsstring) :
  isQuantity q = true ->
  sp1 <> [] -> forallb isSpace sp1 = true ->
  allOf isWord unit = true ->
  sp2 <> [] -> forallb isSpace sp2 = true ->
  allOf onLine name = true -> isSpace (hd 0%N name) = false ->
  exists n',
    match_at quantified 0 (q ++ sp1 ++ unit ++ sp2 ++ name)
    = Some (MState n' [] [(3, name); (2, unit); (1, q)]).
Proof.
  intros Hq Hne1 Hsp1 Hunit Hne2 Hsp2 Hname Hhd.
  destruct (unit_and_name (List.length q + List.length sp1) unit sp2 name
              [(1, q)] Hunit Hne2 Hsp2 Hname Hhd) as [n' Hn].
  destruct (allOf_facts _ _ Hunit) as (u & unit' & Eu & Hu & _).
  exists n'. unfold match_at. rewrite run_runk, quantified_parts.
  rewrite runk_Seq, runk_Bol. cbn [pos Nat.eqb]. rewrite runk_Seq.
  apply quantity_matches; [exact Hq| |destruct sp1; [congruence|discriminate]|].
  - destruct sp1 as [|s sp1]; [congruence|]. cbn [app hd].
    cbn [forallb] in Hsp1. apply andb_true_iff in Hsp1. apply Hsp1.
  - unfold space. rewrite runk_Seq, runk_Star_class.
    apply greedy_class_first; [exact Hsp1| |exact Hn].
    rewrite Eu. cbn [app stops]. apply word_not_space, Hu.
Qed.

(** X17: A line made of a quantity, a unit and a name, with white space between
    them, is decomposed into the three: the quantity is the number (or the
    fraction), the unit the word after it, and the name the rest of the
    line. *)
Theorem quantity_unit_name (q sp1 unit sp2 name : jsstring) :
  isQuantity q = true ->
  sp1 <> [] -> forallb isSpace sp1 = true ->
  allOf isWord unit = true ->
  sp2 <> [] -> forallb isSpace sp2 = true ->
  allOf onLine name = true -> isSpace (hd 0%N name) = false ->
  ingredientOfCleaned (q ++ sp1 ++ unit ++ sp2 ++ name)
  = [ingredient q unit name].
Proof.
  intros Hq Hne1 Hsp1 Hunit Hne2 Hsp2 Hname Hhd.
  destruct (quantified_decomposes q sp1 unit sp2 name
              Hq Hne1 Hsp1 Hunit Hne2 Hsp2 Hname Hhd) as [n' Hm].
  destruct (isQuantity_nonEmpty q Hq) as (qc & qt & Eq).
  destruct (allOf_facts _ _ Hunit) as (u & unit' & Eu & _).
  destruct (allOf_facts _ _ Hname) as (a & name' & Ea & _).
  apply (ingredient_of_groups _ q unit name n' ); [| | |exact Hm].
  - rewrite Eq; discriminate.
  - rewrite Eu; discriminate.
  - rewrite Ea; discriminate.
Qed.

Lemma quantity_unit_name_witness :
  ingredientOfCleaned (lit "1/2" ++ lit " " ++ lit "cup" ++ lit " " ++ lit "brown sugar")
  = [ingredient (lit "1/2") (lit "cup") (lit "brown sugar")].
Proof.
  apply (quantity_unit_name (lit "1/2") (lit " ") (lit "cup") (lit " ")
           (lit "brown sugar")).
  - reflexivity.
  - discriminate.
  - reflexivity.
  - reflexivity.
  - discriminate.
  - reflexivity.
  - reflexivity.
  - reflexivity.
Defined.

(** X18: A line made of a quantity and one word of two code units or more has no
    name for the pattern to read, and the pattern makes one: the word
    without its last code unit is the unit, and the last code unit is the
    name.  So [2 eggs] is 2 of the unit [egg] of [s]. *)
Theorem last_letter_is_the_name (q sp unit : jsstring) (c : N) :
  isQuantity q = true ->
  sp <> [] -> forallb isSpace sp = true ->
  allOf isWord unit = true -> isWord c = true ->
  ingredientOfCleaned (q ++ sp ++ unit ++ [c]) = [ingredient q unit [c]].
Proof.
  intros Hq Hne Hsp Hunit Hc.
  destruct (unit_gives_back (List.length q + List.length sp) unit c
              [(1, q)] Hunit Hc) as [n' Hn].
  destruct (isQuantity_nonEmpty q Hq) as (qc & qt & Eq).
  destruct (allOf_facts _ _ Hunit) as (u & unit' & Eu & Hu & _).
  apply (ingredient_of_groups _ q unit [c] n');
    [rewrite Eq; discriminate|rewrite Eu; discriminate|discriminate|].
  unfold match_at. rewrite run_runk, quantified_parts.
  rewrite runk_Seq, runk_Bol. cbn [pos Nat.eqb]. rewrite runk_Seq.
  apply quantity_matches; [exact Hq| |destruct sp; [congruence|discriminate]|].
  - destruct sp as [|s sp]; [congruence|]. cbn [app hd].
    cbn [forallb] in Hsp. apply andb_true_iff in Hsp. apply Hsp.
  - unfold space. rewrite runk_Seq, runk_Star_class.
    apply greedy_class_first; [exact Hsp| |exact Hn].
    rewrite Eu. cbn [app stops]. apply word_not_space, Hu.
Qed.

Lemma last_letter_is_the_name_witness :
  ingredientOfCleaned (lit "2" ++ lit " " ++ lit "egg" ++ [115%N])
  = [ingredient (lit "2") (lit "egg") [115%N]].
Proof.
  apply (last_letter_is_the_name (lit "2") (lit " ") (lit "egg") 115%N).
  - reflexivity.
  - discriminate.
  - reflexivity.
  - reflexivity.
  - reflexivity.
Defined.


(* ------------------------------------------------------------------ *)
(** The filter on the lines of the ingredient section *)

Lemma isMatch_anchored (r : regex) (s : jsstring) :
  isMatch s (Seq Bol r)
  = match runk r (fun y => [y]) (MState 0 s []) with
    | _ :: _ => true
    | [] => false
    end.
Proof.
  unfold isMatch. rewrite anchored_match, <- run_runk.
  destruct (run r _); reflexivity.
Qed.

Lemma span_class (p : N -> bool) (s : jsstring) :
  exists w, s = w ++ dropWhile p s /\ forallb p w = true
            /\ stops p (dropWhile p s).
Proof.
  induction s as [|c s (w & Hw & Hp & Hs)].
  - exists []. repeat split.
  - cbn [dropWhile]. destruct (p c) eqn:E.
    + exists (c :: w). cbn [app forallb]. rewrite E, Hp. repeat split.
      * f_equal. exact Hw.
      * exact Hs.
    + exists []. repeat split. cbn [stops]. exact E.
Qed.

Lemma skipn_starts (p : N -> bool) (w s : jsstring) :
  forallb p w = true ->
  forall j, j < List.length w ->
    exists c t, skipn j w ++ s = c :: t /\ p c = true.
Proof.
  intros Hw j Hj. destruct (SectionFacts.skipn_in w j Hj) as (c & t & -> & Hc).
  exists c, (t ++ s). split; [reflexivity|].
  rewrite forallb_forall in Hw. apply Hw, Hc.
Qed.

Lemma bulleted_test (line : jsstring) :
  isMatch line bulleted = bulletedLine line.
Proof.
  unfold bulleted. cbn [Cat]. rewrite isMatch_anchored.
  unfold bulletClass, space. rewrite runk_Seq.
  destruct line as [|b [|s t]]; cbn [bulletedLine].
  - reflexivity.
  - rewrite runk_Chr_cons. unfold isBullet. destruct (_ || _); reflexivity.
  - rewrite runk_Chr_cons. unfold isBullet.
    destruct (N.eqb b 45 || N.eqb b 8226 || N.eqb b 42); cbn [andb];
      [|reflexivity].
    rewrite runk_Chr_cons. destruct (isSpace s); reflexivity.
Qed.

Lemma numbered_test (line : jsstring) :
  isMatch line numbered = numberedLine line.
Proof.
  unfold numbered. cbn [Cat]. rewrite isMatch_anchored.
  unfold Plus, digit, space, chr, numberedLine. rewrite !runk_Seq.
  destruct line as [|d t]; [reflexivity|]. cbn [hd dropWhile].
  rewrite runk_Chr_cons. destruct (isDigit d) eqn:Ed; cbn [andb]; [|reflexivity].
  destruct (span_class isDigit t) as (w & Ht & Hw & Hs).
  rewrite runk_Star_class. rewrite Ht at 1.
  rewrite greedy_class_all; [|exact Hw|exact Hs|].
  - destruct (dropWhile isDigit t) as [|c [|s u]].
    + reflexivity.
    + rewrite runk_Seq, runk_Chr_cons. destruct (N.eqb 46 c); reflexivity.
    + rewrite runk_Seq, runk_Chr_cons. rewrite (N.eqb_sym c 46).
      destruct (N.eqb 46 c); cbn [andb]; [|reflexivity].
      rewrite runk_Chr_cons. destruct (isSpace s); reflexivity.
  - intros j Hj.
    destruct (skipn_starts isDigit w (dropWhile isDigit t) Hw j Hj)
      as (c & u & -> & Hc).
    rewrite runk_Seq. apply runk_Chr_false.
    destruct (N.eqb_spec 46 c) as [<-|]; [discriminate|reflexivity].
Qed.

Lemma colonFree_test (line : jsstring) :
  isMatch line colonFree = colonFreeLine line.
Proof.
  unfold colonFree. cbn [Cat]. rewrite isMatch_anchored.
  unfold Plus, colonFreeLine, allOf.
  change (Chr (fun c : N => negb (N.eqb c 58))) with (Chr notColon).
  rewrite !runk_Seq.
  destruct line as [|c t]; [reflexivity|]. cbn [nonEmpty forallb andb].
  rewrite runk_Chr_cons.
  destruct (notColon c) eqn:Ec; cbn [andb]; [|reflexivity].
  destruct (span_class notColon t) as (w & Ht & Hw & Hs).
  rewrite runk_Star_class. rewrite Ht.
  rewrite greedy_class_all; [|exact Hw|exact Hs|].
  - rewrite forallb_app, Hw. cbn [andb].
    destruct (dropWhile notColon t) as [|x u]; [reflexivity|].
    cbn [stops] in Hs. cbn [forallb]. rewrite Hs. reflexivity.
  - intros j Hj.
    destruct (skipn_starts notColon w (dropWhile notColon t) Hw j Hj)
      as (x & u & -> & _).
    reflexivity.
Qed.

(** X19: The filter on the lines of the ingredient section keeps the lines that
    start with a bullet ([-], [*] or U+2022) and white space, the lines that
    start with digits, a point and white space, and the lines that are not
    empty and have no colon; it drops every other line, so every line with a
    colon that starts in neither of the two ways. *)
Theorem ingredient_lines_kept (line : jsstring) :
  isIngredientLine line
  = bulletedLine line || numberedLine line || colonFreeLine line.
Proof.
  unfold isIngredientLine.
  rewrite bulleted_test, numbered_test, colonFree_test.
  destruct line as [|c t]; reflexivity.
Qed.


(* ------------------------------------------------------------------ *)
(** The marker of a line *)

Lemma digit_not_bullet (c : N) : isDigit c = true -> isBullet c = false.
Proof.
  unfold isDigit, isBullet. intros H. apply andb_true_iff in H.
  destruct H as [H1 H2]. apply N.leb_le in H1, H2.
  repeat match goal with
  | |- context [N.eqb c ?k] =>
      replace (N.eqb c k) with false by (symmetry; apply N.eqb_neq; lia)
  end.
  reflexivity.
Qed.

(** On a line that starts with a number and a point, the marker pattern
    removes the number, the point and the white space after it. *)
Lemma replace_marker_number (num sp tail : jsstring) :
  isDigits num = true -> forallb isSpace sp = true ->
  isSpace (hd 0%N tail) = false ->
  replace_empty (num ++ 46%N :: sp ++ tail) marker = tail.
Proof.
  intros Hnum Hsp Htail.
  destruct (LineFacts.isDigits_facts num Hnum) as (d & ds & Enum & Hd & Hds).
  assert (Hm : match_at marker 0 (num ++ 46%N :: sp ++ tail)
               = Some (MState (List.length num + 1 + List.length sp) tail [])).
  { rewrite Enum. unfold match_at, marker, bulletClass, space, digit, Plus, chr.
    rewrite run_runk. cbn [Cat app]. rewrite runk_Alt, hd_error_app.
    rewrite runk_Seq, runk_Bol. cbn [pos Nat.eqb]. rewrite runk_Seq.
    rewrite runk_Chr_false by (apply (digit_not_bullet d Hd)).
    cbn [hd_error].
    rewrite !runk_Seq. rewrite runk_Chr_true by exact Hd.
    rewrite runk_Star_class.
    apply greedy_class_first; [exact Hds|reflexivity|].
    rewrite runk_Seq. chr_true. rewrite runk_Star_class.
    apply greedy_class_first; [exact Hsp| |].
    - destruct tail; [exact I|exact Htail].
    - cbn [hd_error List.length]. do 2 f_equal. lia. }
  unfold replace_empty, String_match. rewrite (exec_from_here _ _ _ _ Hm).
  cbn [index lastIndex firstn app pos].
  replace (num ++ 46%N :: sp ++ tail) with ((num ++ 46%N :: sp) ++ tail)
    by (rewrite <- app_assoc; reflexivity).
  rewrite skipn_app, skipn_all2
    by (rewrite length_app; cbn [List.length]; lia).
  rewrite length_app. cbn [List.length app].
  replace (List.length num + 1 + List.length sp
           - (List.length num + S (List.length sp))) with 0 by lia.
  reflexivity.
Qed.

(** X20: A line that starts with a decimal quantity loses the integer part and
    the point: the marker pattern takes them for the number of a numbered
    line, and the quantity read is the fractional part.  So
    [1.5 cups flour] gives the quantity [5]. *)
Theorem decimal_quantity_loses_integer_part
  (int frac sp1 unit sp2 name : jsstring) :
  isDigits int = true -> isDigits frac = true ->
  sp1 <> [] -> forallb isSpace sp1 = true ->
  allOf isWord unit = true ->
  sp2 <> [] -> forallb isSpace sp2 = true ->
  isText name = true ->
  ingredientOfLine (int ++ 46%N :: frac ++ sp1 ++ unit ++ sp2 ++ name)
  = [ingredient frac unit name].
Proof.
  intros Hint Hfrac Hne1 Hsp1 Hunit Hne2 Hsp2 Hname.
  destruct (LineFacts.isText_facts name Hname) as (Hne & Hhd & Hlast & Hline).
  destruct (LineFacts.isDigits_facts frac Hfrac) as (f & fs & Ef & Hf & Hfs).
  unfold ingredientOfLine.
  assert (Hstart : isSpace (hd 0%N (frac ++ sp1 ++ unit ++ sp2 ++ name)) = false)
    by (rewrite Ef; cbn [app hd]; apply LineFacts.digit_not_space, Hf).
  pose proof (replace_marker_number int []
                (frac ++ sp1 ++ unit ++ sp2 ++ name) Hint eq_refl Hstart) as Hr.
  cbn [app] in Hr. rewrite Hr.
  rewrite LineFacts.trim_fixed.
  - assert (Hn : allOf onLine name = true)
      by (unfold allOf; destruct name; [congruence|exact Hline]).
    destruct (quantified_decomposes frac sp1 unit sp2 name
                (isDigits_isQuantity frac Hfrac) Hne1 Hsp1 Hunit Hne2 Hsp2
                Hn Hhd) as [n' Hm].
    destruct (allOf_facts _ _ Hunit) as (u & unit' & Eu & _).
    apply (ingredient_of_groups _ frac unit name n'); [| | |exact Hm].
    + rewrite Ef; discriminate.
    + rewrite Eu; discriminate.
    + exact Hne.
  - exact Hstart.
  - rewrite !app_assoc, rev_app_distr, LineFacts.hd_rev_app by exact Hne.
    exact Hlast.
Qed.

Lemma decimal_quantity_loses_integer_part_witness :
  ingredientOfLine (lit "1" ++ 46%N :: lit "5" ++ lit " " ++ lit "cups"
                    ++ lit " " ++ lit "flour")
  = [ingredient (lit "5") (lit "cups") (lit "flour")].
Proof.
  apply (decimal_quantity_loses_integer_part (lit "1") (lit "5") (lit " ")
           (lit "cups") (lit " ") (lit "flour"));
    try reflexivity; discriminate.
Defined.


(* ------------------------------------------------------------------ *)
(** The title *)

Lemma firstLine_parts :
  firstLine
  = Seq Bol (Seq (Group 1 (Seq (Chr onLine) (Star false (Chr onLine))))
                 (Alt (chr 10) Eol)).
Proof. reflexivity. Qed.

Lemma onLine_not_linefeed (c : N) : onLine c = true -> N.eqb 10 c = false.
Proof.
  unfold onLine. destruct (N.eqb_spec 10 c) as [<-|]; [discriminate|reflexivity].
Qed.

(** After a code unit that is no line terminator, the end of the first line
    is not reached. *)
Lemma line_goes_on (k : mstate -> list mstate) (n : nat) (c : N)
  (t : jsstring) (cs : list (nat * jsstring)) :
  onLine c = true ->
  runk (Alt (chr 10) Eol) k (MState n (c :: t) cs) = [].
Proof.
  intros Hc. unfold chr. rewrite runk_Alt.
  rewrite runk_Chr_false by (apply onLine_not_linefeed, Hc). reflexivity.
Qed.

Lemma first_line_found (line tail : jsstring) :
  allOf onLine line = true -> tail = [] \/ hd 0%N tail = 10%N ->
  exists n,
    String_match (line ++ tail) firstLine
    = Some (MatchArray 0 n [(1, line)]).
Proof.
  intros Hline Htail.
  destruct (allOf_facts _ _ Hline) as (c & w & -> & Hc & Hw).
  assert (Hrun : exists n,
    hd_error (run (Seq (Group 1 (Seq (Chr onLine) (Star false (Chr onLine))))
                       (Alt (chr 10) Eol))
                  (MState 0 ((c :: w) ++ tail) []))
    = Some (MState n (tl tail) [(1, c :: w)])).
  { assert (Hgo : forall j, j < List.length w ->
              (fun y => runk (Alt (chr 10) Eol) (fun y0 => [y0])
                 (MState (pos y) (rest y)
                    ((1, firstn (pos y - 0) ((c :: w) ++ tail)) :: caps y)))
                (MState (1 + j) (skipn j w ++ tail) []) = []).
    { intros j Hj.
      destruct (skipn_starts onLine w tail Hw j Hj) as (x & u & -> & Hx).
      cbn [pos rest caps]. apply line_goes_on, Hx. }
    destruct Htail as [->|Htail].
    - eexists. rewrite run_runk, runk_Seq, runk_Group, runk_Seq. cbn [app].
      rewrite runk_Chr_true by exact Hc. rewrite runk_Star_class.
      apply lazy_class_first; [exact Hw|exact Hgo|].
      cbn [pos rest caps].
      change (c :: w ++ []) with ((c :: w) ++ []).
      rewrite firstn_exact by (cbn [List.length]; lia).
      unfold chr. rewrite runk_Alt, hd_error_app.
      cbn [hd_error runk_Chr_nil]. rewrite runk_Eol_nil. reflexivity.
    - destruct tail as [|x tail]; [discriminate|]. cbn [hd] in Htail.
      subst x. eexists.
      rewrite run_runk, runk_Seq, runk_Group, runk_Seq. cbn [app].
      rewrite runk_Chr_true by exact Hc. rewrite runk_Star_class.
      apply lazy_class_first; [exact Hw|exact Hgo|].
      cbn [pos rest caps].
      change (c :: w ++ 10%N :: tail) with ((c :: w) ++ 10%N :: tail).
      rewrite firstn_exact by (cbn [List.length]; lia).
      unfold chr. rewrite runk_Alt, hd_error_app.
      chr_true. reflexivity. }
  destruct Hrun as [n Hrun].
  rewrite firstLine_parts, anchored_match.
  destruct (run _ _) as [|y l]; [discriminate|].
  cbn [hd_error] in Hrun. injection Hrun as ->. eauto.
Qed.

Lemma first_line_missing (content : jsstring) :
  content = [] \/ isLineTerminator (hd 0%N content) = true ->
  String_match content firstLine = None.
Proof.
  intros H. rewrite firstLine_parts, anchored_match, run_runk.
  rewrite runk_Seq, runk_Group, runk_Seq.
  destruct H as [->|H]; [reflexivity|].
  destruct content as [|c t]; [reflexivity|]. cbn [hd] in H.
  rewrite runk_Chr_false by (unfold onLine; rewrite H; reflexivity).
  reflexivity.
Qed.

Lemma first_line_cut (line : jsstring) (c : N) (tail : jsstring) :
  allOf onLine line = true -> isLineTerminator c = true -> c <> 10%N ->
  String_match (line ++ c :: tail) firstLine = None.
Proof.
  intros Hline Hc Hlf.
  destruct (allOf_facts _ _ Hline) as (x & w & -> & Hx & Hw).
  rewrite firstLine_parts, anchored_match, run_runk.
  rewrite runk_Seq, runk_Group, runk_Seq. cbn [app].
  rewrite runk_Chr_true by exact Hx. rewrite runk_Star_class.
  rewrite lazy_class_none; [reflexivity|exact Hw| |].
  - cbn [stops]. unfold onLine. rewrite Hc. reflexivity.
  - intros j Hj. cbn [pos rest caps].
    destruct (Nat.eq_dec j (List.length w)) as [->|Hne].
    + rewrite skipn_all. cbn [app]. unfold chr. rewrite runk_Alt.
      rewrite runk_Chr_false; [reflexivity|].
      destruct (N.eqb_spec 10 c); [congruence|reflexivity].
    + destruct (skipn_starts onLine w (c :: tail) Hw j ltac:(lia))
        as (z & u & -> & Hz).
      apply line_goes_on, Hz.
Qed.

(** X21: Without a label ([Recipe:], [Title:] or [Dish:]) anywhere in the text,
    the title is the first line with the white space around it removed (the
    empty string when the line is blank), where the first line ends at the
    first line feed; the title is [Recipe from Image] when the text is empty
    or starts with a line terminator, and also when the first line ends with
    a carriage return or another line terminator that is no line feed. *)
Theorem title_without_label (content : jsstring) :
  String_match content labelledTitle = None ->
  (forall line tail,
     content = line ++ tail -> allOf onLine line = true ->
     tail = [] \/ hd 0%N tail = 10%N ->
     titleOf content = trim line)
  /\ (content = [] \/ isLineTerminator (hd 0%N content) = true ->
      titleOf content = lit "Recipe from Image")
  /\ (forall line c tail,
        content = line ++ c :: tail -> allOf onLine line = true ->
        isLineTerminator c = true -> c <> 10%N ->
        titleOf content = lit "Recipe from Image").
Proof.
  intros Hlabel. unfold titleOf, match_or. rewrite Hlabel. repeat split.
  - intros line tail -> Hline Htail.
    destruct (first_line_found line tail Hline Htail) as [n ->].
    unfold group. cbn [groups assoc Nat.eqb].
    destruct (allOf_facts _ _ Hline) as (c & w & -> & _). reflexivity.
  - intros H. rewrite (first_line_missing content H). reflexivity.
  - intros line c tail -> Hline Hc Hlf.
    rewrite (first_line_cut line c tail Hline Hc Hlf). reflexivity.
Qed.

Lemma title_without_label_witness :
  titleOf (lit "Pancakes" ++ 13%N :: 10%N :: lit "Mix and fry")
  = lit "Recipe from Image".
Proof.
  apply (proj2 (proj2 (title_without_label
                         (lit "Pancakes" ++ 13%N :: 10%N :: lit "Mix and fry")
                         ltac:(vm_compute; reflexivity)))
           (lit "Pancakes") 13%N (10%N :: lit "Mix and fry")).
  - reflexivity.
  - reflexivity.
  - reflexivity.
  - discriminate.
Defined.


Ltac open_labels :=
  unfold LitCI; lit_units "Recipe"; lit_units "Title"; lit_units "Dish";
  cbn [map Cat app]; unfold chrCI.

(** After the label: the colon, white space, and the rest of the line. *)
Lemma labelled_tail (n : nat) (sp name tail : jsstring) :
  forallb isSpace sp = true -> allOf onLine name = true ->
  isSpace (hd 0%N name) = false -> stops onLine tail ->
  exists n',
    hd_error (runk (Seq (chr 58) (Seq (Star true space) (Group 1 (Plus true dot))))
                (fun y => [y]) (MState n (58%N :: sp ++ name ++ tail) []))
    = Some (MState n' tail [(1, name)]).
Proof.
  intros Hsp Hname Hhd Htail.
  destruct (allOf_facts _ _ Hname) as (c & w & -> & Hc & Hw).
  eexists. unfold chr, space, Plus, dot.
  rewrite runk_Seq. chr_true. rewrite runk_Seq, runk_Star_class.
  apply greedy_class_first; [exact Hsp|exact Hhd|].
  rewrite runk_Group, runk_Seq. cbn [app].
  rewrite runk_Chr_true by exact Hc. rewrite runk_Star_class.
  apply greedy_class_first; [exact Hw|exact Htail|].
  cbn [pos rest caps hd_error].
  change (c :: w ++ tail) with ((c :: w) ++ tail).
  rewrite firstn_exact by (cbn [List.length]; lia). reflexivity.
Qed.

Lemma labelled_here (n : nat) (label sp name tail : jsstring) :
  In label titleLabels ->
  forallb isSpace sp = true -> allOf onLine name = true ->
  isSpace (hd 0%N name) = false -> stops onLine tail ->
  exists n',
    match_at labelledTitle n (label ++ 58%N :: sp ++ name ++ tail)
    = Some (MState n' tail [(1, name)]).
Proof.
  intros Hlabel Hsp Hname Hhd Htail.
  assert (Hparts : labelledTitle
            = Seq (Alt (LitCI "Recipe") (Alt (LitCI "Title") (LitCI "Dish")))
                  (Seq (chr 58) (Seq (Star true space) (Group 1 (Plus true dot)))))
    by reflexivity.
  unfold match_at. rewrite Hparts, run_runk, runk_Seq.
  set (K := runk (Seq (chr 58) (Seq (Star true space) (Group 1 (Plus true dot))))
                 (fun y => [y])).
  assert (HK : forall m, exists n',
            hd_error (K (MState m (58%N :: sp ++ name ++ tail) []))
            = Some (MState n' tail [(1, name)]))
    by (intros m; apply labelled_tail; assumption).
  clearbody K.
  unfold titleLabels in Hlabel. cbn [In] in Hlabel.
  destruct Hlabel as [<-|[<-|[<-|[<-|[<-|[<-|[]]]]]]].
  - destruct (HK (n + 6)) as [n' Hn].
    exists n'. lit_units "Recipe". open_labels.
    rewrite runk_Alt, hd_error_app.
    repeat first [rewrite runk_Seq | chr_true].
    replace (S (S (S (S (S (S n)))))) with (n + 6) by lia.
    rewrite Hn. reflexivity.
  - destruct (HK (n + 5)) as [n' Hn].
    exists n'. lit_units "Title". open_labels.
    rewrite runk_Alt, hd_error_app.
    rewrite runk_Seq. chr_false. cbn [hd_error].
    rewrite runk_Alt, hd_error_app.
    repeat first [rewrite runk_Seq | chr_true].
    replace (S (S (S (S (S n))))) with (n + 5) by lia.
    rewrite Hn. reflexivity.
  - destruct (HK (n + 4)) as [n' Hn].
    exists n'. lit_units "Dish". open_labels.
    rewrite runk_Alt, hd_error_app.
    rewrite runk_Seq. chr_false. cbn [hd_error].
    rewrite runk_Alt, hd_error_app.
    rewrite runk_Seq. chr_false. cbn [hd_error].
    repeat first [rewrite runk_Seq | chr_true].
    replace (S (S (S (S n)))) with (n + 4) by lia.
    rewrite Hn. reflexivity.
  - destruct (HK (n + 6)) as [n' Hn].
    exists n'. lit_units "recipe". open_labels.
    rewrite runk_Alt, hd_error_app.
    repeat first [rewrite runk_Seq | chr_true].
    replace (S (S (S (S (S (S n)))))) with (n + 6) by lia.
    rewrite Hn. reflexivity.
  - destruct (HK (n + 5)) as [n' Hn].
    exists n'. lit_units "title". open_labels.
    rewrite runk_Alt, hd_error_app.
    rewrite runk_Seq. chr_false. cbn [hd_error].
    rewrite runk_Alt, hd_error_app.
    repeat first [rewrite runk_Seq | chr_true].
    replace (S (S (S (S (S n))))) with (n + 5) by lia.
    rewrite Hn. reflexivity.
  - destruct (HK (n + 4)) as [n' Hn].
    exists n'. lit_units "dish". open_labels.
    rewrite runk_Alt, hd_error_app.
    rewrite runk_Seq. chr_false. cbn [hd_error].
    rewrite runk_Alt, hd_error_app.
    rewrite runk_Seq. chr_false. cbn [hd_error].
    repeat first [rewrite runk_Seq | chr_true].
    replace (S (S (S (S n)))) with (n + 4) by lia.
    rewrite Hn. reflexivity.
Qed.

(** X22: A label comes before the first line: when the first [Recipe:], [Title:]
    or [Dish:] of the text stands after [pre], wherever that is, the title
    is what follows the label and the white space after it, up to the end
    of that line, with trailing white space removed. *)
Theorem title_after_label (pre label sp name tail : jsstring) :
  let content := pre ++ label ++ 58%N :: sp ++ name ++ tail in
  In label titleLabels ->
  firstMatchAt labelledTitle content (List.length pre) = true ->
  forallb isSpace sp = true -> allOf onLine name = true ->
  isSpace (hd 0%N name) = false -> stops onLine tail ->
  titleOf content = trim name.
Proof.
  intros content Hlabel Hfirst Hsp Hname Hhd Htail.
  destruct (labelled_here (List.length pre) label sp name tail
              Hlabel Hsp Hname Hhd Htail) as [n' Hn].
  unfold titleOf, match_or, content.
  rewrite (SectionFacts.leftmost_match _ _ _ _ Hfirst Hn).
  unfold group. cbn [groups caps assoc Nat.eqb].
  destruct (allOf_facts _ _ Hname) as (c & w & -> & _). reflexivity.
Qed.

Lemma title_after_label_witness :
  titleOf (lit "Soup of the day
Serve as a side " ++ lit "dish" ++ 58%N :: lit " " ++ lit "rice " ++ lit "
Enjoy")
  = trim (lit "rice ").
Proof.
  apply (title_after_label (lit "Soup of the day
Serve as a side ") (lit "dish") (lit " ") (lit "rice ") (lit "
Enjoy")).
  - cbn. tauto.
  - vm_compute; reflexivity.
  - reflexivity.
  - reflexivity.
  - reflexivity.
  - reflexivity.
Defined.


(* ------------------------------------------------------------------ *)
(** The sentences of the fall-back *)

Lemma star_class_pos (g : bool) (p : N -> bool) (s : jsstring) :
  forall n cs y, In y (star_class g p n s cs) -> n <= pos y.
Proof.
  induction s as [|c s IH]; intros n cs y Hy; cbn [star_class] in Hy.
  - destruct Hy as [<-|[]]. cbn. lia.
  - destruct (p c).
    + destruct g.
      * apply in_app_or in Hy. destruct Hy as [Hy|[<-|[]]].
        -- apply IH in Hy. lia.
        -- cbn. lia.
      * destruct Hy as [<-|Hy]; [cbn; lia|]. apply IH in Hy. lia.
    + destruct Hy as [<-|[]]. cbn. lia.
Qed.

Lemma star_class_nonempty (g : bool) (p : N -> bool) (s : jsstring) :
  forall n cs, star_class g p n s cs <> [].
Proof.
  destruct s as [|c s]; intros n cs; cbn [star_class]; [discriminate|].
  destruct (p c); [|discriminate]. destruct g; [|discriminate].
  destruct (star_class true p (S n) s cs); discriminate.
Qed.

Lemma sentenceEnd_at (q : nat) (c : N) (t : jsstring) :
  run sentenceEnd (MState q (c :: t) [])
  = if isEndMark c then star_class true isEndMark (S q) t [] else [].
Proof.
  unfold sentenceEnd, Plus.
  change (Chr (fun c0 : N => N.eqb c0 46 || N.eqb c0 33 || N.eqb c0 63))
    with (Chr isEndMark).
  cbn [run rest pos caps]. destruct (isEndMark c); [|reflexivity].
  cbn [flat_map]. rewrite app_nil_r.
  apply (run_Star_class true isEndMark (S q) t []).
Qed.

Lemma forallb_rev (p : N -> bool) (s : jsstring) :
  forallb p s = true -> forallb p (rev s) = true.
Proof.
  rewrite !forallb_forall. intros H x Hx. apply H, in_rev, Hx.
Qed.

Lemma forallb_dropWhile (p q : N -> bool) (s : jsstring) :
  forallb p s = true -> forallb p (dropWhile q s) = true.
Proof.
  induction s as [|c s IH]; intros H; [reflexivity|].
  cbn [dropWhile]. destruct (q c); [|exact H].
  cbn [forallb] in H. apply andb_true_iff in H. apply IH, H.
Qed.

Lemma forallb_trim (p : N -> bool) (s : jsstring) :
  forallb p s = true -> forallb p (trim s) = true.
Proof.
  intros H. unfold trim, trimEnd, trimStart.
  apply forallb_rev, forallb_dropWhile, forallb_rev, forallb_dropWhile, H.
Qed.

(** The pieces between the marks have no mark. *)
Lemma split_pieces (t : jsstring) : forall q skip cur piece,
  forallb notEndMark cur = true ->
  In piece (split_loop sentenceEnd t q skip cur) ->
  forallb notEndMark piece = true.
Proof.
  induction t as [|c t IH]; intros q skip cur piece Hcur Hin;
    cbn [split_loop] in Hin.
  - destruct Hin as [<-|[]]. apply forallb_rev, Hcur.
  - destruct skip as [|k]; [|eapply IH; eassumption].
    rewrite sentenceEnd_at in Hin. destruct (isEndMark c) eqn:Ec.
    + pose proof (star_class_nonempty true isEndMark t (S q) []) as Hne.
      destruct (star_class true isEndMark (S q) t []) as [|y l] eqn:Es;
        [congruence|].
      assert (Hy : S q <= pos y).
      { apply (star_class_pos true isEndMark t (S q) [] y).
        rewrite Es. left; reflexivity. }
      destruct (pos y - q) as [|k] eqn:Ek; [lia|].
      destruct Hin as [<-|Hin]; [apply forallb_rev, Hcur|].
      eapply IH; [|exact Hin]. reflexivity.
    + eapply IH; [|exact Hin]. cbn [forallb]. unfold notEndMark at 1.
      rewrite Ec, Hcur. reflexivity.
Qed.

(** X23: The sentences that the fall-back classifies are longer than twenty code
    units and contain no point, exclamation mark or question mark: the text
    is cut at every run of these marks, also inside a decimal number or
    after an abbreviation, and the pieces of twenty code units or fewer are
    left out. *)
Theorem sentences_are_cut_at_marks (content s : jsstring) :
  In s (sentencesOf content) ->
  20 < List.length s /\ forallb notEndMark s = true.
Proof.
  unfold sentencesOf. intros H. apply filter_In in H. destruct H as [H Hlen].
  split; [apply Nat.ltb_lt, Hlen|].
  apply in_map_iff in H. destruct H as (piece & <- & Hp).
  apply forallb_trim. unfold split_re in Hp.
  destruct content as [|c t].
  - destruct (run sentenceEnd (MState 0 [] [])); [|destruct Hp].
    destruct Hp as [<-|[]]. reflexivity.
  - eapply split_pieces; [|exact Hp]. reflexivity.
Qed.

Lemma sentences_are_cut_at_marks_witness :
  20 < List.length (lit "Then add 2 cups of flour and stir")
  /\ forallb notEndMark (lit "Then add 2 cups of flour and stir") = true.
Proof.
  apply (sentences_are_cut_at_marks
           (lit "First heat the oven to 350 degrees. Then add 2 cups of flour and stir")
           (lit "Then add 2 cups of flour and stir")).
  vm_compute. right; left; reflexivity.
Defined.


(* ------------------------------------------------------------------ *)
(** The lines of the instruction section *)

Lemma replace_anchored (r : regex) (s : jsstring) :
  replace_empty s (Seq Bol r)
  = match hd_error (runk r (fun y => [y]) (MState 0 s [])) with
    | Some y => skipn (pos y) s
    | None => s
    end.
Proof.
  unfold replace_empty. rewrite anchored_match, <- run_runk.
  destruct (run r _); reflexivity.
Qed.

Lemma skipn_exact (k : nat) (u t : jsstring) :
  k = List.length u -> skipn k (u ++ t) = t.
Proof.
  intros ->. rewrite skipn_app, skipn_all, Nat.sub_diag. reflexivity.
Qed.

Lemma replace_stepNumber (line : jsstring) :
  replace_empty line stepNumber = stripNumber line.
Proof.
  unfold stepNumber. cbn [Cat]. rewrite replace_anchored.
  unfold Plus, digit, space, chr, stripNumber. rewrite !runk_Seq.
  destruct line as [|d t]; [reflexivity|]. cbn [hd dropWhile].
  rewrite runk_Chr_cons. destruct (isDigit d) eqn:Ed; [|reflexivity].
  destruct (span_class isDigit t) as (w & Ht & Hw & Hs).
  rewrite runk_Star_class. rewrite Ht at 1.
  rewrite greedy_class_all; [|exact Hw|exact Hs|].
  - destruct (dropWhile isDigit t) as [|c u] eqn:Eu; [reflexivity|].
    rewrite runk_Seq, runk_Chr_cons. rewrite (N.eqb_sym c 46).
    destruct (N.eqb_spec 46 c) as [<-|Hc]; [|reflexivity].
    destruct (span_class isSpace u) as (w2 & Hu & Hw2 & Hs2).
    rewrite runk_Star_class. rewrite Hu at 1.
    erewrite greedy_class_first; [|exact Hw2|exact Hs2|reflexivity].
    cbn [pos]. rewrite Ht, Hu at 1.
    replace (d :: w ++ 46%N :: w2 ++ dropWhile isSpace u)
      with ((d :: w ++ 46%N :: w2) ++ dropWhile isSpace u)
      by (cbn [app]; rewrite <- app_assoc; reflexivity).
    apply skipn_exact. cbn [List.length]. rewrite length_app.
    cbn [List.length]. lia.
  - intros j Hj.
    destruct (skipn_starts isDigit w (dropWhile isDigit t) Hw j Hj)
      as (c & u & -> & Hc).
    rewrite runk_Seq. apply runk_Chr_false.
    destruct (N.eqb_spec 46 c) as [<-|]; [discriminate|reflexivity].
Qed.

(** X24: Every line of the instruction section, numbered or not, becomes a step:
    what is left once the digits at its start, the point after them and the
    following white space are removed (a line that does not start so is
    taken whole) and the white space around is stripped, provided it is
    longer than ten code units; a shorter one is dropped. *)
Theorem instruction_lines_kept (line : jsstring) :
  instructionOfLine line
  = let cleaned := trim (stripNumber line) in
    if (10 <? List.length cleaned)%nat then [VStr cleaned] else [].
Proof.
  unfold instructionOfLine. rewrite replace_stepNumber. cbv zeta.
  destruct (trim (stripNumber line)); reflexivity.
Qed.

End PipelineFacts.
